(** * Throttle mapper firmware: command protocol and ramp-control state machine

    A shallow embedding of [main.cpp] (firmware version 0.72): the serial
    line assembler [checkSerialRX], the tokenizer [nextWord], the command
    interpreter [executeCommand], the state machine [primaryFSM], the
    poll cycle [Application_loop] and the main loop [loop] with its
    heartbeat [WatchdogLED], followed by the properties proved about them.

    Conventions of the embedding:
    - machine integers are [Z] with the wrap-around of every conversion
      written out ([to_uint8], [to_uint32], [to_uint64], [to_long],
      [to_int]); array indices, string lengths and cursors are [nat];
    - an Arduino [String] and a [char] buffer are [list ascii];
    - the function-local [static] variables of the source ([cur], [ser_i],
      [input], [old_pot_pos]) and the global potentiometer object [pot] are
      fields of the system state [Sys], next to the [Application] struct;
    - what the firmware writes to the serial port is appended to the trace
      [serial_out], what it writes to the LED pin to the trace [led_out];
    - undefined behaviour of the C++ source (division by zero, a numeral that
      does not fit a [long], reading or writing past the line buffer) is a
      [Fault];
    - one poll cycle reads the clock, the UART and the ADC through an [Env];
      every clock read of one cycle returns the same value [now]. *)

From Stdlib Require Import ZArith Ascii String Bool Lia.
From stdpp Require Import base tactics option list.

Open Scope Z_scope.

(** ** Faults and the error monad *)

Inductive fault : Type :=
| DivByZero
| LongOverflow
| BufferOverrun.

Inductive result (A : Type) : Type :=
| Ok (a : A)
| Fault (f : fault).
Arguments Ok {A} a.
Arguments Fault {A} f.

#[global] Instance result_ret : MRet result := fun A a => Ok a.
#[global] Instance result_bind : MBind result := fun A B f m =>
  match m with
  | Ok a => f a
  | Fault e => Fault e
  end.

(** ** Machine integers *)

Definition to_uint8 (z : Z) : Z := z mod 2 ^ 8.
Definition to_uint32 (z : Z) : Z := z mod 2 ^ 32.
Definition to_uint64 (z : Z) : Z := z mod 2 ^ 64.

(** Two's-complement value of [z] in a signed integer of [bits] bits. *)
Definition to_signed (bits : Z) (z : Z) : Z :=
  (z + 2 ^ (bits - 1)) mod 2 ^ bits - 2 ^ (bits - 1).

Definition to_long (z : Z) : Z := to_signed 32 z.

Definition LONG_MIN : Z := - 2 ^ 31.
Definition LONG_MAX : Z := 2 ^ 31 - 1.

(** Unsigned division; the divisor zero is undefined behaviour. *)
Definition udiv (a b : Z) : result Z :=
  if b =? 0 then Fault DivByZero else Ok (a / b).

(** ** Characters and strings *)

Definition ASCII_NUL : ascii := "000"%char.
Definition ASCII_LF : ascii := "010"%char.
Definition ASCII_CR : ascii := "013"%char.
Definition ASCII_SPACE : ascii := " "%char.

Definition isdigit (c : ascii) : bool :=
  let n := nat_of_ascii c in (48 <=? n)%nat && (n <=? 57)%nat.

Definition isspace (c : ascii) : bool :=
  let n := nat_of_ascii c in (n =? 32)%nat || ((9 <=? n)%nat && (n <=? 13)%nat).

Definition tolower (c : ascii) : ascii :=
  let n := nat_of_ascii c in
  if (65 <=? n)%nat && (n <=? 90)%nat then ascii_of_nat (n + 32) else c.

(** [String::toLowerCase] *)
Definition toLowerCase (s : list ascii) : list ascii := map tolower s.

(** [String::charAt]: the character at [i], NUL out of range. *)
Definition charAt (s : list ascii) (i : nat) : ascii := nth i s ASCII_NUL.

(** [String::substring (left, right)] *)
Definition substring (s : list ascii) (left right : nat) : list ascii :=
  let '(l, r) := if (right <? left)%nat then (right, left) else (left, right) in
  take (r - l) (drop l s).

(** The digits of [atol], most significant first, up to the first
    character that is not a digit. *)
Fixpoint atol_digits (acc : Z) (s : list ascii) : Z :=
  match s with
  | c :: s' =>
      if isdigit c then atol_digits (acc * 10 + (Z.of_nat (nat_of_ascii c) - 48)) s'
      else acc
  | [] => acc
  end.

Fixpoint atol_skip (s : list ascii) : list ascii :=
  match s with
  | c :: s' => if isspace c then atol_skip s' else s
  | [] => []
  end.

(** The mathematical value [atol] reads: leading white space, an optional
    sign, decimal digits. *)
Definition atol (s : list ascii) : Z :=
  match atol_skip s with
  | c :: s' =>
      if Ascii.eqb c "-" then - atol_digits 0 s'
      else if Ascii.eqb c "+" then atol_digits 0 s'
      else atol_digits 0 (c :: s')
  | [] => 0
  end.

(** [String::toInt] returns [atol] of the buffer as a [long]; a value that
    does not fit is undefined behaviour. *)
Definition toInt (s : list ascii) : result Z :=
  let v := atol s in
  if (LONG_MIN <=? v) && (v <=? LONG_MAX) then Ok v else Fault LongOverflow.

(** [isNumeric]: only digits and minus signs. *)
Definition isNumeric (str : list ascii) : bool :=
  forallb (fun c => isdigit c || Ascii.eqb c "-") str.

(** The word [nextWord] returns when there is no further word. *)
Definition NULL : list ascii := list_ascii_of_string "NULL".

(** ** The interval timer *)

(** Modelled from the spec: [Timer.h] ([SWTimer], [SWTimer_construct],
    [SWTimer_start], [SWTimer_expired]) is not part of the sources at hand.
    The spec gives a timer the fields duration, deadline and running;
    [start] sets the deadline to the current time plus the duration, and a
    timer is expired iff it was never started or the current time has
    reached its deadline, so that a timer of duration 0 is always expired. *)
Record SWTimer : Type := {
  duration : Z;
  deadline : Z;
  running : bool
}.

Definition SWTimer_construct (d : Z) : SWTimer :=
  {| duration := d; deadline := 0; running := false |}.

Definition SWTimer_start (now : Z) (t : SWTimer) : SWTimer :=
  {| duration := duration t; deadline := now + duration t; running := true |}.

Definition SWTimer_expired (now : Z) (t : SWTimer) : bool :=
  negb (running t) || (deadline t <=? now).

(** ** The potentiometer driver *)

(** Modelled from the spec: the X9C10X driver is an external collaborator
    with [setPosition], [currentPosition] and [currentResistanceOhms]. Its
    position is a [uint8_t] that the driver clamps to the top position 99;
    the resistance it reports is a function [getOhm] of the position, taken
    from the configuration. *)
Record X9C10X : Type := { position : Z }.

Definition setPosition (pos : Z) (p : X9C10X) : X9C10X :=
  let pos8 := to_uint8 pos in
  {| position := if 99 <? pos8 then 99 else pos8 |}.

Definition getPosition (p : X9C10X) : Z := position p.

(** ** Configuration *)

(** Modelled from the spec: the macros that [main.cpp] takes from headers
    that are not part of the sources at hand (the [HAL.h] there defines the
    pins only) are parameters, and so are the two platform facts the code
    depends on: the width of [int] and the resistance the driver reports
    per position. *)
Record Config : Type := {
  CMD_CHAR_LEN : nat;      (* capacity of the line buffer *)
  S_TIMEOUT : Z;           (* inactivity timeout of the line assembler *)
  ADC_SETTLE_TIME : Z;     (* settling interval after a position change *)
  S_DATA_TIMESTEP : Z;     (* cadence of the telemetry reports *)
  MS_IN_SECONDS : Z;
  ECHO_EN : bool;
  int_bits : Z;            (* width of [int]: 16 on AVR, 32 on ARM *)
  getOhm : Z -> Z
}.

(** ** The application state *)

Inductive _appStates : Type := Idle | Executing | Waiting | Linear.

Inductive _parserStates : Type := Spaces | Reading.

(** Modelled from the spec: the declaration of the struct [_Application]
    that [main.cpp] 0.72 uses is not part of the sources at hand (the
    [Application.h] there is an older one with two timers). The fields are
    those [main.cpp] reads and writes; their widths follow the data model of
    the spec: [pot_pos] and [target_pos] are [uint8_t], [steps] is
    [uint32_t], and [ramping_time] holds the [uint64_t] that
    [executeCommand] stores in it. [pot_v] holds the ADC sample the voltage
    is computed from; the floating-point scaling is not modelled. *)
Record Application : Type := {
  watchdog_timer : SWTimer;
  pot_test_timer : SWTimer;
  wait_cmd_timer : SWTimer;
  linear_cmd_timer : SWTimer;
  adc_settling_timer : SWTimer;
  data_step_timer : SWTimer;
  serial_timeout_timer : SWTimer;
  pot_v : Z;
  pot_ohms : Z;
  pot_pos : Z;
  mes_timestamp : Z;
  target_pos : Z;
  ramping_time : Z;
  steps : Z;
  new_value_flag : bool;
  cmd_finished_flag : bool;
  cmd_high_priority : bool;
  command : list ascii;
  appState : _appStates
}.

Definition set_wait_cmd_timer (t : SWTimer) (a : Application) : Application :=
  Build_Application (watchdog_timer a) (pot_test_timer a) t (linear_cmd_timer a)
    (adc_settling_timer a) (data_step_timer a) (serial_timeout_timer a)
    (pot_v a) (pot_ohms a) (pot_pos a) (mes_timestamp a) (target_pos a)
    (ramping_time a) (steps a) (new_value_flag a) (cmd_finished_flag a)
    (cmd_high_priority a) (command a) (appState a).

Definition set_linear_cmd_timer (t : SWTimer) (a : Application) : Application :=
  Build_Application (watchdog_timer a) (pot_test_timer a) (wait_cmd_timer a) t
    (adc_settling_timer a) (data_step_timer a) (serial_timeout_timer a)
    (pot_v a) (pot_ohms a) (pot_pos a) (mes_timestamp a) (target_pos a)
    (ramping_time a) (steps a) (new_value_flag a) (cmd_finished_flag a)
    (cmd_high_priority a) (command a) (appState a).

Definition set_adc_settling_timer (t : SWTimer) (a : Application) : Application :=
  Build_Application (watchdog_timer a) (pot_test_timer a) (wait_cmd_timer a)
    (linear_cmd_timer a) t (data_step_timer a) (serial_timeout_timer a)
    (pot_v a) (pot_ohms a) (pot_pos a) (mes_timestamp a) (target_pos a)
    (ramping_time a) (steps a) (new_value_flag a) (cmd_finished_flag a)
    (cmd_high_priority a) (command a) (appState a).

Definition set_data_step_timer (t : SWTimer) (a : Application) : Application :=
  Build_Application (watchdog_timer a) (pot_test_timer a) (wait_cmd_timer a)
    (linear_cmd_timer a) (adc_settling_timer a) t (serial_timeout_timer a)
    (pot_v a) (pot_ohms a) (pot_pos a) (mes_timestamp a) (target_pos a)
    (ramping_time a) (steps a) (new_value_flag a) (cmd_finished_flag a)
    (cmd_high_priority a) (command a) (appState a).

Definition set_serial_timeout_timer (t : SWTimer) (a : Application) : Application :=
  Build_Application (watchdog_timer a) (pot_test_timer a) (wait_cmd_timer a)
    (linear_cmd_timer a) (adc_settling_timer a) (data_step_timer a) t
    (pot_v a) (pot_ohms a) (pot_pos a) (mes_timestamp a) (target_pos a)
    (ramping_time a) (steps a) (new_value_flag a) (cmd_finished_flag a)
    (cmd_high_priority a) (command a) (appState a).

(** The four fields [pollPot] samples. *)
Definition set_sample (v ohms pos ts : Z) (a : Application) : Application :=
  Build_Application (watchdog_timer a) (pot_test_timer a) (wait_cmd_timer a)
    (linear_cmd_timer a) (adc_settling_timer a) (data_step_timer a)
    (serial_timeout_timer a) v ohms pos ts (target_pos a)
    (ramping_time a) (steps a) (new_value_flag a) (cmd_finished_flag a)
    (cmd_high_priority a) (command a) (appState a).

Definition set_target_pos (v : Z) (a : Application) : Application :=
  Build_Application (watchdog_timer a) (pot_test_timer a) (wait_cmd_timer a)
    (linear_cmd_timer a) (adc_settling_timer a) (data_step_timer a)
    (serial_timeout_timer a) (pot_v a) (pot_ohms a) (pot_pos a)
    (mes_timestamp a) v (ramping_time a) (steps a) (new_value_flag a)
    (cmd_finished_flag a) (cmd_high_priority a) (command a) (appState a).

Definition set_ramping_time (v : Z) (a : Application) : Application :=
  Build_Application (watchdog_timer a) (pot_test_timer a) (wait_cmd_timer a)
    (linear_cmd_timer a) (adc_settling_timer a) (data_step_timer a)
    (serial_timeout_timer a) (pot_v a) (pot_ohms a) (pot_pos a)
    (mes_timestamp a) (target_pos a) v (steps a) (new_value_flag a)
    (cmd_finished_flag a) (cmd_high_priority a) (command a) (appState a).

Definition set_steps (v : Z) (a : Application) : Application :=
  Build_Application (watchdog_timer a) (pot_test_timer a) (wait_cmd_timer a)
    (linear_cmd_timer a) (adc_settling_timer a) (data_step_timer a)
    (serial_timeout_timer a) (pot_v a) (pot_ohms a) (pot_pos a)
    (mes_timestamp a) (target_pos a) (ramping_time a) v (new_value_flag a)
    (cmd_finished_flag a) (cmd_high_priority a) (command a) (appState a).

Definition set_new_value_flag (b : bool) (a : Application) : Application :=
  Build_Application (watchdog_timer a) (pot_test_timer a) (wait_cmd_timer a)
    (linear_cmd_timer a) (adc_settling_timer a) (data_step_timer a)
    (serial_timeout_timer a) (pot_v a) (pot_ohms a) (pot_pos a)
    (mes_timestamp a) (target_pos a) (ramping_time a) (steps a) b
    (cmd_finished_flag a) (cmd_high_priority a) (command a) (appState a).

Definition set_cmd_finished_flag (b : bool) (a : Application) : Application :=
  Build_Application (watchdog_timer a) (pot_test_timer a) (wait_cmd_timer a)
    (linear_cmd_timer a) (adc_settling_timer a) (data_step_timer a)
    (serial_timeout_timer a) (pot_v a) (pot_ohms a) (pot_pos a)
    (mes_timestamp a) (target_pos a) (ramping_time a) (steps a)
    (new_value_flag a) b (cmd_high_priority a) (command a) (appState a).

Definition set_cmd_high_priority (b : bool) (a : Application) : Application :=
  Build_Application (watchdog_timer a) (pot_test_timer a) (wait_cmd_timer a)
    (linear_cmd_timer a) (adc_settling_timer a) (data_step_timer a)
    (serial_timeout_timer a) (pot_v a) (pot_ohms a) (pot_pos a)
    (mes_timestamp a) (target_pos a) (ramping_time a) (steps a)
    (new_value_flag a) (cmd_finished_flag a) b (command a) (appState a).

Definition set_command (c : list ascii) (a : Application) : Application :=
  Build_Application (watchdog_timer a) (pot_test_timer a) (wait_cmd_timer a)
    (linear_cmd_timer a) (adc_settling_timer a) (data_step_timer a)
    (serial_timeout_timer a) (pot_v a) (pot_ohms a) (pot_pos a)
    (mes_timestamp a) (target_pos a) (ramping_time a) (steps a)
    (new_value_flag a) (cmd_finished_flag a) (cmd_high_priority a) c (appState a).

Definition set_watchdog_timer (t : SWTimer) (a : Application) : Application :=
  Build_Application t (pot_test_timer a) (wait_cmd_timer a)
    (linear_cmd_timer a) (adc_settling_timer a) (data_step_timer a)
    (serial_timeout_timer a) (pot_v a) (pot_ohms a) (pot_pos a)
    (mes_timestamp a) (target_pos a) (ramping_time a) (steps a)
    (new_value_flag a) (cmd_finished_flag a) (cmd_high_priority a) (command a)
    (appState a).

Definition set_appState (st : _appStates) (a : Application) : Application :=
  Build_Application (watchdog_timer a) (pot_test_timer a) (wait_cmd_timer a)
    (linear_cmd_timer a) (adc_settling_timer a) (data_step_timer a)
    (serial_timeout_timer a) (pot_v a) (pot_ohms a) (pot_pos a)
    (mes_timestamp a) (target_pos a) (ramping_time a) (steps a)
    (new_value_flag a) (cmd_finished_flag a) (cmd_high_priority a) (command a) st.

(** ** Serial output *)

(** The one-character markers of the protocol; their character values are
    macros of a header that is not at hand. *)
Inductive marker : Type :=
| S_E_CHAR     (* a command has concluded *)
| S_R_CHAR     (* a command was received *)
| S_HP_CHAR.   (* a high-priority command is dispatched *)

Inductive Output : Type :=
| OutChar (m : marker)                 (* [serialPrintChar] *)
| OutData (v pos ohms ts : Z)          (* [serialPrintData] *)
| OutText (text : string)              (* [Serial.println (output_text)] *)
| OutEcho (line : list ascii).         (* [Serial.print (input)] *)

(** ** The system state and the environment of a poll cycle *)

Record Sys : Type := {
  app : Application;
  pot : X9C10X;
  old_pot_pos : Z;          (* static of [Application_loop] *)
  ser_i : nat;              (* static of [checkSerialRX], a [uint8_t] *)
  input : list ascii;       (* static of [checkSerialRX] *)
  cur : nat;                (* static of [nextWord] *)
  serial_out : list Output  (* everything written so far, oldest first *)
}.

Definition set_app (a : Application) (s : Sys) : Sys :=
  Build_Sys a (pot s) (old_pot_pos s) (ser_i s) (input s) (cur s) (serial_out s).

Definition set_pot (p : X9C10X) (s : Sys) : Sys :=
  Build_Sys (app s) p (old_pot_pos s) (ser_i s) (input s) (cur s) (serial_out s).

Definition set_old_pot_pos (v : Z) (s : Sys) : Sys :=
  Build_Sys (app s) (pot s) v (ser_i s) (input s) (cur s) (serial_out s).

Definition set_rx (i : nat) (buf : list ascii) (s : Sys) : Sys :=
  Build_Sys (app s) (pot s) (old_pot_pos s) i buf (cur s) (serial_out s).

Definition set_cur (c : nat) (s : Sys) : Sys :=
  Build_Sys (app s) (pot s) (old_pot_pos s) (ser_i s) (input s) c (serial_out s).

Definition emit (o : Output) (s : Sys) : Sys :=
  Build_Sys (app s) (pot s) (old_pot_pos s) (ser_i s) (input s) (cur s)
    (serial_out s ++ [o]).

(** [f] applied to the application struct. *)
Definition on_app (f : Application -> Application) (s : Sys) : Sys :=
  set_app (f (app s)) s.

(** What one poll cycle reads from outside: the clock ([millis]), the byte
    waiting on the UART if any ([Serial.available], [Serial.read]) and the
    ADC ([analogRead]). *)
Record Env : Type := {
  now : Z;
  rx : option ascii;
  adc : Z
}.

(** ** The tokenizer *)

Definition is_separator (c : ascii) : bool :=
  Ascii.eqb c ASCII_LF || Ascii.eqb c ASCII_SPACE.

(** The [for] loop of [nextWord]: [i] is the loop index and [rest] the
    characters of [input] from [i] on. The result is the returned word and
    the cursor the call leaves behind. *)
Fixpoint nextWord_loop (input : list ascii) (state : _parserStates)
    (cur i : nat) (rest : list ascii) : list ascii * nat :=
  match rest with
  | [] => (NULL, cur)
  | c :: rest' =>
      match state with
      | Spaces =>
          if is_separator c then nextWord_loop input Spaces cur (S i) rest'
          else nextWord_loop input Reading i (S i) rest'
      | Reading =>
          if is_separator c then (substring input cur i, S i)
          else nextWord_loop input Reading cur (S i) rest'
      end
  end.

(** [nextWord (input, reset)] with the static cursor passed in and out. *)
Definition nextWord (input : list ascii) (reset : bool) (cur : nat)
    : list ascii * nat :=
  let cur := if reset then 0%nat else cur in
  if (length input <=? cur)%nat then (NULL, cur)
  else nextWord_loop input Spaces cur cur (drop cur input).

(** [String::equals] *)
Fixpoint equals (a b : list ascii) : bool :=
  match a, b with
  | [], [] => true
  | x :: a', y :: b' => Ascii.eqb x y && equals a' b'
  | _, _ => false
  end.

Section Firmware.

Context (cfg : Config).

Definition to_int (z : Z) : Z := to_signed (int_bits cfg) z.

(** ** Construction and reset *)

Definition Application_construct : Application := {|
  watchdog_timer := SWTimer_construct (MS_IN_SECONDS cfg);
  pot_test_timer := SWTimer_construct 100;
  wait_cmd_timer := SWTimer_construct 0;
  linear_cmd_timer := SWTimer_construct 0;
  adc_settling_timer := SWTimer_construct (ADC_SETTLE_TIME cfg);
  data_step_timer := SWTimer_construct (S_DATA_TIMESTEP cfg);
  serial_timeout_timer := SWTimer_construct (S_TIMEOUT cfg);
  pot_v := 0;
  pot_ohms := 0;
  pot_pos := 0;
  mes_timestamp := 0;
  target_pos := 0;
  ramping_time := 0;
  steps := 0;
  new_value_flag := true;
  cmd_finished_flag := false;
  cmd_high_priority := false;
  command := [];
  appState := Idle
|}.

Definition resetApplication (s : Sys) : Sys :=
  set_app Application_construct (set_pot (setPosition 0 (pot s)) s).

Definition checkPriority (cmd : list ascii) (a : Application) : Application :=
  if Ascii.eqb (nth 0 cmd ASCII_NUL) "q" then set_cmd_high_priority true a else a.

(** ** The command interpreter *)

(** The body of [case 't']: the updated state and [output_text]. The
    [long] that [toInt] returns is narrowed to the [int] [target] and
    widened to the [uint64_t] [time], which maps a negative value to
    2^64 minus its magnitude. *)
Definition command_t (now : Z) (input : list ascii) (c1 : nat) (s : Sys)
    : result (Sys * string) :=
  let '(arg1, c2) := nextWord input false c1 in
  let '(arg2, c3) := nextWord input false c2 in
  let s := set_cur c3 s in
  if isNumeric arg1 then
    v1 ← toInt arg1;
    let target := to_int v1 in
    if (0 <=? target) && (target <? 100) then
      if isNumeric arg2 then
        v2 ← toInt arg2;
        let time := to_uint64 v2 in
        if 0 <? time then
          let a := set_target_pos (to_uint8 target) (app s) in
          let a := set_ramping_time time a in
          let a := set_steps (to_uint32 (Z.abs (to_int (target - pot_pos a)))) a in
          step_time ← udiv (ramping_time a) (steps a);
          let a := set_linear_cmd_timer (SWTimer_construct step_time) a in
          let a := set_linear_cmd_timer (SWTimer_start now (linear_cmd_timer a)) a in
          Ok (set_app a s, "Fail"%string)
        else Ok (s, "  Time out of bounds"%string)
      else if equals arg2 NULL then
        Ok (set_pot (setPosition target (pot s)) s, "Fail"%string)
      else Ok (s, "Fail"%string)
    else Ok (s, "  Throttle out of bounds"%string)
  else Ok (s, "  Bad argument for command 't'"%string).

(** The body of [case 's']. The sum of the position and the argument is a
    [long], taken with two's-complement wrap-around, and is then narrowed
    to the [int] [new_pos]. *)
Definition command_s (input : list ascii) (c1 : nat) (s : Sys)
    : result (Sys * string) :=
  let '(arg1, c2) := nextWord input false c1 in
  let s := set_cur c2 s in
  if isNumeric arg1 then
    v1 ← toInt arg1;
    let new_pos := to_int (to_long (pot_pos (app s) + v1)) in
    if (0 <=? new_pos) && (new_pos <? 100) then
      Ok (set_pot (setPosition new_pos (pot s)) s, "Fail"%string)
    else Ok (s, "  Throttle out of bounds"%string)
  else Ok (s, "  Bad argument for command 's'"%string).

(** The body of [case 'w']. *)
Definition command_w (now : Z) (input : list ascii) (c1 : nat) (s : Sys)
    : result (Sys * string) :=
  let '(arg1, c2) := nextWord input false c1 in
  let s := set_cur c2 s in
  if isNumeric arg1 then
    v1 ← toInt arg1;
    let time := to_int v1 in
    if 0 <? time then
      let a := set_wait_cmd_timer (SWTimer_construct time) (app s) in
      let a := set_wait_cmd_timer (SWTimer_start now (wait_cmd_timer a)) a in
      Ok (set_app a s, "Fail"%string)
    else Ok (s, "  Time out of bounds"%string)
  else Ok (s, "  Bad argument for command 'w'"%string).

(** [executeCommand (app_p, input)] at clock value [now]. *)
Definition executeCommand (now : Z) (input : list ascii) (s : Sys) : result Sys :=
  let input := toLowerCase input in
  let '(word, c1) := nextWord input true (cur s) in
  let s := set_cur c1 s in
  let cmd_type := charAt word 0 in
  '(s, output_text) ←
    (if Ascii.eqb cmd_type "t" then command_t now input c1 s
     else if Ascii.eqb cmd_type "s" then command_s input c1 s
     else if Ascii.eqb cmd_type "w" then command_w now input c1 s
     else if Ascii.eqb cmd_type "r" then
       Ok (on_app (set_new_value_flag true) s, "Fail"%string)
     else if Ascii.eqb cmd_type "q" then
       Ok (resetApplication (on_app (set_cmd_high_priority false) s), "Fail"%string)
     else Ok (s, "  Unknown command type"%string));
  Ok (if String.eqb output_text "Fail" then s else emit (OutText output_text) s).

(** ** The line assembler *)

(** The [String] (or the text printed) made from the [char] buffer: the
    characters before the first NUL. Without a NUL in the buffer the read
    runs past its end. *)
Fixpoint c_str (buf : list ascii) : result (list ascii) :=
  match buf with
  | [] => Fault BufferOverrun
  | c :: buf' =>
      if Ascii.eqb c ASCII_NUL then Ok []
      else (l ← c_str buf'; Ok (c :: l))
  end.

(** [checkSerialRX]: whether a line was completed, and the new state. *)
Definition checkSerialRX (e : Env) (s : Sys) : result (bool * Sys) :=
  '(valid_cmd, s) ←
    match rx e with
    | Some byte =>
        let s := on_app (fun a => set_serial_timeout_timer
                           (SWTimer_start (now e) (serial_timeout_timer a)) a) s in
        let serialChar := if Ascii.eqb byte ASCII_CR then ASCII_LF else byte in
        if (CMD_CHAR_LEN cfg <=? ser_i s)%nat then Fault BufferOverrun
        else
          let s := set_rx (ser_i s) (<[ser_i s := serialChar]> (input s)) s in
          '(valid_cmd, s) ←
            (if Ascii.eqb (nth (ser_i s) (input s) ASCII_NUL) ASCII_LF then
               let s := on_app (checkPriority (input s)) s in
               line ← c_str (input s);
               let s := if ECHO_EN cfg then emit (OutEcho line) s else s in
               Ok (true, on_app (set_command line) s)
             else Ok (false, s));
          Ok (valid_cmd, set_rx (Nat.modulo (ser_i s + 1) 256) (input s) s)
    | None => Ok (false, s)
    end;
  if SWTimer_expired (now e) (serial_timeout_timer (app s))
     || (CMD_CHAR_LEN cfg <=? ser_i s)%nat || valid_cmd
  then Ok (valid_cmd, set_rx 0 (replicate (CMD_CHAR_LEN cfg) ASCII_NUL) s)
  else Ok (valid_cmd, s).

(** ** The state machine *)

Definition pollPot (e : Env) (s : Sys) : Sys :=
  on_app (set_sample (adc e) (getOhm cfg (position (pot s)))
            (getPosition (pot s)) (now e)) s.

Definition primaryFSM (e : Env) (s : Sys) : result Sys :=
  let state := appState (app s) in
  '(cmd_in_queue, s) ← checkSerialRX e s;
  '(s, state) ←
    match state with
    | Idle =>
        if cmd_in_queue : bool then
          s ← executeCommand (now e) (command (app s)) (emit (OutChar S_R_CHAR) s);
          Ok (s, Executing)
        else Ok (s, Idle)
    | Executing =>
        if negb (SWTimer_expired (now e) (wait_cmd_timer (app s))) then Ok (s, Waiting)
        else if negb (steps (app s) =? 0) then Ok (s, Linear)
        else Ok (on_app (set_cmd_finished_flag true) s, Idle)
    | Linear =>
        let s :=
          if SWTimer_expired (now e) (linear_cmd_timer (app s)) then
            let direction := if pot_pos (app s) <? target_pos (app s) then 1 else -1 in
            let s := set_pot (setPosition (pot_pos (app s) + direction) (pot s)) s in
            let s := on_app (fun a => set_steps (to_uint32 (steps a - 1)) a) s in
            on_app (fun a => set_linear_cmd_timer
                      (SWTimer_start (now e) (linear_cmd_timer a)) a) s
          else s in
        if steps (app s) =? 0 then Ok (on_app (set_cmd_finished_flag true) s, Idle)
        else Ok (s, Linear)
    | Waiting =>
        if SWTimer_expired (now e) (wait_cmd_timer (app s)) then
          Ok (on_app (set_cmd_finished_flag true) s, Idle)
        else Ok (s, Waiting)
    end;
  Ok (on_app (set_appState state) s).

Definition serialPrintData (s : Sys) : Sys :=
  emit (OutData (pot_v (app s)) (pot_pos (app s)) (pot_ohms (app s))
          (mes_timestamp (app s))) s.

(** One poll cycle. *)
Definition Application_loop (e : Env) (s : Sys) : result Sys :=
  let s := pollPot e s in
  let s :=
    if negb (pot_pos (app s) =? old_pot_pos s) then
      on_app (fun a => set_new_value_flag true
                (set_adc_settling_timer
                   (SWTimer_start (now e) (adc_settling_timer a)) a)) s
    else s in
  let s :=
    if SWTimer_expired (now e) (adc_settling_timer (app s)) then
      if SWTimer_expired (now e) (data_step_timer (app s)) || new_value_flag (app s) then
        let s := on_app (fun a => set_data_step_timer
                           (SWTimer_start (now e) (data_step_timer a)) a) s in
        let s := serialPrintData s in
        on_app (set_new_value_flag false) s
      else s
    else s in
  let s :=
    if cmd_finished_flag (app s) then
      emit (OutChar S_E_CHAR) (on_app (set_cmd_finished_flag false) s)
    else s in
  s ← primaryFSM e s;
  s ←
    (if cmd_high_priority (app s) then
       executeCommand (now e) (command (app s)) (emit (OutChar S_HP_CHAR) s)
     else Ok s);
  Ok (set_old_pot_pos (to_uint32 (pot_pos (app s))) s).

(** The cycles of a schedule [es], one after the other. *)
Fixpoint run (es : list Env) (s : Sys) : result Sys :=
  match es with
  | [] => Ok s
  | e :: es' => s' ← Application_loop e s; run es' s'
  end.

(** ** The main loop *)

(** The board: the state of the application, the [static bool state] of
    [WatchdogLED] and the levels written to the LED pin, in order. *)
Record Board : Type := {
  sys : Sys;
  led_state : bool;
  led_out : list bool
}.

(** [WatchdogLED (app_p)]: when the watchdog timer has expired the level
    [state] is written to the LED pin, [state] is inverted and the timer is
    started again. *)
Definition WatchdogLED (e : Env) (b : Board) : Board :=
  if SWTimer_expired (now e) (watchdog_timer (app (sys b))) then
    {| sys := on_app (fun a => set_watchdog_timer
                         (SWTimer_start (now e) (watchdog_timer a)) a) (sys b);
       led_state := negb (led_state b);
       led_out := led_out b ++ [led_state b] |}
  else b.

(** [loop ()]: the heartbeat, then one poll cycle of the application. *)
Definition loop (e : Env) (b : Board) : result Board :=
  let b := WatchdogLED e b in
  s ← Application_loop e (sys b);
  Ok {| sys := s; led_state := led_state b; led_out := led_out b |}.

(** The calls of [loop] in the cycles [es], one after the other. *)
Fixpoint run_loop (es : list Env) (b : Board) : result Board :=
  match es with
  | [] => Ok b
  | e :: es' => b' ← loop e b; run_loop es' b'
  end.

End Firmware.

(** ** Vocabulary of the properties *)

(** A word of the tokenizer: characters that are not separators. *)
Definition word_chars (w : list ascii) : Prop :=
  Forall (fun c => is_separator c = false) w.

(** [a] is an argument the interpreter takes as numeric and reads as [v]. *)
Definition numeral (a : list ascii) (v : Z) : Prop :=
  a <> [] /\ isNumeric a = true /\ toInt a = Ok v.

(** The command lines [<letter> <a1>] and [<letter> <a1> <a2>], with their
    line feed. *)
Definition line1 (letter : ascii) (a1 : list ascii) : list ascii :=
  letter :: ASCII_SPACE :: a1 ++ [ASCII_LF].

Definition line2 (letter : ascii) (a1 a2 : list ascii) : list ascii :=
  letter :: ASCII_SPACE :: a1 ++ ASCII_SPACE :: a2 ++ [ASCII_LF].

(** The same lines without their line feed. *)
Definition body1 (letter : ascii) (a1 : list ascii) : list ascii :=
  letter :: ASCII_SPACE :: a1.

Definition body2 (letter : ascii) (a1 a2 : list ascii) : list ascii :=
  letter :: ASCII_SPACE :: a1 ++ ASCII_SPACE :: a2.

(** The line buffer holds [body], the bytes received since it was last
    cleared, and is NUL after them. *)
Definition rx_holds (cfg : Config) (body : list ascii) (s : Sys) : Prop :=
  ser_i s = length body /\
  input s = body ++ replicate (CMD_CHAR_LEN cfg - length body) ASCII_NUL.

(** A byte that ends a line: line feed, or carriage return. *)
Definition terminator (c : ascii) : bool :=
  Ascii.eqb c ASCII_LF || Ascii.eqb c ASCII_CR.

Definition is_end (o : Output) : bool :=
  match o with
  | OutChar S_E_CHAR => true
  | _ => false
  end.

(** The number of end-of-command markers in a trace. *)
Fixpoint count_end (out : list Output) : nat :=
  match out with
  | [] => 0%nat
  | o :: out' => ((if is_end o then 1 else 0) + count_end out')%nat
  end.

(** [n] calls of [nextWord] without reset, one after the other: the words
    returned and the final cursor. *)
Fixpoint nextWord_iter (input : list ascii) (n : nat) (cur : nat)
    : list (list ascii) * nat :=
  match n with
  | O => ([], cur)
  | S n' =>
      let '(w, cur') := nextWord input false cur in
      let '(ws, cur'') := nextWord_iter input n' cur' in
      (w :: ws, cur'')
  end.

(** A cycle in which no byte waits on the UART. *)
Definition quiet (e : Env) : Prop := rx e = None.

(** The same cycle without its serial byte. *)
Definition without_rx (e : Env) : Env :=
  {| now := now e; rx := None; adc := adc e |}.

(** No NUL character in [l]. *)
Definition nul_free (l : list ascii) : Prop :=
  Forall (fun c => Ascii.eqb c ASCII_NUL = false) l.

(** The application struct after a received byte restarted the inactivity
    timer of the line assembler. *)
Definition rx_started (e : Env) (a : Application) : Application :=
  set_serial_timeout_timer (SWTimer_start (now e) (serial_timeout_timer a)) a.

(** What an accepted ramp command [t <target> <d>] writes into the
    application struct at clock value [now]. *)
Definition ramp_armed (now target d : Z) (a : Application) : Application :=
  set_linear_cmd_timer
    (SWTimer_start now (SWTimer_construct (d / Z.abs (target - pot_pos a))))
    (set_steps (Z.abs (target - pot_pos a))
       (set_ramping_time d (set_target_pos target a))).

(** The first part of [Application_loop], up to the call of [primaryFSM]:
    the poll of the potentiometer, the telemetry report and the
    end-of-command marker. *)
Definition report_phase (cfg : Config) (e : Env) (s : Sys) : Sys :=
  let s := pollPot cfg e s in
  let s :=
    if negb (pot_pos (app s) =? old_pot_pos s) then
      on_app (fun a => set_new_value_flag true
                (set_adc_settling_timer
                   (SWTimer_start (now e) (adc_settling_timer a)) a)) s
    else s in
  let s :=
    if SWTimer_expired (now e) (adc_settling_timer (app s)) then
      if SWTimer_expired (now e) (data_step_timer (app s)) || new_value_flag (app s) then
        let s := on_app (fun a => set_data_step_timer
                           (SWTimer_start (now e) (data_step_timer a)) a) s in
        let s := serialPrintData s in
        on_app (set_new_value_flag false) s
      else s
    else s in
  if cmd_finished_flag (app s) then
    emit (OutChar S_E_CHAR) (on_app (set_cmd_finished_flag false) s)
  else s.

(** The last part of [Application_loop], after [primaryFSM]. *)
Definition priority_phase (cfg : Config) (e : Env) (s : Sys) : result Sys :=
  s ←
    (if cmd_high_priority (app s) then
       executeCommand cfg (now e) (command (app s)) (emit (OutChar S_HP_CHAR) s)
     else Ok s);
  Ok (set_old_pot_pos (to_uint32 (pot_pos (app s))) s).

(** *** The controller seen from outside

    The part of the state that sequences a command: the state of the
    machine, the ramp and wait bookkeeping, the position of the
    potentiometer and the number of end-of-command markers written. *)
Record Control : Type := {
  c_state : _appStates;
  c_steps : Z;
  c_target : Z;
  c_wait : SWTimer;
  c_linear : SWTimer;
  c_finished : bool;
  c_position : Z;
  c_ends : nat
}.

Definition control (s : Sys) : Control := {|
  c_state := appState (app s);
  c_steps := steps (app s);
  c_target := target_pos (app s);
  c_wait := wait_cmd_timer (app s);
  c_linear := linear_cmd_timer (app s);
  c_finished := cmd_finished_flag (app s);
  c_position := position (pot s);
  c_ends := count_end (serial_out s)
|}.

(** The marker is written and the flag cleared. *)
Definition consume_finished (c : Control) : Control :=
  if c_finished c then
    Build_Control (c_state c) (c_steps c) (c_target c) (c_wait c) (c_linear c)
      false (c_position c) (S (c_ends c))
  else c.

Definition finish (c : Control) : Control :=
  Build_Control Idle (c_steps c) (c_target c) (c_wait c) (c_linear c)
    true (c_position c) (c_ends c).

Definition enter (st : _appStates) (c : Control) : Control :=
  Build_Control st (c_steps c) (c_target c) (c_wait c) (c_linear c)
    (c_finished c) (c_position c) (c_ends c).

(** One step of a ramp: the potentiometer moves by one towards the target,
    one step less remains, the per-step timer starts again. *)
Definition ramp_step (t : Z) (c : Control) : Control :=
  let direction := if c_position c <? c_target c then 1 else -1 in
  Build_Control (c_state c) (to_uint32 (c_steps c - 1)) (c_target c) (c_wait c)
    (SWTimer_start t (c_linear c)) (c_finished c)
    (position (setPosition (c_position c + direction) {| position := c_position c |}))
    (c_ends c).

(** What [primaryFSM] does to the controller at clock value [t] in a cycle
    that dispatches no command. *)
Definition fsm_step (t : Z) (c : Control) : Control :=
  match c_state c with
  | Idle => c
  | Executing =>
      if negb (SWTimer_expired t (c_wait c)) then enter Waiting c
      else if negb (c_steps c =? 0) then enter Linear c
      else finish c
  | Linear =>
      let c := if SWTimer_expired t (c_linear c) then ramp_step t c else c in
      if c_steps c =? 0 then finish c else c
  | Waiting =>
      if SWTimer_expired t (c_wait c) then finish c else c
  end.

(** What a whole poll cycle that dispatches no command does to it. *)
Definition cycle_step (t : Z) (c : Control) : Control :=
  fsm_step t (consume_finished c).

(** The cycles at the clock values [ts], one after the other. *)
Definition cycle_steps (ts : list Z) (c : Control) : Control :=
  fold_left (fun c t => cycle_step t c) ts c.

(** The cycles [i], [i + 1], ..., [i + n - 1] of a schedule. *)
Definition cycles (sched : nat -> Env) (i n : nat) : list Env :=
  map sched (seq i n).

(** The clock of a schedule never runs backwards, and passes every value. *)
Definition clock_advances (sched : nat -> Env) : Prop :=
  (forall i j, (i <= j)%nat -> now (sched i) <= now (sched j)) /\
  (forall T, exists i, T <= now (sched i)).

(** What [report_phase] leaves alone: it drives the controller by
    [consume_finished] and stores the polled position. *)
Record report_frame (s s1 : Sys) : Prop := {
  rf_pot : pot s1 = pot s;
  rf_pot_pos : pot_pos (app s1) = position (pot s);
  rf_hp : cmd_high_priority (app s1) = cmd_high_priority (app s);
  rf_command : command (app s1) = command (app s);
  rf_timeout : serial_timeout_timer (app s1) = serial_timeout_timer (app s);
  rf_ser_i : ser_i s1 = ser_i s;
  rf_input : input s1 = input s;
  rf_cur : cur s1 = cur s;
  rf_control : control s1 = consume_finished (control s)
}.

(** What [checkSerialRX] leaves alone. *)
Record rx_frame (s s1 : Sys) : Prop := {
  xf_control : control s1 = control s;
  xf_pot : pot s1 = pot s;
  xf_pot_pos : pot_pos (app s1) = pot_pos (app s);
  xf_cur : cur s1 = cur s;
  xf_old : old_pot_pos s1 = old_pot_pos s
}.

(** The controller is on course to [target]: the steps that remain are the
    distance of the potentiometer from the target. *)
Definition on_course (target : Z) (c : Control) : Prop :=
  c_target c = target /\ 0 <= target <= 99 /\ 0 <= c_position c <= 99 /\
  c_steps c = Z.abs (target - c_position c).

(** The phases of a ramp command after its dispatch; [ends] is the number
    of end-of-command markers written before it, [t0] the time of the
    dispatch. *)
Inductive ramp_phase (ends : nat) (t0 : Z) (c : Control) : Prop :=
| phase_armed :
    c_state c = Executing -> c_finished c = false -> c_steps c <> 0 ->
    SWTimer_expired t0 (c_wait c) = true -> c_ends c = ends ->
    ramp_phase ends t0 c
| phase_moving :
    c_state c = Linear -> c_finished c = false -> c_steps c <> 0 ->
    c_ends c = ends -> ramp_phase ends t0 c
| phase_pending :
    c_state c = Idle -> c_finished c = true -> c_steps c = 0 ->
    c_ends c = ends -> ramp_phase ends t0 c
| phase_finished :
    c_state c = Idle -> c_finished c = false -> c_steps c = 0 ->
    c_ends c = S ends -> ramp_phase ends t0 c.

(** The clock values of the cycles [i], ..., [i + n - 1]. *)
Definition times (sched : nat -> Env) (i n : nat) : list Z :=
  map now (cycles sched i n).

(** The calls of [checkSerialRX] in the cycles [es], one after the other:
    whether each of them completed a line, and the state they leave. *)
Fixpoint assemble (cfg : Config) (es : list Env) (s : Sys)
    : result (list bool * Sys) :=
  match es with
  | [] => Ok ([], s)
  | e :: es' =>
      '(b, s1) ← checkSerialRX cfg e s;
      '(bs, s2) ← assemble cfg es' s1;
      Ok (b :: bs, s2)
  end.

(** The cycles [es] receive the bytes [bytes], one byte each. *)
Definition carries (bytes : list ascii) (es : list Env) : Prop :=
  map rx es = map Some bytes.

(** No ramp is pending, the potentiometer stands at [target] and the wait
    timer has expired by [t0]: the machine can only finish. *)
Definition settled (target t0 : Z) (c : Control) : Prop :=
  c_steps c = 0 /\ c_position c = target /\
  SWTimer_expired t0 (c_wait c) = true /\
  (c_state c = Executing \/ c_state c = Idle).

(** *** A concrete configuration and schedule, for evaluation *)

(** Values for the macros whose header is not at hand. *)
Definition demo_cfg : Config := {|
  CMD_CHAR_LEN := 32;
  S_TIMEOUT := 100;
  ADC_SETTLE_TIME := 10;
  S_DATA_TIMESTEP := 100;
  MS_IN_SECONDS := 1000;
  ECHO_EN := false;
  int_bits := 16;
  getOhm := fun pos => (100000 * pos + 49) / 99
|}.

(** The state [setup] leaves: the struct constructed, the potentiometer at
    position 0, the statics zero, the startup message and the first marker
    written. *)
Definition setup (cfg : Config) : Sys := {|
  app := Application_construct cfg;
  pot := {| position := 0 |};
  old_pot_pos := 0;
  ser_i := 0;
  input := replicate (CMD_CHAR_LEN cfg) ASCII_NUL;
  cur := 0;
  serial_out := [OutText "Throttle Mapper Ver. 0.72"; OutChar S_E_CHAR]
|}.

(** The board after [setup]: nothing written to the LED pin, the level to
    write next is HIGH. *)
Definition power_on (cfg : Config) : Board :=
  {| sys := setup cfg; led_state := true; led_out := [] |}.

(** One cycle per millisecond from [t0], each with one byte of [bytes]. *)
Fixpoint feed (t0 : Z) (bytes : list ascii) : list Env :=
  match bytes with
  | [] => []
  | b :: bytes' => {| now := t0; rx := Some b; adc := 0 |} :: feed (t0 + 1) bytes'
  end.

(** [n] cycles without input, [dt] milliseconds apart, from [t0]. *)
Fixpoint rest_cycles (t0 dt : Z) (n : nat) : list Env :=
  match n with
  | O => []
  | S n' => {| now := t0; rx := None; adc := 0 |} :: rest_cycles (t0 + dt) dt n'
  end.

(** A text line with its line feed. *)
Definition text_line (s : string) : list ascii :=
  list_ascii_of_string s ++ [ASCII_LF].

(** A schedule: the byte [c] in cycle 0, then no input, 10 ms per cycle. *)
Definition demo_sched (c : ascii) (i : nat) : Env :=
  {| now := 10 * Z.of_nat i;
     rx := match i with O => Some c | S _ => None end;
     adc := 0 |}.

(** [s] with the bytes [body] waiting in the line buffer. *)
Definition with_rx (cfg : Config) (body : list ascii) (s : Sys) : Sys :=
  set_rx (length body)
    (body ++ replicate (CMD_CHAR_LEN cfg - length body) ASCII_NUL) s.


(** What a run is observed to end in: the state of the machine, the
    position of the potentiometer, [target_pos], [steps], and the texts
    written (markers and reports left out). *)
Definition texts (out : list Output) : list string :=
  flat_map (fun o => match o with OutText t => [t] | _ => [] end) out.

Definition observe (r : result Sys)
    : result (_appStates * Z * Z * Z * list string) :=
  s ← r;
  Ok (appState (app s), position (pot s), target_pos (app s), steps (app s),
      texts (serial_out s)).

(** The same in short, with the priority flag: the state of the machine,
    the position of the potentiometer, [steps] and [cmd_high_priority]. *)
Definition outcome (r : result Sys) : result (_appStates * Z * Z * bool) :=
  s ← r;
  Ok (appState (app s), position (pot s), steps (app s),
      cmd_high_priority (app s)).


(** The characters of a text. *)
Definition chars (s : string) : list ascii := list_ascii_of_string s.

(** The state after start-up with the text [body] received and its
    terminator still to come. *)
Definition demo_pending (body : string) : Sys :=
  with_rx demo_cfg (chars body) (setup demo_cfg).

(** A state in the middle of a ramp: [t 50 1000] was received after
    start-up and five cycles have passed. *)
Definition demo_ramping : Sys :=
  match run demo_cfg (feed 0 (text_line "t 50 1000") ++ rest_cycles 20 10 5)
          (setup demo_cfg) with
  | Ok s => s
  | Fault _ => setup demo_cfg
  end.

(** A cycle at clock value [t] that receives a line feed. *)
Definition demo_lf (t : Z) : Env := {| now := t; rx := Some ASCII_LF; adc := 0 |}.


(** *** Vocabulary of the further properties *)

(** The words [ws] written on one line: a space between two words, a line
    feed after the last. *)
Fixpoint unwords (ws : list (list ascii)) : list ascii :=
  match ws with
  | [] => [ASCII_LF]
  | [w] => w ++ [ASCII_LF]
  | w :: ws' => w ++ ASCII_SPACE :: unwords ws'
  end.

(** Only separators. *)
Definition separators (l : list ascii) : Prop :=
  Forall (fun c => is_separator c = true) l.

(** Only decimal digits. *)
Definition digits (l : list ascii) : Prop :=
  Forall (fun c => isdigit c = true) l.


(** The number of data reports in a trace. *)
Fixpoint count_data (out : list Output) : nat :=
  match out with
  | [] => 0%nat
  | OutData _ _ _ _ :: out' => S (count_data out')
  | _ :: out' => count_data out'
  end.

(** The number of high-priority markers in a trace. *)
Fixpoint count_hp (out : list Output) : nat :=
  match out with
  | [] => 0%nat
  | OutChar S_HP_CHAR :: out' => S (count_hp out')
  | _ :: out' => count_hp out'
  end.

(** Neither a data report nor an end-of-command marker. *)
Definition is_plain (o : Output) : bool :=
  match o with
  | OutData _ _ _ _ => false
  | OutChar S_E_CHAR => false
  | _ => true
  end.

(** The trace [out'] is [out] followed by outputs that are neither data
    reports nor end-of-command markers. *)
Definition extends_plainly (out out' : list Output) : Prop :=
  exists more, out' = out ++ more /\ forallb is_plain more = true.

(** Whether the cycle [e] from the state [s] writes a data report: the
    settling interval is over (it starts again when the position differs
    from that of the last cycle) and the cadence timer has expired or a new
    value is flagged. *)
Definition report_due (e : Env) (s : Sys) : bool :=
  let moved := negb (position (pot s) =? old_pot_pos s) in
  let settling :=
    if moved then SWTimer_start (now e) (adc_settling_timer (app s))
    else adc_settling_timer (app s) in
  SWTimer_expired (now e) settling &&
  (SWTimer_expired (now e) (data_step_timer (app s))
   || moved || new_value_flag (app s)).

(** The report of the cycle [e] from the state [s]. *)
Definition report_of (cfg : Config) (e : Env) (s : Sys) : Output :=
  OutData (adc e) (position (pot s)) (getOhm cfg (position (pot s))) (now e).


(** The write index is inside the line buffer, and the buffer is NUL from
    it on. *)
Definition rx_wf (cfg : Config) (s : Sys) : Prop :=
  exists body, rx_holds cfg body s /\ (length body < CMD_CHAR_LEN cfg)%nat.


(** What an accepted wait command [w <d>] writes into the application
    struct at clock value [now]. *)
Definition wait_armed (now d : Z) (a : Application) : Application :=
  set_wait_cmd_timer (SWTimer_start now (SWTimer_construct d)) a.

(** The rejection of a first argument that is missing or not numeric. *)
Definition bad_argument (letter : ascii) : string :=
  String.append "  Bad argument for command '" (String letter "'").


(** The phases of a wait command after its dispatch; [ends] is the number
    of end-of-command markers written before it, [T] the clock value at
    which the wait is over, [t] the clock value of the last cycle. *)
Inductive wait_phase (ends : nat) (T t : Z) (c : Control) : Prop :=
| wphase_armed :
    c_state c = Executing -> c_finished c = false ->
    running (c_wait c) = true -> deadline (c_wait c) = T -> c_ends c = ends ->
    wait_phase ends T t c
| wphase_waiting :
    c_state c = Waiting -> c_finished c = false ->
    running (c_wait c) = true -> deadline (c_wait c) = T -> c_ends c = ends ->
    wait_phase ends T t c
| wphase_pending :
    c_state c = Idle -> c_finished c = true -> T <= t -> c_ends c = ends ->
    wait_phase ends T t c
| wphase_finished :
    c_state c = Idle -> c_finished c = false -> T <= t -> c_ends c = S ends ->
    wait_phase ends T t c.


(** The pace of a ramp that started at clock value [t0] from the position
    [p0] with the step time [q]; [t] is the clock value of the last cycle.
    The step timer runs with the duration [q], the potentiometer stands
    between [p0] and the target, and every step it has taken has had its
    step time. *)
Definition paced (p0 q t0 t : Z) (c : Control) : Prop :=
  running (c_linear c) = true /\ duration (c_linear c) = q /\
  t0 + (Z.abs (c_position c - p0) + 1) * q <= deadline (c_linear c) /\
  Z.abs (c_position c - p0) * q <= t - t0 /\
  Z.abs (c_position c - p0) + Z.abs (c_target c - c_position c)
  = Z.abs (c_target c - p0).


(** The levels HIGH, LOW, HIGH, ... of [n] writes to the LED pin. *)
Definition blink (n : nat) : list bool := map Nat.even (seq 0 n).


(** The value a computation returned, [d] if it faulted. *)
Definition returned {A : Type} (d : A) (r : result A) : A :=
  match r with
  | Ok a => a
  | Fault _ => d
  end.

(** A cycle at clock value [t] without input. *)
Definition demo_idle (t : Z) : Env := {| now := t; rx := None; adc := 0 |}.


(** * Properties *)

(** ** The error monad *)

Lemma bind_Ok {A B} (f : A -> result B) (a : A) : (Ok a ≫= f) = f a.
Proof. reflexivity. Qed.

(** ** Machine integers *)

Lemma to_signed_small (bits z : Z) :
  16 <= bits -> - 2 ^ 15 <= z < 2 ^ 15 -> to_signed bits z = z.
Proof.
  intros Hb Hz. unfold to_signed.
  assert (2 ^ 15 <= 2 ^ (bits - 1)) by (apply Z.pow_le_mono_r; lia).
  assert (2 ^ bits = 2 * 2 ^ (bits - 1)) as ->.
  { rewrite <- Z.pow_succ_r by lia. f_equal. lia. }
  rewrite Z.mod_small; lia.
Qed.

Lemma to_long_small (z : Z) : LONG_MIN <= z <= LONG_MAX -> to_long z = z.
Proof.
  unfold to_long, to_signed, LONG_MIN, LONG_MAX. intros Hz.
  rewrite Z.mod_small; lia.
Qed.

(** ** The tokenizer *)

Lemma substring_app (pre w post : list ascii) :
  substring (pre ++ w ++ post) (length pre) (length pre + length w) = w.
Proof.
  unfold substring.
  destruct (Nat.ltb_spec (length pre + length w) (length pre)); [lia|].
  rewrite drop_app_length.
  replace (length pre + length w - length pre)%nat with (length w) by lia.
  by rewrite take_app_length.
Qed.

Lemma nextWord_loop_reading input cur i w sep post :
  word_chars w -> is_separator sep = true ->
  nextWord_loop input Reading cur i (w ++ sep :: post)
  = (substring input cur (i + length w), S (i + length w)).
Proof.
  intros Hw Hsep. revert i. induction Hw as [|c w Hc Hw IH]; intros i; simpl.
  - rewrite Hsep. by rewrite Nat.add_0_r.
  - rewrite Hc, IH. do 2 f_equal; lia.
Qed.

(** From a cursor that stands on a word which a separator follows,
    [nextWord] returns the word and leaves the cursor after the separator. *)
Lemma nextWord_word pre c w sep post :
  word_chars (c :: w) -> is_separator sep = true ->
  nextWord (pre ++ (c :: w) ++ sep :: post) false (length pre)
  = (c :: w, S (length pre + S (length w))).
Proof.
  intros Hw Hsep. unfold nextWord.
  destruct (Nat.leb_spec (length (pre ++ (c :: w) ++ sep :: post)) (length pre)) as [Hl|_].
  { rewrite length_app in Hl. simpl in Hl. lia. }
  rewrite drop_app_length. simpl.
  inversion Hw as [|? ? Hc Hw']; subst. rewrite Hc.
  rewrite nextWord_loop_reading by done.
  f_equal; [|lia].
  replace (S (length pre) + length w)%nat with (length pre + length (c :: w))%nat
    by (simpl; lia).
  apply (substring_app pre (c :: w) (sep :: post)).
Qed.

Lemma nextWord_reset input cur : nextWord input true cur = nextWord input false 0.
Proof. reflexivity. Qed.

Lemma nextWord_exhausted input cur :
  (length input <= cur)%nat -> nextWord input false cur = (NULL, cur).
Proof.
  intros H. unfold nextWord. by destruct (Nat.leb_spec (length input) cur); [|lia].
Qed.

(** C8. Once the cursor has reached or passed the end of the line, every
    further call of [nextWord] without reset returns the word NULL and
    leaves the cursor where it is, however many calls follow; the next call
    with reset starts again from the beginning of the line. *)
Theorem nextWord_exhausted_forever (input : list ascii) (cur n : nat) :
  (length input <= cur)%nat ->
  nextWord input false cur = (NULL, cur) /\
  nextWord_iter input n cur = (replicate n NULL, cur) /\
  nextWord input true cur = nextWord input false 0.
Proof.
  intros H. split; [by apply nextWord_exhausted|]. split; [|reflexivity].
  induction n as [|n IH]; [reflexivity|].
  simpl. rewrite nextWord_exhausted by done. by rewrite IH.
Qed.

#[local] Arguments Nat.modulo : simpl never.
#[local] Arguments Nat.div : simpl never.

Section Properties.

Context (cfg : Config).

(** ** The line assembler *)

Lemma c_str_app body k :
  nul_free body -> c_str (body ++ replicate (S k) ASCII_NUL) = Ok body.
Proof.
  induction 1 as [|c body Hc Hb IH]; simpl in *; [done|].
  by rewrite Hc, IH.
Qed.

Lemma insert_rx_buffer (body : list ascii) (c : ascii) k :
  <[length body := c]> (body ++ replicate (S k) ASCII_NUL)
  = (body ++ [c]) ++ replicate k ASCII_NUL.
Proof.
  rewrite insert_app_r_alt by lia. rewrite Nat.sub_diag. simpl.
  by rewrite <- app_assoc.
Qed.

Lemma nth_middle_app (body : list ascii) c post :
  nth (length body) (body ++ c :: post) ASCII_NUL = c.
Proof. induction body; simpl; auto. Qed.

Lemma SWTimer_started_running now t :
  0 < duration t -> SWTimer_expired now (SWTimer_start now t) = false.
Proof. intros H. unfold SWTimer_expired, SWTimer_start. simpl. lia. Qed.

Lemma checkSerialRX_quiet e s :
  quiet e ->
  exists s', checkSerialRX cfg e s = Ok (false, s') /\
    app s' = app s /\ pot s' = pot s /\ old_pot_pos s' = old_pot_pos s /\
    cur s' = cur s /\ serial_out s' = serial_out s.
Proof.
  intros Hq. unfold checkSerialRX. rewrite Hq. simpl.
  destruct (_ || _ || _); eexists; (split; [reflexivity|]); done.
Qed.

Lemma checkSerialRX_byte e s body c :
  rx e = Some c -> terminator c = false ->
  rx_holds cfg body s ->
  (length body < CMD_CHAR_LEN cfg)%nat -> (CMD_CHAR_LEN cfg <= 255)%nat ->
  0 < duration (serial_timeout_timer (app s)) ->
  exists s', checkSerialRX cfg e s = Ok (false, s') /\
    app s' = rx_started e (app s) /\
    pot s' = pot s /\ old_pot_pos s' = old_pot_pos s /\ cur s' = cur s /\
    serial_out s' = serial_out s /\
    rx_holds cfg (if (S (length body) <? CMD_CHAR_LEN cfg)%nat then body ++ [c] else []) s'.
Proof.
  intros Hrx Hc [Hi Hbuf] Hlen Hcap Hdur.
  unfold checkSerialRX. rewrite Hrx. simpl.
  unfold terminator in Hc. apply orb_false_elim in Hc as [Hlf Hcr].
  rewrite Hcr, Hi.
  destruct (Nat.leb_spec (CMD_CHAR_LEN cfg) (length body)); [lia|].
  simpl. rewrite Hbuf.
  replace (CMD_CHAR_LEN cfg - length body)%nat
    with (S (CMD_CHAR_LEN cfg - S (length body))) by lia.
  rewrite insert_rx_buffer. rewrite <- app_assoc. simpl.
  rewrite nth_middle_app, Hlf. simpl.
  rewrite SWTimer_started_running by done. simpl.
  rewrite Nat.mod_small by lia.
  rewrite orb_false_r.
  replace (length body + 1)%nat with (S (length body)) by lia.
  destruct (Nat.leb_spec (CMD_CHAR_LEN cfg) (S (length body))) as [Hfull|Hroom];
    (eexists; split; [reflexivity|]); simpl; (repeat (split; [done|]));
    unfold rx_holds; simpl.
  - destruct (Nat.ltb_spec (S (length body)) (CMD_CHAR_LEN cfg)); [lia|].
    simpl. by rewrite Nat.sub_0_r.
  - destruct (Nat.ltb_spec (S (length body)) (CMD_CHAR_LEN cfg)); [|lia].
    rewrite length_app, <- app_assoc. simpl. split; [lia|]. do 3 f_equal. lia.
Qed.

(** ** The command interpreter *)

Lemma numeric_char c :
  isdigit c || Ascii.eqb c "-" = true ->
  is_separator c = false /\ tolower c = c /\ Ascii.eqb c ASCII_NUL = false.
Proof.
  destruct c as [[] [] [] [] [] [] [] []]; vm_compute; intros; done.
Qed.

Lemma isNumeric_word a : isNumeric a = true -> word_chars a.
Proof.
  unfold isNumeric, word_chars. induction a as [|c a IH]; simpl; [constructor|].
  intros [Hc Ha]%andb_true_iff. constructor; [apply numeric_char, Hc | auto].
Qed.

Lemma isNumeric_nul_free a : isNumeric a = true -> nul_free a.
Proof.
  unfold isNumeric, nul_free. induction a as [|c a IH]; simpl; [constructor|].
  intros [Hc Ha]%andb_true_iff. constructor; [apply numeric_char, Hc | auto].
Qed.

Lemma isNumeric_lower a : isNumeric a = true -> toLowerCase a = a.
Proof.
  unfold isNumeric, toLowerCase. induction a as [|c a IH]; simpl; [done|].
  intros [Hc Ha]%andb_true_iff. f_equal; [apply numeric_char, Hc | auto].
Qed.

Lemma toLowerCase_line1 l a1 :
  toLowerCase (line1 l a1) = line1 (tolower l) (toLowerCase a1).
Proof. unfold line1, toLowerCase. simpl. by rewrite map_app. Qed.

Lemma toLowerCase_line2 l a1 a2 :
  toLowerCase (line2 l a1 a2) = line2 (tolower l) (toLowerCase a1) (toLowerCase a2).
Proof. unfold line2, toLowerCase. simpl. rewrite map_app. simpl. by rewrite map_app. Qed.

Lemma nextWord_letter l post :
  is_separator l = false ->
  nextWord (l :: ASCII_SPACE :: post) false 0 = ([l], 2%nat).
Proof.
  intros Hl. apply (nextWord_word [] l [] ASCII_SPACE post); [|done].
  constructor; [done|constructor].
Qed.

Lemma nextWord_arg1 l a sep post :
  a <> [] -> word_chars a -> is_separator sep = true ->
  nextWord (l :: ASCII_SPACE :: a ++ sep :: post) false 2
  = (a, (3 + length a)%nat).
Proof.
  intros Ha Hw Hsep. destruct a as [|c w]; [done|].
  apply (nextWord_word [l; ASCII_SPACE] c w sep post); done.
Qed.

Lemma nextWord_arg2 l a1 a2 sep post :
  a2 <> [] -> word_chars a2 -> is_separator sep = true ->
  nextWord (l :: ASCII_SPACE :: a1 ++ ASCII_SPACE :: a2 ++ sep :: post) false
    (3 + length a1)
  = (a2, (4 + length a1 + length a2)%nat).
Proof.
  intros Ha Hw Hsep. destruct a2 as [|c w]; [done|].
  pose proof (nextWord_word (l :: ASCII_SPACE :: a1 ++ [ASCII_SPACE]) c w sep post Hw Hsep) as H.
  simpl in H. rewrite <- app_assoc in H. simpl in H.
  rewrite length_app in H. simpl in H.
  replace (S (S (length a1 + 1))) with (3 + length a1)%nat in H by lia.
  simpl. simpl in H. rewrite H. f_equal. lia.
Qed.



Lemma to_uint8_small z : 0 <= z < 256 -> to_uint8 z = z.
Proof. intros. unfold to_uint8. apply Z.mod_small. lia. Qed.
Lemma to_uint32_small z : 0 <= z < 2 ^ 32 -> to_uint32 z = z.
Proof. intros. unfold to_uint32. apply Z.mod_small. lia. Qed.
Lemma to_uint64_small z : 0 <= z < 2 ^ 64 -> to_uint64 z = z.
Proof. intros. unfold to_uint64. apply Z.mod_small. lia. Qed.
Lemma to_int_small z : 16 <= int_bits cfg -> - 2 ^ 15 <= z < 2 ^ 15 -> to_int cfg z = z.
Proof. apply to_signed_small. Qed.

Lemma toInt_range a v : toInt a = Ok v -> LONG_MIN <= v <= LONG_MAX.
Proof.
  unfold toInt. destruct (_ && _) eqn:E; [|done]. intros [= <-].
  apply andb_true_iff in E. lia.
Qed.

Lemma executeCommand_t_ramp now s l a1 a2 target d :
  tolower l = "t"%char -> numeral a1 target -> numeral a2 d ->
  16 <= int_bits cfg -> 0 <= target < 100 -> 0 < d ->
  0 <= pot_pos (app s) <= 255 -> target <> pot_pos (app s) ->
  executeCommand cfg now (line2 l a1 a2) s
  = Ok (set_cur (4 + length a1 + length a2) (on_app (ramp_armed now target d) s)).
Proof.
  intros Hl (Hne1 & Hn1 & Hv1) (Hne2 & Hn2 & Hv2) Hbits Ht Hd Hp Hneq.
  pose proof (toInt_range _ _ Hv2) as Hr2. unfold LONG_MIN, LONG_MAX in Hr2.
  unfold executeCommand.
  rewrite toLowerCase_line2, Hl, !isNumeric_lower by done.
  rewrite nextWord_reset. unfold line2.
  rewrite nextWord_letter by done.
  cbn [charAt nth]. cbn [Ascii.eqb Bool.eqb].
  unfold command_t.
  rewrite nextWord_arg1 by (by auto using isNumeric_word).
  rewrite nextWord_arg2 by (by auto using isNumeric_word).
  rewrite Hn1, Hv1, bind_Ok, Hn2, Hv2, bind_Ok.
  rewrite (to_int_small target) by lia.
  destruct (Z.leb_spec 0 target); [|lia].
  destruct (Z.ltb_spec target 100); [|lia].
  rewrite to_uint64_small by lia.
  destruct (Z.ltb_spec 0 d); [|lia].
  cbn [andb]. rewrite to_uint8_small by lia. 
  cbn -[Z.abs Z.div Z.sub to_uint32 to_int].
  rewrite to_int_small by lia. rewrite to_uint32_small by lia.
  unfold udiv. destruct (Z.eqb_spec (Z.abs (target - pot_pos (app s))) 0); [lia|].
  reflexivity.
Qed.

(** A ramp to the position the potentiometer already has divides by zero. *)
Lemma executeCommand_t_div0 now s l a1 a2 target d :
  tolower l = "t"%char -> numeral a1 target -> numeral a2 d ->
  16 <= int_bits cfg -> 0 <= target < 100 -> 0 < d ->
  target = pot_pos (app s) ->
  executeCommand cfg now (line2 l a1 a2) s = Fault DivByZero.
Proof.
  intros Hl (Hne1 & Hn1 & Hv1) (Hne2 & Hn2 & Hv2) Hbits Ht Hd Heq.
  pose proof (toInt_range _ _ Hv2) as Hr2. unfold LONG_MIN, LONG_MAX in Hr2.
  unfold executeCommand.
  rewrite toLowerCase_line2, Hl, !isNumeric_lower by done.
  rewrite nextWord_reset. unfold line2.
  rewrite nextWord_letter by done.
  cbn [charAt nth]. cbn [Ascii.eqb Bool.eqb].
  unfold command_t.
  rewrite nextWord_arg1 by (by auto using isNumeric_word).
  rewrite nextWord_arg2 by (by auto using isNumeric_word).
  rewrite Hn1, Hv1, bind_Ok, Hn2, Hv2, bind_Ok.
  rewrite (to_int_small target) by lia.
  destruct (Z.leb_spec 0 target); [|lia].
  destruct (Z.ltb_spec target 100); [|lia].
  rewrite to_uint64_small by lia.
  destruct (Z.ltb_spec 0 d); [|lia].
  cbn [andb]. rewrite to_uint8_small by lia.
  cbn -[Z.abs Z.div Z.sub to_uint32 to_int].
  rewrite <- Heq, Z.sub_diag. rewrite to_int_small by lia.
  reflexivity.
Qed.

(** A negative duration is not rejected: as a [uint64_t] it is positive,
    and the ramp is armed with it. *)
Lemma executeCommand_t_negative_time now s l a1 a2 target d :
  tolower l = "t"%char -> numeral a1 target -> numeral a2 d ->
  16 <= int_bits cfg -> 0 <= target < 100 -> d < 0 ->
  0 <= pot_pos (app s) <= 255 -> target <> pot_pos (app s) ->
  executeCommand cfg now (line2 l a1 a2) s
  = Ok (set_cur (4 + length a1 + length a2)
          (on_app (ramp_armed now target (2 ^ 64 + d)) s)).
Proof.
  intros Hl (Hne1 & Hn1 & Hv1) (Hne2 & Hn2 & Hv2) Hbits Ht Hd Hp Hneq.
  pose proof (toInt_range _ _ Hv2) as Hr2. unfold LONG_MIN, LONG_MAX in Hr2.
  unfold executeCommand.
  rewrite toLowerCase_line2, Hl, !isNumeric_lower by done.
  rewrite nextWord_reset. unfold line2.
  rewrite nextWord_letter by done.
  cbn [charAt nth]. cbn [Ascii.eqb Bool.eqb].
  unfold command_t.
  rewrite nextWord_arg1 by (by auto using isNumeric_word).
  rewrite nextWord_arg2 by (by auto using isNumeric_word).
  rewrite Hn1, Hv1, bind_Ok, Hn2, Hv2, bind_Ok.
  rewrite (to_int_small target) by lia.
  destruct (Z.leb_spec 0 target); [|lia].
  destruct (Z.ltb_spec target 100); [|lia].
  assert (to_uint64 d = 2 ^ 64 + d) as ->.
  { unfold to_uint64. rewrite <- (Z.mod_add d 1 (2 ^ 64)) by lia.
    rewrite Z.mod_small; lia. }
  destruct (Z.ltb_spec 0 (2 ^ 64 + d)); [|lia].
  cbn [andb]. rewrite to_uint8_small by lia.
  cbn -[Z.abs Z.div Z.sub Z.add Z.pow to_uint32 to_int].
  rewrite to_int_small by lia. rewrite to_uint32_small by lia.
  unfold udiv. destruct (Z.eqb_spec (Z.abs (target - pot_pos (app s))) 0); [lia|].
  reflexivity.
Qed.

(** ** The poll cycle and the controller *)

Lemma Application_loop_phases e s :
  Application_loop cfg e s
  = (s1 ← primaryFSM cfg e (report_phase cfg e s); priority_phase cfg e s1).
Proof. reflexivity. Qed.

Lemma count_end_app out1 out2 :
  count_end (out1 ++ out2) = (count_end out1 + count_end out2)%nat.
Proof. induction out1 as [|o out1 IH]; simpl; [done|]. rewrite IH. lia. Qed.

Lemma report_phase_frame e s : report_frame s (report_phase cfg e s).
Proof.
  unfold report_phase, pollPot, getPosition.
  set (s1 := on_app _ s).
  assert (Hc1 : control s1 = control s) by reflexivity.
  assert (Hp1 : pot_pos (app s1) = position (pot s)) by reflexivity.
  destruct (negb _);
  destruct (SWTimer_expired _ _); try destruct (_ || _);
  cbn; destruct (cmd_finished_flag (app s)) eqn:Hf;
  (split; try done);
  unfold control, consume_finished; cbn; rewrite Hf; cbn;
  rewrite ?count_end_app; cbn; rewrite ?count_end_app; cbn; f_equal; lia.
Qed.


Lemma checkSerialRX_frame e s b s1 :
  checkSerialRX cfg e s = Ok (b, s1) -> rx_frame s s1.
Proof.
  unfold checkSerialRX. destruct (rx e) as [byte|]; cbn.
  - destruct (_ <=? _)%nat; [done|]. cbn.
    destruct (Ascii.eqb (nth _ _ _) _); cbn.
    + destruct (c_str _) as [line|]; [|done]. cbn.
      unfold checkPriority.
      destruct (ECHO_EN cfg), (Ascii.eqb (nth 0 _ _) "q"); cbn;
      rewrite orb_true_r; intros [= <- <-]; split; try done;
      unfold control; cbn; rewrite ?count_end_app; cbn; f_equal; lia.
    + destruct (_ || _ || _); intros [= <- <-]; split; done.
  - destruct (_ || _ || _); intros [= <- <-]; split; done.
Qed.

Lemma set_appState_same a : set_appState (appState a) a = a.
Proof. by destruct a. Qed.

Lemma primaryFSM_no_dispatch e s b s1 :
  checkSerialRX cfg e s = Ok (b, s1) ->
  (b = true -> appState (app s) <> Idle) ->
  pot_pos (app s) = position (pot s) ->
  exists s2, primaryFSM cfg e s = Ok s2 /\
    control s2 = fsm_step (now e) (control s) /\
    cmd_high_priority (app s2) = cmd_high_priority (app s1) /\
    command (app s2) = command (app s1) /\
    pot_pos (app s2) = pot_pos (app s) /\
    cur s2 = cur s1.
Proof.
  intros Hrx Hb Hpos. unfold primaryFSM. rewrite Hrx. cbn.
  destruct (checkSerialRX_frame _ _ _ _ Hrx) as [Hc Hp Hpp Hcur Hold].
  unfold control in Hc. injection Hc as Hst Hsteps Htgt Hwait Hlin Hfin Hpos1 Hends.
  unfold fsm_step, control. cbn.
  destruct (appState (app s)) eqn:Est.
  - destruct b; [by destruct Hb|]. cbn. eexists. split; [reflexivity|].
    cbn. rewrite ?Hst, ?Hsteps, ?Htgt, ?Hwait, ?Hlin, ?Hfin, ?Hpos1, ?Hends, ?Hpp. done.
  - rewrite Hwait, Hsteps.
    destruct (SWTimer_expired _ _); cbn; [destruct (_ =? 0); cbn|];
      (eexists; split; [reflexivity|]); cbn;
      rewrite ?Hsteps, ?Htgt, ?Hwait, ?Hlin, ?Hfin, ?Hpos1, ?Hends, ?Hpp; done.
  - rewrite Hwait.
    destruct (SWTimer_expired _ _); cbn;
      (eexists; split; [reflexivity|]); cbn;
      rewrite ?Hsteps, ?Htgt, ?Hwait, ?Hlin, ?Hfin, ?Hpos1, ?Hends, ?Hpp; done.
  - rewrite Hlin.
    destruct (SWTimer_expired _ _); cbn.
    + rewrite Hsteps. destruct (_ =? 0); cbn;
      (eexists; split; [reflexivity|]); cbn;
      rewrite ?Hsteps, ?Htgt, ?Hwait, ?Hlin, ?Hfin, ?Hpos1, ?Hends, ?Hpp, ?Hp, ?Hpos; done.
    + rewrite Hsteps. destruct (_ =? 0); cbn;
      (eexists; split; [reflexivity|]); cbn;
      rewrite ?Hsteps, ?Htgt, ?Hwait, ?Hlin, ?Hfin, ?Hpos1, ?Hends, ?Hpp, ?Hp, ?Hpos; done.
Qed.

(** C10. Quiescence: in a poll cycle in which no serial byte is available
    and the state machine is in Idle, [primaryFSM] leaves every field of the
    application struct unchanged (the state stays Idle, no timer is started
    or constructed, target, steps and flags keep their values), does not
    move the potentiometer and writes nothing. *)
Theorem primaryFSM_idle_quiet e s :
  quiet e -> appState (app s) = Idle ->
  exists s', primaryFSM cfg e s = Ok s' /\
    app s' = app s /\ pot s' = pot s /\ serial_out s' = serial_out s /\
    cur s' = cur s /\ old_pot_pos s' = old_pot_pos s.
Proof.
  intros Hq Hst. unfold primaryFSM.
  destruct (checkSerialRX_quiet e s Hq) as (s' & -> & Ha & Hp & Ho & Hc & Hout).
  rewrite Hst. simpl. eexists. split; [reflexivity|].
  simpl. rewrite Ha, <- Hst. rewrite set_appState_same. done.
Qed.

(** ** The controller on its own *)

Lemma SWTimer_expired_mono t t' tm :
  t <= t' -> SWTimer_expired t tm = true -> SWTimer_expired t' tm = true.
Proof. unfold SWTimer_expired. destruct (running tm); simpl; lia. Qed.


Lemma ramp_step_on_course target t c :
  on_course target c -> c_steps c <> 0 ->
  on_course target (ramp_step t c) /\ c_steps (ramp_step t c) = c_steps c - 1.
Proof.
  intros (Ht & Hr & Hp & Hs) Hne. unfold on_course, ramp_step, setPosition. cbn.
  rewrite Ht.
  destruct (Z.ltb_spec (c_position c) target).
  - rewrite to_uint8_small by lia.
    destruct (Z.ltb_spec 99 (c_position c + 1)); [lia|].
    rewrite to_uint32_small by lia. lia.
  - rewrite to_uint8_small by lia.
    destruct (Z.ltb_spec 99 (c_position c + -1)); [lia|].
    rewrite to_uint32_small by lia. lia.
Qed.

Lemma cycle_step_safe target ends t0 t c :
  t0 <= t -> on_course target c -> ramp_phase ends t0 c ->
  on_course target (cycle_step t c) /\ ramp_phase ends t0 (cycle_step t c).
Proof.
  intros Ht Hc Hph. unfold cycle_step, consume_finished, fsm_step.
  destruct Hph as [Hst Hf Hs Hw He|Hst Hf Hs He|Hst Hf Hs He|Hst Hf Hs He];
    rewrite Hf; cbn; rewrite ?Hst.
  - rewrite (SWTimer_expired_mono t0 t) by done. cbn.
    destruct (Z.eqb_spec (c_steps c) 0); [done|]. cbn.
    split; [done|]. by apply phase_moving.
  - destruct (SWTimer_expired t (c_linear c)).
    + destruct (ramp_step_on_course target t c Hc Hs) as [Hc' Hs'].
      destruct (Z.eqb_spec (c_steps (ramp_step t c)) 0) as [Hz|Hz].
      * split; [done|]. by apply phase_pending.
      * split; [done|]. by apply phase_moving.
    + destruct (Z.eqb_spec (c_steps c) 0); [done|].
      split; [done|]. by apply phase_moving.
  - split; [done|]. apply phase_finished; cbn; try done. by rewrite He.
  - split; [done|]. by apply phase_finished.
Qed.

Lemma cycle_steps_app ts1 ts2 c :
  cycle_steps (ts1 ++ ts2) c = cycle_steps ts2 (cycle_steps ts1 c).
Proof. apply fold_left_app. Qed.

Lemma cycles_add sched i a b :
  cycles sched i (a + b) = cycles sched i a ++ cycles sched (i + a) b.
Proof. unfold cycles. by rewrite seq_app, map_app. Qed.

Lemma times_add sched i a b :
  times sched i (a + b) = times sched i a ++ times sched (i + a) b.
Proof. unfold times. by rewrite cycles_add, map_app. Qed.

Lemma timer_expires sched tm i :
  clock_advances sched ->
  exists d, SWTimer_expired (now (sched (i + d)%nat)) tm = true.
Proof.
  intros [Hmono Hunb]. destruct (Hunb (deadline tm)) as [j Hj].
  exists (j - i)%nat. unfold SWTimer_expired. apply orb_true_iff. right.
  apply Z.leb_le. etrans; [exact Hj|]. apply Hmono. lia.
Qed.

Lemma idle_rests t c :
  c_state c = Idle -> c_finished c = false -> cycle_step t c = c.
Proof.
  intros Hst Hf. unfold cycle_step, consume_finished, fsm_step.
  by rewrite Hf, Hst.
Qed.

Lemma idle_rests_forever ts c :
  c_state c = Idle -> c_finished c = false -> cycle_steps ts c = c.
Proof.
  intros Hst Hf. induction ts as [|t ts IH]; [done|].
  unfold cycle_steps in *. simpl. by rewrite idle_rests.
Qed.

Lemma moving_waits sched c d : forall i,
  c_state c = Linear -> c_finished c = false -> c_steps c <> 0 ->
  SWTimer_expired (now (sched (i + d)%nat)) (c_linear c) = true ->
  exists m, cycle_steps (times sched i m) c = c /\
    SWTimer_expired (now (sched (i + m)%nat)) (c_linear c) = true.
Proof.
  induction d as [|d IH]; intros i Hst Hf Hs Hexp.
  - by exists 0%nat.
  - destruct (SWTimer_expired (now (sched i)) (c_linear c)) eqn:E.
    + exists 0%nat. split; [done|]. by rewrite Nat.add_0_r.
    + destruct (IH (S i) Hst Hf Hs) as (m & Hm & Hexp').
      { by replace (S i + d)%nat with (i + S d)%nat by lia. }
      exists (S m). split.
      * change (S m) with (1 + m)%nat. rewrite times_add, cycle_steps_app.
        replace (i + 1)%nat with (S i) by lia.
        assert (cycle_steps (times sched i 1) c = c) as ->; [|done].
        unfold times, cycles, cycle_steps. simpl.
        unfold cycle_step, consume_finished, fsm_step.
        rewrite Hf, Hst, E. by destruct (Z.eqb_spec (c_steps c) 0).
      * by replace (i + S m)%nat with (S i + m)%nat by lia.
Qed.

Lemma moving_completes sched target ends :
  clock_advances sched ->
  forall n i c,
    c_steps c = Z.of_nat (S n) -> c_state c = Linear -> c_finished c = false ->
    on_course target c -> c_ends c = ends ->
    exists m, let c' := cycle_steps (times sched i m) c in
      on_course target c' /\ c_state c' = Idle /\ c_finished c' = true /\
      c_steps c' = 0 /\ c_ends c' = ends.
Proof.
  intros Hclk. induction n as [|n IH]; intros i c Hn Hst Hf Hc He.
  all: assert (Hs : c_steps c <> 0) by lia.
  all: destruct (timer_expires sched (c_linear c) i Hclk) as [d Hd].
  all: destruct (moving_waits sched c d i Hst Hf Hs Hd) as (m & Hm & Hexp).
  all: destruct (ramp_step_on_course target (now (sched (i + m)%nat)) c Hc Hs)
         as [Hc' Hs'].
  all: assert (Hstep : cycle_steps (times sched i (m + 1)) c
      = (if c_steps (ramp_step (now (sched (i + m)%nat)) c) =? 0
         then finish (ramp_step (now (sched (i + m)%nat)) c)
         else ramp_step (now (sched (i + m)%nat)) c)).
  1,3: rewrite times_add, cycle_steps_app, Hm;
       unfold times, cycles, cycle_steps; simpl;
       unfold cycle_step, consume_finished, fsm_step;
       by rewrite Hf, Hst, Hexp.
  - exists (m + 1)%nat. cbn zeta. rewrite Hstep.
    destruct (Z.eqb_spec (c_steps (ramp_step (now (sched (i + m)%nat)) c)) 0); [|lia].
    done.
  - destruct (Z.eqb_spec (c_steps (ramp_step (now (sched (i + m)%nat)) c)) 0); [lia|].
    destruct (IH (i + (m + 1))%nat (ramp_step (now (sched (i + m)%nat)) c))
      as (m' & Hdone); try done.
    { rewrite Hs', Hn. lia. }
    exists (m + 1 + m')%nat. cbn zeta. by rewrite times_add, cycle_steps_app, Hstep.
Qed.

(** ** Cycles that dispatch, cycles that do not *)

Lemma checkPriority_buffer line k :
  line <> [] ->
  checkPriority (line ++ replicate k ASCII_NUL) = checkPriority line.
Proof. intros H. unfold checkPriority. by destruct line. Qed.

Lemma nul_free_app l1 l2 : nul_free l1 -> nul_free l2 -> nul_free (l1 ++ l2).
Proof. apply Forall_app_2. Qed.

Lemma checkSerialRX_line e s body c :
  rx e = Some c -> terminator c = true ->
  rx_holds cfg body s -> nul_free body ->
  (S (length body) < CMD_CHAR_LEN cfg)%nat -> (CMD_CHAR_LEN cfg <= 255)%nat ->
  exists s', checkSerialRX cfg e s = Ok (true, s') /\
    app s' = set_command (body ++ [ASCII_LF])
               (checkPriority (body ++ [ASCII_LF]) (rx_started e (app s))) /\
    pot s' = pot s /\ old_pot_pos s' = old_pot_pos s /\ cur s' = cur s /\
    serial_out s' = serial_out s ++
      (if ECHO_EN cfg then [OutEcho (body ++ [ASCII_LF])] else []) /\
    rx_holds cfg [] s'.
Proof.
  intros Hrx Hc [Hi Hbuf] Hnul Hlen Hcap.
  unfold checkSerialRX. rewrite Hrx. cbn.
  assert ((if Ascii.eqb c ASCII_CR then ASCII_LF else c) = ASCII_LF) as ->.
  { unfold terminator in Hc. destruct (Ascii.eqb c ASCII_CR); [done|].
    rewrite orb_false_r in Hc. by apply Ascii.eqb_eq. }
  rewrite Hi.
  destruct (Nat.leb_spec (CMD_CHAR_LEN cfg) (length body)); [lia|].
  cbn. rewrite Hbuf.
  replace (CMD_CHAR_LEN cfg - length body)%nat
    with (S (S (CMD_CHAR_LEN cfg - S (S (length body))))) by lia.
  rewrite insert_rx_buffer.
  assert (nth (length body) ((body ++ [ASCII_LF]) ++
       replicate (S (CMD_CHAR_LEN cfg - S (S (length body)))) ASCII_NUL) ASCII_NUL
     = ASCII_LF) as ->.
  { rewrite <- app_assoc. apply nth_middle_app. }
  cbn [Ascii.eqb ASCII_LF Bool.eqb]. cbn match.
  rewrite c_str_app by (apply nul_free_app; [done|by repeat constructor]).
  cbn. rewrite orb_true_r.
  change (ASCII_NUL :: replicate ?k ASCII_NUL) with (replicate (S k) ASCII_NUL).
  rewrite checkPriority_buffer by (by destruct body).
  destruct (ECHO_EN cfg); eexists; (split; [reflexivity|]); cbn;
    rewrite ?app_nil_r; unfold rx_holds; cbn; rewrite Nat.sub_0_r;
    by repeat split.
Qed.

Lemma priority_phase_skip e s :
  cmd_high_priority (app s) = false ->
  priority_phase cfg e s = Ok (set_old_pot_pos (to_uint32 (pot_pos (app s))) s).
Proof. intros H. unfold priority_phase. by rewrite H. Qed.

(** A poll cycle that dispatches no command drives the controller by
    [cycle_step]. *)
Lemma loop_no_dispatch e s b s1 :
  checkSerialRX cfg e (report_phase cfg e s) = Ok (b, s1) ->
  cmd_high_priority (app s1) = false ->
  (b = true -> appState (app s) <> Idle) ->
  exists s', Application_loop cfg e s = Ok s' /\
    control s' = cycle_step (now e) (control s) /\
    cmd_high_priority (app s') = false.
Proof.
  intros Hrx Hhp Hb.
  destruct (report_phase_frame e s) as [Hp Hpp _ _ _ _ _ _ Hc].
  assert (Hst : appState (app (report_phase cfg e s)) = appState (app s)).
  { change (c_state (control (report_phase cfg e s)) = c_state (control s)).
    rewrite Hc. unfold consume_finished. by destruct (c_finished _). }
  destruct (primaryFSM_no_dispatch e (report_phase cfg e s) b s1 Hrx)
    as (s2 & Hfsm & Hc2 & Hhp2 & _ & Hpp2 & _).
  { by rewrite Hst. }
  { by rewrite Hpp, Hp. }
  rewrite Application_loop_phases, Hfsm. cbn.
  rewrite priority_phase_skip by congruence.
  eexists. split; [reflexivity|]. split; [|cbn; congruence].
  unfold cycle_step. rewrite <- Hc, <- Hc2. reflexivity.
Qed.

Lemma loop_quiet e s :
  quiet e -> cmd_high_priority (app s) = false ->
  exists s', Application_loop cfg e s = Ok s' /\
    control s' = cycle_step (now e) (control s) /\
    cmd_high_priority (app s') = false.
Proof.
  intros Hq Hhp.
  destruct (report_phase_frame e s) as [_ _ Hhp1 _ _ _ _ _ _].
  destruct (checkSerialRX_quiet e (report_phase cfg e s) Hq)
    as (s1 & Hrx & Ha & _).
  apply (loop_no_dispatch e s false s1 Hrx); [congruence|done].
Qed.

Lemma run_app es1 es2 s :
  run cfg (es1 ++ es2) s = (s1 ← run cfg es1 s; run cfg es2 s1).
Proof.
  revert s. induction es1 as [|e es1 IH]; intros s; cbn; [done|].
  destruct (Application_loop cfg e s); cbn; [apply IH|done].
Qed.

Lemma run_quiet es : forall s,
  Forall quiet es -> cmd_high_priority (app s) = false ->
  exists s', run cfg es s = Ok s' /\
    control s' = cycle_steps (map now es) (control s) /\
    cmd_high_priority (app s') = false.
Proof.
  induction es as [|e es IH]; intros s Hq Hhp.
  - by exists s.
  - inversion Hq as [|? ? He Hes]; subst.
    destruct (loop_quiet e s He Hhp) as (s1 & H1 & Hc1 & Hhp1).
    destruct (IH s1 Hes Hhp1) as (s' & H' & Hc' & Hhp').
    exists s'. cbn. rewrite H1. cbn. split; [done|]. split; [|done].
    rewrite Hc', Hc1. reflexivity.
Qed.

Lemma ramp_safe target ends t0 ts : forall c,
  Forall (fun t => t0 <= t) ts -> on_course target c -> ramp_phase ends t0 c ->
  on_course target (cycle_steps ts c) /\ ramp_phase ends t0 (cycle_steps ts c).
Proof.
  induction ts as [|t ts IH]; intros c Hts Hc Hph; [done|].
  inversion Hts; subst.
  destruct (cycle_step_safe target ends t0 t c) as [Hc' Hph']; try done.
  by apply IH.
Qed.

Lemma times_from sched i n :
  (forall j k, (j <= k)%nat -> now (sched j) <= now (sched k)) ->
  Forall (fun t => now (sched i) <= t) (times sched i n).
Proof.
  intros Hmono. unfold times, cycles. rewrite Forall_forall.
  intros t Ht. apply list_elem_of_In, in_map_iff in Ht as (e & <- & He).
  apply in_map_iff in He as (j & <- & Hj).
  apply in_seq in Hj. apply Hmono. lia.
Qed.

Lemma armed_completes sched target ends i c :
  clock_advances sched -> on_course target c ->
  ramp_phase ends (now (sched i)) c ->
  exists K, forall k, (K <= k)%nat ->
    let c' := cycle_steps (times sched i k) c in
    c_state c' = Idle /\ c_finished c' = false /\ c_steps c' = 0 /\
    c_position c' = target /\ c_ends c' = S ends.
Proof.
  intros Hclk Hc Hph.
  (* it is enough to reach the finished phase once *)
  cut (exists K, let c' := cycle_steps (times sched i K) c in
         on_course target c' /\ c_state c' = Idle /\ c_finished c' = false /\
         c_steps c' = 0 /\ c_ends c' = S ends).
  { intros (K & Hc' & Hst & Hf & Hs & He). exists K. intros k Hk. cbn zeta.
    replace k with (K + (k - K))%nat by lia.
    rewrite times_add, cycle_steps_app, idle_rests_forever by done.
    repeat split; try done.
    destruct Hc' as (_ & _ & _ & Hdist). rewrite Hs in Hdist. lia. }
  (* from the pending phase, one cycle *)
  assert (Hpending : forall j c1, on_course target c1 -> c_state c1 = Idle ->
            c_finished c1 = true -> c_steps c1 = 0 -> c_ends c1 = ends ->
            let c' := cycle_steps (times sched j 1) c1 in
            on_course target c' /\ c_state c' = Idle /\ c_finished c' = false /\
            c_steps c' = 0 /\ c_ends c' = S ends).
  { intros j c1 Hc1 Hst Hf Hs He. unfold times, cycles, cycle_steps. cbn.
    unfold cycle_step, consume_finished, fsm_step. rewrite Hf. cbn. rewrite Hst.
    cbn. by rewrite He. }
  (* from the moving phase *)
  assert (Hmoving : forall j c1, on_course target c1 -> c_state c1 = Linear ->
            c_finished c1 = false -> c_steps c1 <> 0 -> c_ends c1 = ends ->
            exists K, let c' := cycle_steps (times sched j K) c1 in
            on_course target c' /\ c_state c' = Idle /\ c_finished c' = false /\
            c_steps c' = 0 /\ c_ends c' = S ends).
  { intros j c1 Hc1 Hst Hf Hs He.
    destruct (moving_completes sched target ends Hclk
                (Z.to_nat (c_steps c1) - 1) j c1) as (m & Hm); try done.
    { destruct Hc1 as (_ & _ & _ & Hdist). lia. }
    cbn zeta in Hm. destruct Hm as (Hc2 & Hst2 & Hf2 & Hs2 & He2).
    exists (m + 1)%nat. cbn zeta. rewrite times_add, cycle_steps_app.
    by apply Hpending. }
  destruct Hph as [Hst Hf Hs Hw He|Hst Hf Hs He|Hst Hf Hs He|Hst Hf Hs He].
  - destruct (Hmoving (i + 1)%nat (enter Linear c)) as (K & HK); try done.
    exists (1 + K)%nat. cbn zeta. rewrite times_add, cycle_steps_app.
    assert (cycle_steps (times sched i 1) c = enter Linear c) as ->; [|done].
    unfold times, cycles, cycle_steps. cbn.
    unfold cycle_step, consume_finished, fsm_step. rewrite Hf, Hst, Hw. cbn.
    by destruct (Z.eqb_spec (c_steps c) 0).
  - by apply Hmoving.
  - exists 1%nat. by apply Hpending.
  - exists 0%nat. done.
Qed.

(** The poll cycle in which the terminator of a line arrives while the
    machine is Idle hands the line to [executeCommand]. *)
Lemma loop_dispatch e s body c :
  rx e = Some c -> terminator c = true ->
  rx_holds cfg body s -> nul_free body ->
  (S (length body) < CMD_CHAR_LEN cfg)%nat -> (CMD_CHAR_LEN cfg <= 255)%nat ->
  appState (app s) = Idle ->
  exists s1,
    Application_loop cfg e s
    = (s2 ← executeCommand cfg (now e) (body ++ [ASCII_LF]) s1;
       priority_phase cfg e (on_app (set_appState Executing) s2)) /\
    control s1 = consume_finished (control s) /\
    pot s1 = pot s /\ pot_pos (app s1) = position (pot s) /\
    cmd_high_priority (app s1)
    = cmd_high_priority (checkPriority (body ++ [ASCII_LF]) (app s)) /\
    last (serial_out s1) = Some (OutChar S_R_CHAR).
Proof.
  intros Hrx Hc [Hi Hbuf] Hnul Hlen Hcap Hst.
  destruct (report_phase_frame e s) as [Hp Hpp Hhp _ _ Hri Hrb _ Hctl].
  assert (Hst1 : appState (app (report_phase cfg e s)) = Idle).
  { change (c_state (control (report_phase cfg e s)) = Idle).
    rewrite Hctl. unfold consume_finished. destruct (c_finished _); exact Hst. }
  destruct (checkSerialRX_line e (report_phase cfg e s) body c)
    as (s1 & Hchk & Ha & Hp1 & _ & _ & Hout & _); try done.
  { split; congruence. }
  exists (emit (OutChar S_R_CHAR) s1).
  rewrite Application_loop_phases. unfold primaryFSM.
  rewrite Hchk, Hst1. cbn.
  assert (Hcmd : command (app s1) = body ++ [ASCII_LF]) by (by rewrite Ha).
  rewrite Hcmd. split.
  { by destruct (executeCommand _ _ _ _). }
  split.
  { rewrite <- Hctl. unfold control. cbn. rewrite Ha, Hp1, Hout.
    unfold checkPriority, rx_started.
    rewrite !count_end_app.
    destruct (Ascii.eqb _ "q"), (ECHO_EN cfg); cbn; f_equal; lia. }
  split; [congruence|]. rewrite Ha. unfold checkPriority, rx_started.
  destruct (Ascii.eqb _ "q"); cbn; (split; [congruence|]);
    (split; [congruence|]); apply last_snoc.
Qed.

(** ** Ramp commands *)

Lemma line2_body l a1 a2 : body2 l a1 a2 ++ [ASCII_LF] = line2 l a1 a2.
Proof. unfold body2, line2. cbn. by rewrite <- app_assoc. Qed.

Lemma line1_body l a1 : body1 l a1 ++ [ASCII_LF] = line1 l a1.
Proof. reflexivity. Qed.

Lemma body2_nul_free l a1 a2 :
  Ascii.eqb l ASCII_NUL = false -> isNumeric a1 = true -> isNumeric a2 = true ->
  nul_free (body2 l a1 a2).
Proof.
  intros Hl H1 H2. unfold body2. constructor; [done|]. constructor; [done|].
  apply nul_free_app; [by apply isNumeric_nul_free|].
  constructor; [done|]. by apply isNumeric_nul_free.
Qed.

(** The cycle that dispatches an accepted ramp command leaves the
    controller armed and on course. *)
Lemma ramp_dispatch e s a1 a2 target d c :
  16 <= int_bits cfg -> (CMD_CHAR_LEN cfg <= 255)%nat ->
  numeral a1 target -> numeral a2 d -> 0 <= target < 100 -> 0 < d ->
  appState (app s) = Idle -> cmd_finished_flag (app s) = false ->
  cmd_high_priority (app s) = false ->
  SWTimer_expired (now e) (wait_cmd_timer (app s)) = true ->
  0 <= position (pot s) <= 99 -> position (pot s) <> target ->
  rx_holds cfg (body2 "t" a1 a2) s ->
  (S (length (body2 "t" a1 a2)) < CMD_CHAR_LEN cfg)%nat ->
  rx e = Some c -> terminator c = true ->
  exists s', Application_loop cfg e s = Ok s' /\
    cmd_high_priority (app s') = false /\
    on_course target (control s') /\
    ramp_phase (count_end (serial_out s)) (now e) (control s').
Proof.
  intros Hbits Hcap Hn1 Hn2 Ht Hd Hst Hfin Hhp Hwait Hpos Hne Hbuf Hlen Hrx Hc.
  destruct (loop_dispatch e s (body2 "t" a1 a2) c)
    as (s1 & Hloop & Hctl & Hp1 & Hpp1 & Hhp1 & _); try done.
  { destruct Hn1 as (_ & ? & _), Hn2 as (_ & ? & _). by apply body2_nul_free. }
  rewrite line2_body in Hloop, Hhp1.
  assert (Hhp2 : cmd_high_priority (app s1) = false) by (rewrite Hhp1; exact Hhp).
  rewrite (executeCommand_t_ramp (now e) s1 "t" a1 a2 target d) in Hloop;
    try done; [|rewrite Hpp1; lia|rewrite Hpp1; congruence].
  rewrite bind_Ok in Hloop. cbn beta in Hloop.
  rewrite priority_phase_skip in Hloop by (cbn; congruence).
  eexists. split; [exact Hloop|].
  assert (Hc0 : consume_finished (control s) = control s).
  { unfold consume_finished. cbn. by rewrite Hfin. }
  rewrite Hc0 in Hctl. unfold control in Hctl.
  injection Hctl as Hst1 Hsteps1 Htgt1 Hwait1 Hlin1 Hfin1 Hpos1 Hends1.
  split; [cbn; congruence|]. split.
  - unfold on_course, control. cbn. rewrite Hpp1, Hp1. lia.
  - apply phase_armed; cbn; try congruence.
    rewrite Hpp1. lia.
Qed.

Lemma cycles_S sched i n : cycles sched i (S n) = sched i :: cycles sched (S i) n.
Proof. reflexivity. Qed.

Lemma cycles_quiet sched i n :
  (forall j, quiet (sched (S j))) -> Forall quiet (cycles sched (S i) n).
Proof.
  intros Hq. unfold cycles. revert i. induction n as [|n IH]; intros i; cbn.
  - constructor.
  - constructor; [apply Hq | apply IH].
Qed.

(** The same command at the position it names as its target: the cycle
    of the dispatch divides by zero. *)
Lemma ramp_dispatch_faults e s a1 a2 target d c :
  16 <= int_bits cfg -> (CMD_CHAR_LEN cfg <= 255)%nat ->
  numeral a1 target -> numeral a2 d -> 0 <= target < 100 -> 0 < d ->
  appState (app s) = Idle -> position (pot s) = target ->
  rx_holds cfg (body2 "t" a1 a2) s ->
  (S (length (body2 "t" a1 a2)) < CMD_CHAR_LEN cfg)%nat ->
  rx e = Some c -> terminator c = true ->
  Application_loop cfg e s = Fault DivByZero.
Proof.
  intros Hbits Hcap Hn1 Hn2 Ht Hd Hst Heq Hbuf Hlen Hrx Hc.
  destruct (loop_dispatch e s (body2 "t" a1 a2) c)
    as (s1 & Hloop & _ & _ & Hpp1 & _); try done.
  { destruct Hn1 as (_ & ? & _), Hn2 as (_ & ? & _). by apply body2_nul_free. }
  rewrite line2_body in Hloop.
  rewrite (executeCommand_t_div0 (now e) s1 "t" a1 a2 target d) in Hloop;
    try done. congruence.
Qed.

(** X22. A ramp command [t <target> <duration>] with a target in [0,99)
    and a positive duration, on a platform whose [int] has 16 bits or more
    and with a line buffer of at most 255 characters that the line fits.
    The line is completed in a cycle that finds the machine Idle with the
    finished flag and the priority flag down, the wait timer expired and
    the potentiometer within 0..99; the cycles that follow receive no serial
    input, and the clock does not run backwards. Then never more than one
    end-of-command marker is written, and whenever a run returns with the
    machine back in Idle the potentiometer stands at the target, [steps] is
    0 and exactly one end-of-command marker has been written or is flagged
    to be written in the next cycle. And the ramp does complete: when the
    target is not the position the potentiometer already has and the clock
    passes every value, every cycle returns, and from some cycle on the
    machine is in Idle at the target with [steps] 0, the finished flag down
    and exactly one end-of-command marker written since the dispatch. *)
Theorem ramp_command_completes sched s0 a1 a2 target d c :
  16 <= int_bits cfg -> (CMD_CHAR_LEN cfg <= 255)%nat ->
  numeral a1 target -> numeral a2 d -> 0 <= target < 99 -> 0 < d ->
  appState (app s0) = Idle -> cmd_finished_flag (app s0) = false ->
  cmd_high_priority (app s0) = false ->
  SWTimer_expired (now (sched 0%nat)) (wait_cmd_timer (app s0)) = true ->
  0 <= position (pot s0) <= 99 ->
  rx_holds cfg (body2 "t" a1 a2) s0 ->
  (S (length (body2 "t" a1 a2)) < CMD_CHAR_LEN cfg)%nat ->
  rx (sched 0%nat) = Some c -> terminator c = true ->
  (forall i, quiet (sched (S i))) ->
  (forall i j, (i <= j)%nat -> now (sched i) <= now (sched j)) ->
  (forall k s, (1 <= k)%nat -> run cfg (cycles sched 0 k) s0 = Ok s ->
     (count_end (serial_out s) <= S (count_end (serial_out s0)))%nat /\
     (appState (app s) = Idle ->
        position (pot s) = target /\ steps (app s) = 0 /\
        (count_end (serial_out s)
         + (if cmd_finished_flag (app s) then 1 else 0))%nat
        = S (count_end (serial_out s0)))) /\
  (position (pot s0) <> target -> (forall T, exists i, T <= now (sched i)) ->
     (forall k, exists s, run cfg (cycles sched 0 k) s0 = Ok s) /\
     (exists K, forall k, (K <= k)%nat ->
        exists s, run cfg (cycles sched 0 k) s0 = Ok s /\
          appState (app s) = Idle /\ position (pot s) = target /\
          steps (app s) = 0 /\ cmd_finished_flag (app s) = false /\
          count_end (serial_out s) = S (count_end (serial_out s0)))).
Proof.
  intros Hbits Hcap Hn1 Hn2 Ht Hd Hst Hfin Hhp Hwait Hpos Hbuf Hlen Hrx Hc
    Hquiet Hmono.
  destruct (Z.eq_dec (position (pot s0)) target) as [Heq|Hne].
  { (* the dispatch faults: no run of one cycle or more returns *)
    assert (Hfault : Application_loop cfg (sched 0%nat) s0 = Fault DivByZero).
    { apply (ramp_dispatch_faults (sched 0%nat) s0 a1 a2 target d c);
        try done. lia. }
    split; [|done]. intros k s Hk Hs. destruct k as [|n]; [lia|].
    rewrite cycles_S in Hs. cbn in Hs. by rewrite Hfault in Hs. }
  destruct (ramp_dispatch (sched 0%nat) s0 a1 a2 target d c)
    as (s1 & Hloop & Hhp1 & Hcourse & Hphase); try done; [lia|].
  assert (Hrun : forall n, exists s,
            run cfg (cycles sched 0 (S n)) s0 = Ok s /\
            control s = cycle_steps (times sched 1 n) (control s1)).
  { intros n. rewrite cycles_S. cbn. rewrite Hloop. cbn.
    destruct (run_quiet (cycles sched 1 n) s1) as (s & Hs & Hctl & _);
      [by apply cycles_quiet|done|].
    by exists s. }
  assert (Hfrom : forall n, Forall (fun t => now (sched 0%nat) <= t) (times sched 1 n)).
  { intros n. eapply Forall_impl; [apply times_from, Hmono|].
    intros t Ht'. cbn in Ht'. etrans; [|exact Ht']. apply Hmono. lia. }
  split.
  - intros k s' Hk Hs'. destruct k as [|n]; [lia|].
    destruct (Hrun n) as (s & Hs & Hctl).
    assert (s' = s) as -> by congruence.
    destruct (ramp_safe target (count_end (serial_out s0)) (now (sched 0%nat))
                (times sched 1 n) (control s1)) as [Hc' Hph']; try done.
    rewrite <- Hctl in Hc', Hph'.
    destruct Hc' as (_ & _ & _ & Hdist).
    unfold control in Hdist, Hph'. cbn in Hdist.
    destruct Hph' as [Hs1 Hf1 Hz1 _ He1|Hs1 Hf1 Hz1 He1|Hs1 Hf1 Hz1 He1|Hs1 Hf1 Hz1 He1];
      cbn in Hs1, Hf1, Hz1, He1; rewrite Hs1, Hf1, He1;
      (split; [lia|]); intros; (try done); (repeat split; try lia).
  - intros _ Hunb. split.
    { intros [|n]; [by exists s0|]. destruct (Hrun n) as (s & Hs & _). by exists s. }
    destruct (armed_completes sched target (count_end (serial_out s0)) 1 (control s1))
      as [K HK]; try done.
    { destruct Hphase as [Hs1 Hf1 Hz1 Hw1 He1|?|?|?]; try (by constructor).
      apply phase_armed; try done.
      eapply SWTimer_expired_mono; [|exact Hw1]. apply Hmono. lia. }
    exists (S K). intros k Hk. destruct k as [|n]; [lia|].
    destruct (Hrun n) as (s & Hs & Hctl). exists s. split; [done|].
    specialize (HK n ltac:(lia)). cbn zeta in HK. rewrite <- Hctl in HK.
    cbn in HK. tauto.
Qed.

(** ** The other commands *)

Lemma nextWord_line1_end l a :
  nextWord (line1 l a) false (3 + length a) = (NULL, (3 + length a)%nat).
Proof.
  apply nextWord_exhausted. unfold line1. cbn. rewrite length_app. cbn. lia.
Qed.

(** A target outside [0,100) is rejected, with or without a duration. *)
Lemma executeCommand_t_out_of_range now s l a1 target :
  tolower l = "t"%char -> numeral a1 target ->
  16 <= int_bits cfg -> - 2 ^ 15 <= target < 2 ^ 15 ->
  ~ (0 <= target < 100) ->
  executeCommand cfg now (line1 l a1) s
  = Ok (emit (OutText "  Throttle out of bounds") (set_cur (3 + length a1) s)) /\
  forall a2, a2 <> [] -> word_chars a2 ->
    executeCommand cfg now (line2 l a1 a2) s
    = Ok (emit (OutText "  Throttle out of bounds")
            (set_cur (4 + length a1 + length a2) s)).
Proof.
  intros Hl (Hne1 & Hn1 & Hv1) Hbits Hfit Ht.
  assert (Hrange : (0 <=? target) && (target <? 100) = false).
  { apply andb_false_iff.
    destruct (Z.leb_spec 0 target); [right|by left]. apply Z.ltb_ge. lia. }
  split; [|intros a2 Hne2 Hw2]; unfold executeCommand.
  - rewrite toLowerCase_line1, Hl, isNumeric_lower by done.
    rewrite nextWord_reset.
    change (line1 "t" a1) with ("t"%char :: ASCII_SPACE :: a1 ++ [ASCII_LF]) at 1.
    rewrite nextWord_letter by done.
    cbn [charAt nth]. cbn [Ascii.eqb Bool.eqb].
    unfold command_t.
    change (line1 "t" a1) with ("t"%char :: ASCII_SPACE :: a1 ++ [ASCII_LF]) at 1.
    rewrite nextWord_arg1 by (by auto using isNumeric_word).
    rewrite nextWord_line1_end.
    rewrite Hn1, Hv1, bind_Ok, (to_int_small target), Hrange by lia.
    reflexivity.
  - rewrite toLowerCase_line2, Hl, isNumeric_lower by done.
    assert (Hw2' : word_chars (toLowerCase a2)).
    { unfold word_chars, toLowerCase in *. apply Forall_forall.
      intros x Hx. apply list_elem_of_In, in_map_iff in Hx as (y & <- & Hy).
      rewrite Forall_forall in Hw2. specialize (Hw2 y (proj2 (list_elem_of_In _ _) Hy)).
      revert Hw2. clear. destruct y as [[] [] [] [] [] [] [] []]; vm_compute; done. }
    assert (Hne2' : toLowerCase a2 <> []) by (by destruct a2).
    rewrite nextWord_reset. unfold line2.
    rewrite nextWord_letter by done.
    cbn [charAt nth]. cbn [Ascii.eqb Bool.eqb].
    unfold command_t.
    rewrite nextWord_arg1 by (by auto using isNumeric_word).
    rewrite nextWord_arg2 by done.
    rewrite Hn1, Hv1, bind_Ok, (to_int_small target), Hrange by lia.
    unfold toLowerCase. rewrite length_map.
    reflexivity.
Qed.

(** [t <target>] without a duration: the tokenizer supplies the word NULL
    and the position is set at once. *)
Lemma executeCommand_t_immediate now s l a1 target :
  tolower l = "t"%char -> numeral a1 target ->
  16 <= int_bits cfg -> 0 <= target < 100 ->
  executeCommand cfg now (line1 l a1) s
  = Ok (set_cur (3 + length a1) (set_pot (setPosition target (pot s)) s)).
Proof.
  intros Hl (Hne1 & Hn1 & Hv1) Hbits Ht.
  unfold executeCommand.
  rewrite toLowerCase_line1, Hl, isNumeric_lower by done.
  rewrite nextWord_reset.
  change (line1 "t" a1) with ("t"%char :: ASCII_SPACE :: a1 ++ [ASCII_LF]) at 1.
  rewrite nextWord_letter by done.
  cbn [charAt nth]. cbn [Ascii.eqb Bool.eqb].
  unfold command_t.
  change (line1 "t" a1) with ("t"%char :: ASCII_SPACE :: a1 ++ [ASCII_LF]) at 1.
  rewrite nextWord_arg1 by (by auto using isNumeric_word).
  rewrite nextWord_line1_end.
  rewrite Hn1, Hv1, bind_Ok, (to_int_small target) by lia.
  destruct (Z.leb_spec 0 target); [|lia].
  destruct (Z.ltb_spec target 100); [|lia].
  reflexivity.
Qed.

(** [s <delta>]: the relative move is applied iff the new position is in
    [0,100). *)
Lemma executeCommand_s now s l a1 delta :
  tolower l = "s"%char -> numeral a1 delta ->
  16 <= int_bits cfg -> 0 <= pot_pos (app s) <= 255 ->
  - 2 ^ 15 <= pot_pos (app s) + delta < 2 ^ 15 ->
  executeCommand cfg now (line1 l a1) s
  = Ok (if (0 <=? pot_pos (app s) + delta) && (pot_pos (app s) + delta <? 100)
        then set_cur (3 + length a1)
               (set_pot (setPosition (pot_pos (app s) + delta) (pot s)) s)
        else emit (OutText "  Throttle out of bounds") (set_cur (3 + length a1) s)).
Proof.
  intros Hl (Hne1 & Hn1 & Hv1) Hbits Hp Hfit.
  unfold executeCommand.
  rewrite toLowerCase_line1, Hl, isNumeric_lower by done.
  rewrite nextWord_reset.
  change (line1 "s" a1) with ("s"%char :: ASCII_SPACE :: a1 ++ [ASCII_LF]) at 1.
  rewrite nextWord_letter by done.
  cbn [charAt nth]. cbn [Ascii.eqb Bool.eqb].
  unfold command_s.
  change (line1 "s" a1) with ("s"%char :: ASCII_SPACE :: a1 ++ [ASCII_LF]) at 1.
  rewrite nextWord_arg1 by (by auto using isNumeric_word).
  rewrite Hn1, Hv1, bind_Ok.
  cbn [app set_cur pot_pos].
  rewrite to_long_small by (unfold LONG_MIN, LONG_MAX; lia).
  rewrite to_int_small by lia.
  by destruct ((0 <=? _) && (_ <? 100)).
Qed.

(** Every line ends its first word with a separator. *)
Lemma first_word_split (l : list ascii) :
  exists w sep post,
    l ++ [ASCII_LF] = w ++ sep :: post /\ word_chars w /\ is_separator sep = true.
Proof.
  induction l as [|c l (w & sep & post & Heq & Hw & Hsep)].
  - exists [], ASCII_LF, []. repeat split. constructor.
  - destruct (is_separator c) eqn:Hc.
    + exists [], c, (l ++ [ASCII_LF]). repeat split; [constructor|done].
    + exists (c :: w), sep, post. cbn. rewrite Heq. repeat split; [|done].
      by constructor.
Qed.

(** The reset command: a line whose first character is q or Q. *)
Lemma executeCommand_q now s l rest :
  tolower l = "q"%char ->
  exists c, executeCommand cfg now (l :: rest ++ [ASCII_LF]) s
  = Ok (resetApplication cfg (on_app (set_cmd_high_priority false) (set_cur c s))).
Proof.
  intros Hl. unfold executeCommand.
  destruct (first_word_split (toLowerCase rest)) as (w & sep & post & Heq & Hw & Hsep).
  assert (Hline : toLowerCase (l :: rest ++ [ASCII_LF]) = [] ++ ("q"%char :: w) ++ sep :: post).
  { unfold toLowerCase in *. cbn [map]. rewrite Hl, map_app. cbn [map].
    change (tolower ASCII_LF) with ASCII_LF. by rewrite Heq. }
  rewrite Hline, nextWord_reset.
  assert (Hnw : nextWord ([] ++ ("q"%char :: w) ++ sep :: post) false 0
                = ("q"%char :: w, S (S (length w)))).
  { apply (nextWord_word [] "q" w sep post); [by constructor|done]. }
  rewrite Hnw.
  cbn [charAt nth]. cbn [Ascii.eqb Bool.eqb]. cbn.
  by eexists.
Qed.

(** ** The priority path *)

(** X23. In a poll cycle that completes a line whose first character is q
    and that holds no NUL byte, with a line buffer of at most 255
    characters that the line fits, while the state machine is in Linear or
    Waiting, [checkSerialRX] sets the high-priority flag, and the same
    cycle resets the application: it ends in Idle with the potentiometer
    at position 0 and the application struct equal to a freshly
    constructed one (so the flag is cleared again, no step remains and no
    wait is pending), whatever steps or wait time remained and whether or
    not the flag was up before; the high-priority marker is the last thing
    written. *)
Theorem priority_reset_preempts e s rest c :
  (CMD_CHAR_LEN cfg <= 255)%nat ->
  rx e = Some c -> terminator c = true ->
  rx_holds cfg ("q"%char :: rest) s -> nul_free rest ->
  (S (S (length rest)) < CMD_CHAR_LEN cfg)%nat ->
  appState (app s) = Linear \/ appState (app s) = Waiting ->
  (exists s1, checkSerialRX cfg e (report_phase cfg e s) = Ok (true, s1) /\
     cmd_high_priority (app s1) = true) /\
  (exists s', Application_loop cfg e s = Ok s' /\
     app s' = Application_construct cfg /\ position (pot s') = 0 /\
     appState (app s') = Idle /\ cmd_high_priority (app s') = false /\
     steps (app s') = 0 /\
     last (serial_out s') = Some (OutChar S_HP_CHAR)).
Proof.
  intros Hcap Hrx Hc Hbuf Hnul Hlen Hst.
  destruct (report_phase_frame e s) as [Hp Hpp Hhp _ _ Hri Hrb _ Hctl].
  assert (Hst1 : appState (app (report_phase cfg e s)) = appState (app s)).
  { change (c_state (control (report_phase cfg e s)) = c_state (control s)).
    rewrite Hctl. unfold consume_finished. by destruct (c_finished _). }
  destruct (checkSerialRX_line e (report_phase cfg e s) ("q"%char :: rest) c)
    as (s1 & Hchk & Ha & _); try done.
  { destruct Hbuf. split; congruence. }
  { by constructor. }
  assert (Hhp1 : cmd_high_priority (app s1) = true) by (by rewrite Ha).
  assert (Hcmd1 : command (app s1) = "q"%char :: rest ++ [ASCII_LF]) by (by rewrite Ha).
  split; [by exists s1|].
  destruct (primaryFSM_no_dispatch e (report_phase cfg e s) true s1 Hchk)
    as (s2 & Hfsm & _ & Hhp2 & Hcmd2 & _).
  { intros _. rewrite Hst1. by destruct Hst as [-> | ->]. }
  { by rewrite Hpp, Hp. }
  rewrite Application_loop_phases, Hfsm, bind_Ok.
  unfold priority_phase. rewrite Hhp2, Hhp1, Hcmd2, Hcmd1.
  destruct (executeCommand_q (now e) (emit (OutChar S_HP_CHAR) s2) "q" rest)
    as [c' ->]; [done|].
  eexists. split; [reflexivity|]. cbn.
  repeat split. by rewrite last_snoc.
Qed.

(** X24. A line whose first character is the upper-case Q and that holds
    no NUL byte, with a line buffer of at most 255 characters that the
    line fits, completed in a cycle that begins with the priority flag
    down: [checkSerialRX] stores it as the command and does not raise the
    flag. Completed while the machine is Idle, it resets the application
    through the normal dispatch (the struct is constructed anew but for
    the state Executing, the potentiometer driven to 0, the
    command-received marker is the last thing written). Completed in any
    other state it does not preempt: the cycle drives the controller
    exactly as the same cycle without input does, and the flag stays
    down. *)
Theorem uppercase_Q_cannot_preempt e s rest c :
  (CMD_CHAR_LEN cfg <= 255)%nat ->
  rx e = Some c -> terminator c = true ->
  rx_holds cfg ("Q"%char :: rest) s -> nul_free rest ->
  (S (S (length rest)) < CMD_CHAR_LEN cfg)%nat ->
  cmd_high_priority (app s) = false ->
  (exists s1, checkSerialRX cfg e (report_phase cfg e s) = Ok (true, s1) /\
     command (app s1) = "Q"%char :: rest ++ [ASCII_LF] /\
     cmd_high_priority (app s1) = false) /\
  (appState (app s) = Idle ->
     exists s', Application_loop cfg e s = Ok s' /\
       app s' = set_appState Executing (Application_construct cfg) /\
       position (pot s') = 0 /\
       last (serial_out s') = Some (OutChar S_R_CHAR)) /\
  (appState (app s) <> Idle ->
     exists s' s'', Application_loop cfg e s = Ok s' /\
       Application_loop cfg (without_rx e) s = Ok s'' /\
       control s' = control s'' /\
       control s' = cycle_step (now e) (control s) /\
       cmd_high_priority (app s') = false).
Proof.
  intros Hcap Hrx Hc Hbuf Hnul Hlen Hhp.
  destruct (report_phase_frame e s) as [Hp Hpp Hhp0 _ _ Hri Hrb _ Hctl].
  destruct (checkSerialRX_line e (report_phase cfg e s) ("Q"%char :: rest) c)
    as (s1 & Hchk & Ha & _); try done.
  { destruct Hbuf. split; congruence. }
  { by constructor. }
  assert (Hhp1 : cmd_high_priority (app s1) = false).
  { rewrite Ha. cbn. congruence. }
  split; [|split].
  - exists s1. split; [done|]. split; [by rewrite Ha|done].
  - intros Hst.
    destruct (loop_dispatch e s ("Q"%char :: rest) c)
      as (s2 & Hloop & _ & _ & _ & _ & Hlast); try done; [by constructor|].
    destruct (executeCommand_q (now e) s2 "Q" rest) as [c' Hq]; [done|].
    cbn [app] in Hloop. rewrite Hloop.
    change (("Q"%char :: rest) ++ [ASCII_LF]) with ("Q"%char :: rest ++ [ASCII_LF]).
    rewrite Hq, bind_Ok. cbn beta.
    rewrite priority_phase_skip by reflexivity.
    eexists. split; [reflexivity|]. cbn.
    by repeat split.
  - intros Hst.
    destruct (loop_no_dispatch e s true s1 Hchk Hhp1) as (s' & Hs' & Hc' & Hhp');
      [done|].
    destruct (loop_quiet (without_rx e) s) as (s'' & Hs'' & Hc'' & _); [done..|].
    exists s', s''. repeat split; try done. by rewrite Hc', Hc''.
Qed.

(** ** Immediate moves *)

Lemma setPosition_in_range target p :
  0 <= target <= 99 -> position (setPosition target p) = target.
Proof.
  intros H. unfold setPosition. cbn. rewrite to_uint8_small by lia.
  by destruct (Z.ltb_spec 99 target); [lia|].
Qed.

Lemma settled_step target t0 t c :
  t0 <= t -> settled target t0 c -> settled target t0 (cycle_step t c).
Proof.
  intros Ht (Hs & Hp & Hw & Hst). unfold cycle_step, consume_finished, fsm_step.
  destruct (c_finished c), Hst as [Hst|Hst]; cbn; rewrite Hst, ?Hs;
    rewrite ?(SWTimer_expired_mono t0 t) by done; cbn;
    repeat split; auto.
Qed.

Lemma settled_steps target t0 ts : forall c,
  Forall (fun t => t0 <= t) ts -> settled target t0 c ->
  settled target t0 (cycle_steps ts c).
Proof.
  induction ts as [|t ts IH]; intros c Hts Hc; [done|].
  inversion Hts; subst. apply IH; [done|]. by apply settled_step.
Qed.

Lemma body1_nul_free l a1 :
  Ascii.eqb l ASCII_NUL = false -> isNumeric a1 = true -> nul_free (body1 l a1).
Proof.
  intros Hl H1. unfold body1. constructor; [done|]. constructor; [done|].
  by apply isNumeric_nul_free.
Qed.

(** C4, as amended. A command line [t <target>] with the duration left out
    and a target in [0,99), dispatched in Idle with no ramp pending: the
    potentiometer stands at the target when the cycle of the dispatch ends
    and in every later cycle without input, and the machine is never in
    Linear. *)
Theorem immediate_move sched s0 a1 target c :
  16 <= int_bits cfg -> (CMD_CHAR_LEN cfg <= 255)%nat ->
  numeral a1 target -> 0 <= target < 99 ->
  appState (app s0) = Idle -> cmd_high_priority (app s0) = false ->
  steps (app s0) = 0 ->
  SWTimer_expired (now (sched 0%nat)) (wait_cmd_timer (app s0)) = true ->
  rx_holds cfg (body1 "t" a1) s0 ->
  (S (length (body1 "t" a1)) < CMD_CHAR_LEN cfg)%nat ->
  rx (sched 0%nat) = Some c -> terminator c = true ->
  (forall i, quiet (sched (S i))) ->
  (forall i j, (i <= j)%nat -> now (sched i) <= now (sched j)) ->
  forall k, (1 <= k)%nat ->
    exists s, run cfg (cycles sched 0 k) s0 = Ok s /\
      position (pot s) = target /\ appState (app s) <> Linear.
Proof.
  intros Hbits Hcap Hn1 Ht Hst Hhp Hsteps Hwait Hbuf Hlen Hrx Hc Hquiet Hmono k Hk.
  destruct (loop_dispatch (sched 0%nat) s0 (body1 "t" a1) c)
    as (s1 & Hloop & Hctl & Hp1 & Hpp1 & Hhp1 & _); try done.
  { destruct Hn1 as (_ & ? & _). by apply body1_nul_free. }
  rewrite line1_body in Hloop, Hhp1.
  assert (Hhp2 : cmd_high_priority (app s1) = false) by (rewrite Hhp1; exact Hhp).
  rewrite (executeCommand_t_immediate (now (sched 0%nat)) s1 "t" a1 target) in Hloop;
    try done; [|lia].
  rewrite bind_Ok in Hloop. cbn beta in Hloop.
  rewrite priority_phase_skip in Hloop by (cbn; congruence).
  destruct k as [|n]; [lia|].
  rewrite cycles_S. cbn [run]. rewrite Hloop, bind_Ok.
  match type of Hloop with _ = Ok ?x => set (s2 := x) in * end.
  destruct (run_quiet (cycles sched 1 n) s2) as (s & Hs & Hcs & _);
    [by apply cycles_quiet|cbn; congruence|].
  exists s. split; [done|].
  assert (Hset : settled target (now (sched 0%nat)) (control s2)).
  { assert (Hc0 : c_steps (control s1) = 0 /\ c_wait (control s1) = wait_cmd_timer (app s0)).
    { rewrite Hctl. unfold consume_finished. by destruct (c_finished _). }
    destruct Hc0 as [Hs1 Hw1]. cbn in Hs1, Hw1.
    unfold settled, control. cbn. rewrite Hs1, Hw1.
    repeat split; try done; [|by left].
    apply (setPosition_in_range target (pot s1)). lia. }
  destruct (settled_steps target (now (sched 0%nat)) (times sched 1 n) (control s2))
    as (_ & Hpos & _ & Hstate); [|done|].
  { eapply Forall_impl; [apply times_from, Hmono|].
    intros t Ht'. cbn in Ht'. etrans; [|exact Ht']. apply Hmono. lia. }
  unfold times in Hpos, Hstate. rewrite <- Hcs in Hpos, Hstate. cbn in Hpos, Hstate.
  split; [done|]. by destruct Hstate as [-> | ->].
Qed.

(** ** Lines longer than the buffer *)

Lemma carries_cons b bytes es :
  carries (b :: bytes) es ->
  exists e es', es = e :: es' /\ rx e = Some b /\ carries bytes es'.
Proof.
  unfold carries. destruct es as [|e es']; cbn; [done|].
  intros [= H1 H2]. by exists e, es'.
Qed.

Lemma carries_nil es : carries [] es -> es = [].
Proof. unfold carries. by destruct es. Qed.

(** Bytes that do not end a line are buffered and deliver nothing; the
    byte that fills the buffer clears it. *)
Lemma assemble_bytes bytes : forall body es s,
  (CMD_CHAR_LEN cfg <= 255)%nat ->
  0 < duration (serial_timeout_timer (app s)) ->
  carries bytes es -> Forall (fun b => terminator b = false) bytes ->
  rx_holds cfg body s ->
  (length body < CMD_CHAR_LEN cfg)%nat ->
  (length body + length bytes <= CMD_CHAR_LEN cfg)%nat ->
  exists s', assemble cfg es s = Ok (replicate (length bytes) false, s') /\
    rx_holds cfg (if (length body + length bytes <? CMD_CHAR_LEN cfg)%nat
                  then body ++ bytes else []) s' /\
    0 < duration (serial_timeout_timer (app s')) /\
    command (app s') = command (app s) /\
    cmd_high_priority (app s') = cmd_high_priority (app s).
Proof.
  induction bytes as [|b bytes IH]; intros body es s Hcap Hdur Hes Hnt Hbuf Hlen Htot.
  - apply carries_nil in Hes as ->. exists s. cbn [assemble length replicate].
    rewrite Nat.add_0_r, app_nil_r.
    destruct (Nat.ltb_spec (length body) (CMD_CHAR_LEN cfg)); [|lia].
    by repeat (split; [done|]).
  - apply carries_cons in Hes as (e & es' & -> & Hrx & Hes').
    inversion Hnt as [|? ? Hb Hnt']; subst.
    destruct (checkSerialRX_byte e s body b Hrx Hb Hbuf Hlen Hcap Hdur)
      as (s1 & Hchk & Ha & _ & _ & _ & _ & Hbuf1).
    cbn [assemble length]. rewrite Hchk, bind_Ok. cbn in Htot.
    destruct (Nat.ltb_spec (S (length body)) (CMD_CHAR_LEN cfg)) as [Hroom|Hfull].
    + destruct (IH (body ++ [b]) es' s1) as (s' & Hasm & Hbuf' & Hdur' & Hcmd' & Hhp');
        try done.
      { by rewrite Ha. }
      { rewrite length_app. cbn. lia. }
      { rewrite length_app. cbn. lia. }
      exists s'. rewrite Hasm. cbn. split; [done|].
      rewrite length_app, <- app_assoc in Hbuf'. cbn in Hbuf'.
      replace (length body + 1 + length bytes)%nat
        with (length body + S (length bytes))%nat in Hbuf' by lia.
      rewrite Hcmd', Hhp', Ha. by repeat (split; [done|]).
    + assert (bytes = []) as -> by (destruct bytes; [done|cbn in Htot; lia]).
      apply carries_nil in Hes' as ->. exists s1.
      match goal with
      | |- context [(?a <? ?b)%nat] => destruct (Nat.ltb_spec a b); [cbn in *; lia|]
      end.
      rewrite Ha. by repeat (split; [done|]).
Qed.

Lemma carries_app b1 : forall b2 es,
  carries (b1 ++ b2) es ->
  exists es1 es2, es = es1 ++ es2 /\ carries b1 es1 /\ carries b2 es2.
Proof.
  induction b1 as [|b b1 IH]; intros b2 es Hes.
  - by exists [], es.
  - apply carries_cons in Hes as (e & es' & -> & Hrx & Hes').
    destruct (IH b2 es' Hes') as (es1 & es2 & -> & H1 & H2).
    exists (e :: es1), es2. repeat split; [|done].
    unfold carries in *. cbn. by rewrite Hrx, H1.
Qed.

Lemma assemble_app es1 : forall es2 s,
  assemble cfg (es1 ++ es2) s
  = ('(bs1, s1) ← assemble cfg es1 s;
     '(bs2, s2) ← assemble cfg es2 s1;
     Ok (bs1 ++ bs2, s2)).
Proof.
  induction es1 as [|e es1 IH]; intros es2 s; cbn.
  - by destruct (assemble cfg es2 s) as [[bs2 s2]|].
  - destruct (checkSerialRX cfg e s) as [[b s1]|]; [|done]. cbn.
    rewrite IH. destruct (assemble cfg es1 s1) as [[bs1 s1']|]; [|done]. cbn.
    by destruct (assemble cfg es2 s1') as [[bs2 s2]|].
Qed.

(** C5, as amended. When [CMD_CHAR_LEN] bytes have arrived without a line
    terminator the assembler clears the buffer, and none of these bytes
    completes a line. What follows is assembled as a new line, whether it
    is the rest of the over-long line or a line of its own: a body shorter
    than the buffer is delivered at its terminator, complete and with a
    line feed at its end, and the buffer is clear again. *)
Theorem overflow_clears_and_next_line_delivers es s junk body c :
  (CMD_CHAR_LEN cfg <= 255)%nat ->
  0 < duration (serial_timeout_timer (app s)) ->
  rx_holds cfg [] s ->
  length junk = CMD_CHAR_LEN cfg ->
  Forall (fun b => terminator b = false) junk ->
  Forall (fun b => terminator b = false) body -> nul_free body ->
  (S (length body) < CMD_CHAR_LEN cfg)%nat ->
  terminator c = true ->
  carries (junk ++ body ++ [c]) es ->
  exists s', assemble cfg es s
             = Ok (replicate (CMD_CHAR_LEN cfg) false
                   ++ replicate (length body) false ++ [true], s') /\
    command (app s') = body ++ [ASCII_LF] /\
    rx_holds cfg [] s'.
Proof.
  intros Hcap Hdur Hbuf Hjunk Hjnt Hbnt Hnul Hlen Hc Hes.
  apply carries_app in Hes as (es1 & es23 & -> & Hes1 & Hes23).
  apply carries_app in Hes23 as (es2 & es3 & -> & Hes2 & Hes3).
  apply carries_cons in Hes3 as (e3 & es3' & -> & Hrx3 & Hnil).
  apply carries_nil in Hnil as ->.
  destruct (assemble_bytes junk [] es1 s) as (s1 & Hasm1 & Hbuf1 & Hdur1 & _);
    try done; [cbn; lia..|].
  cbn [length Nat.add] in Hbuf1. rewrite Hjunk, Nat.ltb_irrefl in Hbuf1.
  destruct (assemble_bytes body [] es2 s1) as (s2 & Hasm2 & Hbuf2 & _);
    try done; [cbn; lia..|].
  cbn [length Nat.add app] in Hbuf2.
  destruct (Nat.ltb_spec (length body) (CMD_CHAR_LEN cfg)); [|lia].
  destruct (checkSerialRX_line e3 s2 body c) as (s3 & Hchk & Ha & _ & _ & _ & _ & Hbuf3);
    try done.
  exists s3. rewrite assemble_app, Hasm1, bind_Ok. cbn beta iota.
  rewrite assemble_app, Hasm2, bind_Ok. cbn [assemble]. rewrite Hchk. cbn.
  rewrite Hjunk, Ha. by repeat (split; [done|]).
Qed.

(** ** The range of positions *)

(** C3, as amended. The interpreter accepts the positions in [0,100), the
    top position 99 included. For an argument that [isNumeric] accepts and
    that fits an [int]: a [t] command whose target is outside [0,100) is
    rejected with a message and changes neither the struct nor the
    potentiometer, with or without a duration, and a target inside is
    taken (shown for the form without duration); an [s] command moves the
    potentiometer to the current position plus the argument iff that sum
    is in [0,100), and is rejected with a message and without effect
    otherwise. *)
Theorem positions_0_to_99_accepted now s a1 v :
  16 <= int_bits cfg -> numeral a1 v -> - 2 ^ 15 <= v < 2 ^ 15 - 256 ->
  pot_pos (app s) = position (pot s) -> 0 <= position (pot s) <= 99 ->
  (~ (0 <= v < 100) ->
     (exists s', executeCommand cfg now (line1 "t" a1) s = Ok s' /\
        app s' = app s /\ pot s' = pot s /\
        serial_out s' = serial_out s ++ [OutText "  Throttle out of bounds"]) /\
     (forall a2, a2 <> [] -> word_chars a2 ->
        exists s', executeCommand cfg now (line2 "t" a1 a2) s = Ok s' /\
          app s' = app s /\ pot s' = pot s /\
          serial_out s' = serial_out s ++ [OutText "  Throttle out of bounds"])) /\
  (0 <= v < 100 ->
     exists s', executeCommand cfg now (line1 "t" a1) s = Ok s' /\
       app s' = app s /\ position (pot s') = v /\ serial_out s' = serial_out s) /\
  (0 <= position (pot s) + v < 100 ->
     exists s', executeCommand cfg now (line1 "s" a1) s = Ok s' /\
       app s' = app s /\ position (pot s') = position (pot s) + v /\
       serial_out s' = serial_out s) /\
  (~ (0 <= position (pot s) + v < 100) ->
     exists s', executeCommand cfg now (line1 "s" a1) s = Ok s' /\
       app s' = app s /\ pot s' = pot s /\
       serial_out s' = serial_out s ++ [OutText "  Throttle out of bounds"]).
Proof.
  intros Hbits Hn Hfit Hpp Hpos. repeat split.
  - destruct (executeCommand_t_out_of_range now s "t" a1 v) as [-> _];
      try done; [lia|]. by eexists.
  - intros a2 Hne2 Hw2.
    destruct (executeCommand_t_out_of_range now s "t" a1 v) as [_ ->];
      try done; [lia|]. by eexists.
  - intros Hv. rewrite (executeCommand_t_immediate now s "t" a1 v) by done.
    eexists. split; [reflexivity|]. cbn. repeat split.
    apply (setPosition_in_range v (pot s)). lia.
  - intros Hv. rewrite (executeCommand_s now s "s" a1 v) by (done || lia).
    rewrite Hpp.
    destruct (Z.leb_spec 0 (position (pot s) + v)); [|lia].
    destruct (Z.ltb_spec (position (pot s) + v) 100); [|lia].
    eexists. split; [reflexivity|]. cbn. repeat split.
    apply (setPosition_in_range (position (pot s) + v) (pot s)). lia.
  - intros Hv. rewrite (executeCommand_s now s "s" a1 v) by (done || lia).
    rewrite Hpp.
    assert ((0 <=? position (pot s) + v) && (position (pot s) + v <? 100) = false)
      as ->.
    { apply andb_false_iff.
      destruct (Z.leb_spec 0 (position (pot s) + v)); [right|by left].
      apply Z.ltb_ge. lia. }
    by eexists.
Qed.

(** * Further properties *)

(** ** The tokenizer on whole lines *)

Lemma nextWord_loop_spaces input cur i seps : forall j rest,
  separators seps -> j = i ->
  nextWord_loop input Spaces cur j (seps ++ rest)
  = nextWord_loop input Spaces cur (i + length seps) rest.
Proof.
  induction seps as [|d seps IH] in i |- *; intros j rest Hs ->; cbn.
  - by rewrite Nat.add_0_r.
  - inversion Hs as [|? ? Hd Hs']; subst. rewrite Hd.
    rewrite (IH (S i)) by done. f_equal. lia.
Qed.

Lemma nextWord_loop_unterminated input cur w : forall i,
  word_chars w -> nextWord_loop input Reading cur i w = (NULL, cur).
Proof.
  induction w as [|c w IH]; intros i Hw; cbn; [done|].
  inversion Hw as [|? ? Hc Hw']; subst. rewrite Hc. by apply IH.
Qed.

Lemma nextWord_after_separators pre seps c w sep post :
  separators seps -> word_chars (c :: w) -> is_separator sep = true ->
  nextWord (pre ++ seps ++ (c :: w) ++ sep :: post) false (length pre)
  = (c :: w, (length pre + length seps + length (c :: w) + 1)%nat).
Proof.
  intros Hs Hw Hsep. unfold nextWord.
  destruct (Nat.leb_spec (length (pre ++ seps ++ (c :: w) ++ sep :: post))
              (length pre)) as [Hl|_].
  { rewrite !length_app in Hl. cbn in Hl. lia. }
  rewrite drop_app_length.
  rewrite (nextWord_loop_spaces _ _ (length pre)) by done.
  cbn [List.app nextWord_loop]. inversion Hw as [|? ? Hc Hw']; subst. rewrite Hc.
  rewrite nextWord_loop_reading by done.
  f_equal; [|cbn; lia].
  replace (S (length pre + length seps) + length w)%nat
    with (length (pre ++ seps) + length (c :: w))%nat
    by (rewrite length_app; cbn; lia).
  rewrite (app_assoc pre seps). rewrite <- length_app.
  apply (substring_app (pre ++ seps) (c :: w) (sep :: post)).
Qed.

(** X1. From a cursor that stands before any number of separators, a word
    and a separator, [nextWord] skips the separators, returns the word and
    leaves the cursor behind the separator that ends it. *)
Theorem nextWord_skips_separators pre seps c w sep post :
  separators seps -> word_chars (c :: w) -> is_separator sep = true ->
  nextWord (pre ++ seps ++ (c :: w) ++ sep :: post) false (length pre)
  = (c :: w, (length pre + length seps + length (c :: w) + 1)%nat).
Proof. apply nextWord_after_separators. Qed.

Lemma nextWord_unterminated pre seps w :
  separators seps -> word_chars w ->
  nextWord (pre ++ seps ++ w) false (length pre)
  = (NULL, if w is [] then length pre else (length pre + length seps)%nat).
Proof.
  intros Hs Hw. unfold nextWord.
  destruct (Nat.leb_spec (length (pre ++ seps ++ w)) (length pre)) as [Hl|Hl].
  { rewrite !length_app in Hl. destruct w; [done|cbn in Hl; lia]. }
  rewrite drop_app_length.
  rewrite (nextWord_loop_spaces _ _ (length pre)) by done.
  destruct w as [|c w]; [done|]. cbn.
  inversion Hw as [|? ? Hc Hw']; subst. rewrite Hc.
  by rewrite nextWord_loop_unterminated.
Qed.

(** X2. A last word that no separator follows is never returned: from a
    cursor before separators and such a word, [nextWord] returns NULL; the
    cursor is left on the first character of the word, or where it was
    when there is no further word, so that every later call without reset
    returns NULL again. *)
Theorem nextWord_unterminated_word_is_lost pre seps w :
  separators seps -> word_chars w ->
  let cur' := if w is [] then length pre else (length pre + length seps)%nat in
  nextWord (pre ++ seps ++ w) false (length pre) = (NULL, cur') /\
  nextWord (pre ++ seps ++ w) false cur' = (NULL, cur').
Proof.
  intros Hs Hw. cbn zeta. split; [by apply nextWord_unterminated|].
  destruct w as [|c w]; [by apply nextWord_unterminated|].
  rewrite (app_assoc pre seps), <- length_app.
  pose proof (nextWord_unterminated (pre ++ seps) [] (c :: w)
                ltac:(constructor) Hw) as H.
  cbn [List.app length] in H. by rewrite Nat.add_0_r in H.
Qed.

Lemma unwords_cons w ws :
  exists sep post, unwords (w :: ws) = w ++ sep :: post /\
    is_separator sep = true /\
    (ws = [] -> post = []) /\ (ws <> [] -> post = unwords ws).
Proof.
  destruct ws as [|w' ws].
  - exists ASCII_LF, []. by repeat split.
  - exists ASCII_SPACE, (unwords (w' :: ws)). by repeat split.
Qed.

Lemma nextWord_iter_unwords ws : forall pre,
  Forall (fun w => w <> [] /\ word_chars w) ws -> ws <> [] ->
  nextWord_iter (pre ++ unwords ws) (length ws) (length pre)
  = (ws, (length pre + length (unwords ws))%nat).
Proof.
  induction ws as [|w ws IH]; intros pre Hws Hne; [done|].
  inversion Hws as [|? ? [Hw1 Hw2] Hws']; subst.
  destruct (unwords_cons w ws) as (sep & post & Heq & Hsep & Hnil & Hcons).
  cbn [nextWord_iter length]. rewrite Heq.
  destruct w as [|c w]; [done|].
  rewrite (nextWord_word pre c w sep post) by done.
  destruct ws as [|w' ws].
  - rewrite (Hnil eq_refl). cbn. do 2 f_equal. rewrite length_app. cbn. lia.
  - rewrite (Hcons ltac:(done)).
    assert (H : nextWord_iter (pre ++ (c :: w) ++ sep :: unwords (w' :: ws))
                  (length (w' :: ws)) (S (length pre + S (length w)))
                = (w' :: ws,
                   (length pre
                    + length ((c :: w) ++ sep :: unwords (w' :: ws)))%nat)).
    { specialize (IH (pre ++ (c :: w) ++ [sep]) Hws' ltac:(done)).
      replace (pre ++ (c :: w) ++ sep :: unwords (w' :: ws))
        with ((pre ++ (c :: w) ++ [sep]) ++ unwords (w' :: ws))
        by (by rewrite <- !app_assoc).
      replace (S (length pre + S (length w)))
        with (length (pre ++ (c :: w) ++ [sep]))
        by (rewrite !length_app; cbn; lia).
      rewrite IH. f_equal. rewrite !length_app. cbn. lia. }
    rewrite H. reflexivity.
Qed.

(** X3. Tokenizing what was joined: on the line made of the words [ws]
    (not empty, free of separators), as many calls of [nextWord] as there
    are words, the first with reset, return the words in their order and
    leave the cursor at the end of the line, where the next call returns
    NULL. *)
Theorem nextWord_unwords w ws cur :
  Forall (fun w => w <> [] /\ word_chars w) (w :: ws) ->
  nextWord (unwords (w :: ws)) true cur = (w, S (length w)) /\
  nextWord_iter (unwords (w :: ws)) (length ws) (S (length w))
  = (ws, length (unwords (w :: ws))) /\
  nextWord (unwords (w :: ws)) false (length (unwords (w :: ws)))
  = (NULL, length (unwords (w :: ws))).
Proof.
  intros Hws.
  pose proof (nextWord_iter_unwords (w :: ws) [] Hws ltac:(done)) as H.
  cbn [List.app length nextWord_iter Nat.add] in H.
  assert (H1 : nextWord (unwords (w :: ws)) false 0 = (w, S (length w))).
  { inversion Hws as [|? ? [Hw1 Hw2] _]; subst.
    destruct (unwords_cons w ws) as (sep & post & -> & Hsep & _).
    destruct w as [|c w]; [done|].
    apply (nextWord_word [] c w sep post Hw2 Hsep). }
  rewrite nextWord_reset, H1. rewrite H1 in H.
  destruct (nextWord_iter (unwords (w :: ws)) (length ws) (S (length w)))
    as [ws1 c2].
  injection H as -> ->. repeat split.
  by apply nextWord_exhausted.
Qed.

(** ** Numerals *)

Lemma digit_char c :
  isdigit c = true ->
  isspace c = false /\ Ascii.eqb c "-" = false /\ Ascii.eqb c "+" = false /\
  0 <= Z.of_nat (nat_of_ascii c) - 48 <= 9.
Proof.
  destruct c as [[] [] [] [] [] [] [] []]; vm_compute; intros; try done;
    repeat split; congruence.
Qed.

Lemma atol_digits_stop ds : forall acc c rest,
  digits ds -> isdigit c = false ->
  atol_digits acc (ds ++ c :: rest) = atol_digits acc ds.
Proof.
  induction ds as [|d ds IH]; intros acc c rest Hds Hc; cbn.
  - by rewrite Hc.
  - inversion Hds as [|? ? Hd Hds']; subst. rewrite Hd. by apply IH.
Qed.

Lemma atol_digits_nonneg ds : forall acc,
  digits ds -> 0 <= acc -> 0 <= atol_digits acc ds.
Proof.
  induction ds as [|d ds IH]; intros acc Hds Hacc; cbn; [done|].
  inversion Hds as [|? ? Hd Hds']; subst. rewrite Hd. apply IH; [done|].
  destruct (digit_char d Hd) as (_ & _ & _ & ?). lia.
Qed.

Lemma atol_of_digits d ds rest :
  isdigit d = true -> atol (d :: ds ++ rest) = atol_digits 0 (d :: ds ++ rest).
Proof.
  intros Hd. destruct (digit_char d Hd) as (Hsp & Hm & Hp & _).
  unfold atol. cbn [atol_skip List.app]. by rewrite Hsp, Hm, Hp.
Qed.

Lemma isNumeric_app a b : isNumeric (a ++ b) = isNumeric a && isNumeric b.
Proof. unfold isNumeric. apply forallb_app. Qed.

Lemma digits_isNumeric ds : digits ds -> isNumeric ds = true.
Proof.
  unfold isNumeric. induction 1 as [|d ds Hd _ IH]; cbn; [done|].
  by rewrite Hd, IH.
Qed.

(** X4. What the loose numeric check lets through. For decimal digits
    [ds] (at least one, their value fitting a [long]) and any further
    characters [rest] that are digits or minus signs, the interpreter takes
    [ds-rest] as numeric and reads it as the value of [ds] alone, and
    [-ds-rest] as its negative: the conversion stops at the second sign. A
    lone minus sign, and anything that starts with two of them, is numeric
    as well and reads as 0. *)
Theorem numerals_with_embedded_minus d ds rest :
  digits (d :: ds) -> isNumeric rest = true ->
  atol (d :: ds) <= LONG_MAX ->
  0 <= atol (d :: ds) /\
  numeral ((d :: ds) ++ "-"%char :: rest) (atol (d :: ds)) /\
  numeral ("-"%char :: (d :: ds) ++ "-"%char :: rest) (- atol (d :: ds)) /\
  numeral ["-"%char] 0 /\
  numeral ("-"%char :: "-"%char :: rest) 0.
Proof.
  intros Hds Hrest Hmax.
  inversion Hds as [|? ? Hd Hds']; subst.
  assert (Hval : atol (d :: ds) = atol_digits 0 (d :: ds)).
  { pose proof (atol_of_digits d ds [] Hd) as H. by rewrite app_nil_r in H. }
  assert (Hpos : 0 <= atol (d :: ds)).
  { rewrite Hval. by apply atol_digits_nonneg. }
  assert (Hnum : isNumeric ((d :: ds) ++ "-"%char :: rest) = true).
  { rewrite isNumeric_app, digits_isNumeric by done. cbn. exact Hrest. }
  assert (Hstop : atol_digits 0 ((d :: ds) ++ "-"%char :: rest)
                  = atol_digits 0 (d :: ds)).
  { by apply atol_digits_stop. }
  unfold LONG_MAX in Hmax.
  split; [done|]. split; [|split; [|split]].
  - split; [done|]. split; [done|].
    pose proof (atol_of_digits d ds ("-"%char :: rest) Hd) as Ha.
    change (d :: ds ++ "-"%char :: rest) with ((d :: ds) ++ "-"%char :: rest) in Ha.
    unfold toInt. rewrite Ha, Hstop, <- Hval. unfold LONG_MIN, LONG_MAX.
    destruct (Z.leb_spec (- 2 ^ 31) (atol (d :: ds))); [|lia].
    by destruct (Z.leb_spec (atol (d :: ds)) (2 ^ 31 - 1)); [|lia].
  - split; [done|]. split; [exact Hnum|].
    assert (Ha : atol ("-"%char :: (d :: ds) ++ "-"%char :: rest)
                 = - atol_digits 0 ((d :: ds) ++ "-"%char :: rest))
      by reflexivity.
    unfold toInt. rewrite Ha, Hstop, <- Hval. unfold LONG_MIN, LONG_MAX.
    destruct (Z.leb_spec (- 2 ^ 31) (- atol (d :: ds))); [|lia].
    by destruct (Z.leb_spec (- atol (d :: ds)) (2 ^ 31 - 1)); [|lia].
  - by repeat split.
  - split; [done|]. split; [exact Hrest|]. reflexivity.
Qed.

(** ** What no command does *)

(** Whatever the line, [executeCommand] leaves the statics of the other
    functions alone, writes at most one line of text, and either
    constructs the struct anew or leaves the state of the machine and the
    finished flag as they are. *)
Lemma executeCommand_frame now line s s' :
  executeCommand cfg now line s = Ok s' ->
  ser_i s' = ser_i s /\ input s' = input s /\ old_pot_pos s' = old_pot_pos s /\
  (serial_out s' = serial_out s \/
   exists text, serial_out s' = serial_out s ++ [OutText text]) /\
  (app s' = Application_construct cfg \/
   (appState (app s') = appState (app s) /\
    cmd_finished_flag (app s') = cmd_finished_flag (app s) /\
    serial_timeout_timer (app s') = serial_timeout_timer (app s) /\
    watchdog_timer (app s') = watchdog_timer (app s))).
Proof.
  unfold executeCommand, command_t, command_s, command_w.
  destruct (nextWord (toLowerCase line) true (cur s)) as [word c1].
  repeat match goal with
  | |- context [nextWord ?i false ?c] => destruct (nextWord i false c) as [? ?]
  end.
  repeat (cbn -[Z.abs Z.div Z.modulo Z.pow to_uint32 to_uint64 to_uint8 to_int];
          match goal with
          | |- context [if ?b then _ else _] => destruct b eqn:?
          | |- context [toInt ?a] => destruct (toInt a) eqn:?
          | |- context [udiv ?a ?b] => destruct (udiv a b) eqn:?
          end);
  cbn; try discriminate; intros [= <-]; cbn; eauto 15.
Qed.

Lemma extends_plainly_refl out : extends_plainly out out.
Proof. exists []. by rewrite app_nil_r. Qed.

Lemma extends_plainly_trans out1 out2 out3 :
  extends_plainly out1 out2 -> extends_plainly out2 out3 ->
  extends_plainly out1 out3.
Proof.
  intros (m1 & -> & H1) (m2 & -> & H2). exists (m1 ++ m2).
  by rewrite app_assoc, forallb_app, H1, H2.
Qed.

Lemma extends_plainly_emit o s :
  is_plain o = true -> extends_plainly (serial_out s) (serial_out (emit o s)).
Proof. intros Ho. exists [o]. cbn. by rewrite Ho. Qed.

Lemma count_data_app out1 out2 :
  count_data (out1 ++ out2) = (count_data out1 + count_data out2)%nat.
Proof.
  induction out1 as [|o out1 IH]; cbn; [done|]. destruct o; cbn; rewrite IH; lia.
Qed.

Lemma extends_plainly_counts out out' :
  extends_plainly out out' ->
  count_end out' = count_end out /\ count_data out' = count_data out.
Proof.
  intros (more & -> & Hp). rewrite count_end_app, count_data_app.
  assert (count_end more = 0%nat /\ count_data more = 0%nat) as [-> ->]; [|lia].
  induction more as [|o more IH]; [done|].
  cbn in Hp. apply andb_true_iff in Hp as [Ho Hm].
  destruct (IH Hm) as [IH1 IH2].
  destruct o as [[]| | |]; cbn in *; try done; by rewrite ?IH1, ?IH2.
Qed.

Lemma executeCommand_plain now line s s' :
  executeCommand cfg now line s = Ok s' ->
  extends_plainly (serial_out s) (serial_out s').
Proof.
  intros H. destruct (executeCommand_frame now line s s' H)
    as (_ & _ & _ & [-> | [text ->]] & _).
  - apply extends_plainly_refl.
  - by exists [OutText text].
Qed.

Lemma report_phase_out e s :
  serial_out (report_phase cfg e s)
  = serial_out s
    ++ (if report_due e s then [report_of cfg e s] else [])
    ++ (if cmd_finished_flag (app s) then [OutChar S_E_CHAR] else []) /\
  new_value_flag (app (report_phase cfg e s))
  = negb (report_due e s)
    && (negb (position (pot s) =? old_pot_pos s) || new_value_flag (app s)) /\
  old_pot_pos (report_phase cfg e s) = old_pot_pos s /\
  watchdog_timer (app (report_phase cfg e s)) = watchdog_timer (app s).
Proof.
  unfold report_phase, report_due, report_of, pollPot, getPosition, serialPrintData.
  cbn -[SWTimer_expired SWTimer_start].
  destruct (negb (position (pot s) =? old_pot_pos s)) eqn:Hmoved;
    cbn -[SWTimer_expired SWTimer_start];
    destruct (SWTimer_expired (now e) _) eqn:Hset;
    cbn -[SWTimer_expired SWTimer_start];
    try (destruct (SWTimer_expired (now e) (data_step_timer (app s))) eqn:Hdata);
    cbn -[SWTimer_expired SWTimer_start];
    try (destruct (new_value_flag (app s)) eqn:Hflag);
    cbn -[SWTimer_expired SWTimer_start];
    destruct (cmd_finished_flag (app s)); cbn;
    rewrite <- ?app_assoc, ?app_nil_r; done.
Qed.

Lemma checkSerialRX_plain e s b s1 :
  checkSerialRX cfg e s = Ok (b, s1) ->
  extends_plainly (serial_out s) (serial_out s1) /\
  watchdog_timer (app s1) = watchdog_timer (app s).
Proof.
  unfold checkSerialRX. destruct (rx e) as [byte|]; cbn.
  - destruct (_ <=? _)%nat; [done|]. cbn.
    destruct (Ascii.eqb (nth _ _ _) _); cbn.
    + destruct (c_str _) as [line|]; [|done]. cbn.
      unfold checkPriority.
      destruct (ECHO_EN cfg), (Ascii.eqb (nth 0 _ _) "q"); cbn;
        rewrite orb_true_r; intros [= <- <-]; cbn; (split; [|done]);
        first [apply extends_plainly_refl | by exists [OutEcho line]].
    + destruct (_ || _ || _); intros [= <- <-]; (split; [|done]);
        apply extends_plainly_refl.
  - destruct (_ || _ || _); intros [= <- <-]; (split; [|done]);
      apply extends_plainly_refl.
Qed.

(** Whatever arrives, [primaryFSM] writes neither a data report nor an
    end-of-command marker, and raises the finished flag only together with
    the return to Idle from another state. *)
Lemma primaryFSM_general e s s' :
  primaryFSM cfg e s = Ok s' ->
  extends_plainly (serial_out s) (serial_out s') /\
  (cmd_finished_flag (app s) = false ->
   cmd_finished_flag (app s') = false \/
   (appState (app s') = Idle /\ appState (app s) <> Idle)).
Proof.
  unfold primaryFSM.
  destruct (checkSerialRX cfg e s) as [[b s1]|] eqn:Hrx; [|done]. cbn.
  destruct (checkSerialRX_frame _ _ _ _ Hrx) as [Hc _ _ _ _].
  destruct (checkSerialRX_plain _ _ _ _ Hrx) as [Hplain _].
  unfold control in Hc. injection Hc as Hst Hsteps Htgt Hwait Hlin Hfin Hpos1 Hends.
  destruct (appState (app s)) eqn:Est.
  - destruct b.
    + destruct (executeCommand cfg (now e) (command (app s1))
                  (emit (OutChar S_R_CHAR) s1)) as [s2|] eqn:Hex; [|done].
      cbn. intros [= <-]. cbn.
      destruct (executeCommand_frame _ _ _ _ Hex) as (_ & _ & _ & _ & Happ).
      split.
      * eapply extends_plainly_trans; [exact Hplain|].
        eapply extends_plainly_trans; [|by eapply executeCommand_plain].
        by apply extends_plainly_emit.
      * intros Hf. left. destruct Happ as [-> | (_ & -> & _)]; [done|].
        cbn. congruence.
    + cbn. intros [= <-]. cbn. split; [done|]. intros Hf. left. congruence.
  - destruct (negb (SWTimer_expired _ _)); cbn;
      [|destruct (negb (_ =? 0)); cbn]; intros [= <-]; cbn;
      (split; [done|]); intros Hf; first [left; congruence | by right].
  - destruct (SWTimer_expired _ _); cbn; intros [= <-]; cbn;
      (split; [done|]); intros Hf; first [left; congruence | by right].
  - destruct (SWTimer_expired _ _); cbn;
      destruct (_ =? 0); cbn; intros [= <-]; cbn;
      (split; [done|]); intros Hf; first [left; congruence | by right].
Qed.

Lemma priority_phase_general e s s' :
  priority_phase cfg e s = Ok s' ->
  extends_plainly (serial_out s) (serial_out s') /\
  (app s' = Application_construct cfg \/
   (appState (app s') = appState (app s) /\
    cmd_finished_flag (app s') = cmd_finished_flag (app s))).
Proof.
  unfold priority_phase. destruct (cmd_high_priority (app s)).
  - destruct (executeCommand cfg (now e) (command (app s))
                (emit (OutChar S_HP_CHAR) s)) as [s2|] eqn:Hex; [|done].
    cbn. intros [= <-]. cbn.
    destruct (executeCommand_frame _ _ _ _ Hex) as (_ & _ & _ & _ & Happ).
    split.
    + eapply extends_plainly_trans; [|by eapply executeCommand_plain].
      by apply extends_plainly_emit.
    + destruct Happ as [-> | (-> & -> & _)]; [by left|by right].
  - cbn. intros [= <-]. cbn. split; [apply extends_plainly_refl|by right].
Qed.

(** ** The end-of-command marker *)

Lemma loop_end_marker e s s' :
  Application_loop cfg e s = Ok s' ->
  count_end (serial_out s')
  = (count_end (serial_out s)
     + (if cmd_finished_flag (app s) then 1 else 0))%nat /\
  (cmd_finished_flag (app s') = true -> appState (app s') = Idle).
Proof.
  rewrite Application_loop_phases.
  destruct (primaryFSM cfg e (report_phase cfg e s)) as [s1|] eqn:Hfsm; [|done].
  cbn. intros Hprio.
  destruct (report_phase_frame e s) as [_ _ _ _ _ _ _ _ Hctl].
  destruct (primaryFSM_general _ _ _ Hfsm) as [Hp1 Hflag1].
  destruct (priority_phase_general _ _ _ Hprio) as [Hp2 Happ].
  destruct (extends_plainly_counts _ _ (extends_plainly_trans _ _ _ Hp1 Hp2))
    as [-> _].
  assert (Hfin0 : cmd_finished_flag (app (report_phase cfg e s)) = false).
  { change (c_finished (control (report_phase cfg e s)) = false).
    rewrite Hctl. unfold consume_finished.
    by destruct (c_finished (control s)) eqn:E. }
  split.
  - change (c_ends (control (report_phase cfg e s))
            = (c_ends (control s) + (if c_finished (control s) then 1 else 0))%nat).
    rewrite Hctl. unfold consume_finished.
    destruct (c_finished (control s)); cbn; lia.
  - intros Hf. destruct Happ as [Hnew | [Hst Hfl]].
    + rewrite Hnew in Hf. done.
    + rewrite Hfl in Hf. rewrite Hst.
      destruct (Hflag1 Hfin0) as [Hno | [Hidle _]]; congruence.
Qed.

(** X5. Whatever a poll cycle receives, it writes one end-of-command marker
    if it starts with the finished flag up and none otherwise; and when it
    ends with the flag up the machine is in Idle. *)
Theorem end_marker_follows_the_flag e s s' :
  Application_loop cfg e s = Ok s' ->
  count_end (serial_out s')
  = (count_end (serial_out s)
     + (if cmd_finished_flag (app s) then 1 else 0))%nat /\
  (cmd_finished_flag (app s') = true -> appState (app s') = Idle).
Proof. apply loop_end_marker. Qed.

(** X6. The finished flag is never up at the end of two poll cycles in
    succession, whatever they receive: a completion is flagged for one
    cycle and marked once. *)
Theorem finished_flag_lasts_one_cycle e1 e2 s s1 s2 :
  Application_loop cfg e1 s = Ok s1 ->
  Application_loop cfg e2 s1 = Ok s2 ->
  cmd_finished_flag (app s1) = true ->
  cmd_finished_flag (app s2) = false /\
  count_end (serial_out s2) = S (count_end (serial_out s1)).
Proof.
  intros H1 H2 Hf1.
  destruct (loop_end_marker e1 s s1 H1) as [_ Hidle].
  specialize (Hidle Hf1).
  destruct (loop_end_marker e2 s1 s2 H2) as [Hcount _].
  rewrite Hf1 in Hcount. split; [|lia].
  rewrite Application_loop_phases in H2.
  destruct (primaryFSM cfg e2 (report_phase cfg e2 s1)) as [s1'|] eqn:Hfsm; [|done].
  cbn in H2.
  destruct (report_phase_frame e2 s1) as [_ _ _ _ _ _ _ _ Hctl].
  assert (Hr : cmd_finished_flag (app (report_phase cfg e2 s1)) = false /\
               appState (app (report_phase cfg e2 s1)) = Idle).
  { change (c_finished (control (report_phase cfg e2 s1)) = false /\
            c_state (control (report_phase cfg e2 s1)) = Idle).
    rewrite Hctl. unfold consume_finished. cbn. by rewrite Hf1. }
  destruct Hr as [Hfin0 Hst0].
  destruct (primaryFSM_general _ _ _ Hfsm) as [_ Hflag1].
  destruct (priority_phase_general _ _ _ H2) as [_ Happ].
  destruct (Hflag1 Hfin0) as [Hno | [_ Hne]]; [|done].
  destruct Happ as [-> | [_ ->]]; done.
Qed.

(** ** The telemetry reports *)

Lemma loop_data_count e s s' :
  Application_loop cfg e s = Ok s' ->
  count_data (serial_out s')
  = (count_data (serial_out s) + (if report_due e s then 1 else 0))%nat /\
  (report_due e s = true -> In (report_of cfg e s) (serial_out s')).
Proof.
  rewrite Application_loop_phases.
  destruct (primaryFSM cfg e (report_phase cfg e s)) as [s1|] eqn:Hfsm; [|done].
  cbn. intros Hprio.
  destruct (primaryFSM_general _ _ _ Hfsm) as [Hp1 _].
  destruct (priority_phase_general _ _ _ Hprio) as [Hp2 _].
  pose proof (extends_plainly_trans _ _ _ Hp1 Hp2) as Hp.
  destruct (extends_plainly_counts _ _ Hp) as [_ ->].
  destruct (report_phase_out e s) as (Hout & _).
  destruct Hp as (more & -> & _). rewrite Hout. split.
  - rewrite !count_data_app.
    destruct (report_due e s), (cmd_finished_flag (app s)); cbn; lia.
  - intros ->. apply in_or_app. left. apply in_or_app. right. by left.
Qed.

(** X7. The telemetry gate. Whatever a poll cycle receives, it writes at
    most one data report, and a report carries the sample polled in that
    cycle. With a settling interval that is not zero, no report is written
    in a cycle that finds the position changed since the last cycle, nor
    while the settling timer runs; once it has expired and the position is
    unchanged, a report is written iff a new value is flagged or the
    cadence timer has expired. *)
Theorem telemetry_gate e s s' :
  Application_loop cfg e s = Ok s' ->
  0 < duration (adc_settling_timer (app s)) ->
  (count_data (serial_out s') = count_data (serial_out s) \/
   (count_data (serial_out s') = S (count_data (serial_out s)) /\
    In (OutData (adc e) (position (pot s)) (getOhm cfg (position (pot s)))
          (now e)) (serial_out s'))) /\
  (position (pot s) <> old_pot_pos s ->
   count_data (serial_out s') = count_data (serial_out s)) /\
  (position (pot s) = old_pot_pos s ->
   SWTimer_expired (now e) (adc_settling_timer (app s)) = false ->
   count_data (serial_out s') = count_data (serial_out s)) /\
  (position (pot s) = old_pot_pos s ->
   SWTimer_expired (now e) (adc_settling_timer (app s)) = true ->
   (count_data (serial_out s') = S (count_data (serial_out s)) <->
    new_value_flag (app s) = true \/
    SWTimer_expired (now e) (data_step_timer (app s)) = true)).
Proof.
  intros Hloop Hdur. destruct (loop_data_count e s s' Hloop) as [Hcount Hin].
  unfold report_due in *. split; [|split; [|split]].
  - destruct (_ && _); [right|left]; [split; [lia|by apply Hin]|lia].
  - intros Hmoved. apply Z.eqb_neq in Hmoved.
    rewrite Hmoved in Hcount. cbn [negb] in Hcount.
    rewrite SWTimer_started_running in Hcount by done. cbn in Hcount. lia.
  - intros Hsame Hrun. apply Z.eqb_eq in Hsame.
    rewrite Hsame in Hcount. cbn [negb] in Hcount. rewrite Hrun in Hcount.
    cbn in Hcount. lia.
  - intros Hsame Hexp. apply Z.eqb_eq in Hsame.
    rewrite Hsame in Hcount. cbn [negb] in Hcount. rewrite Hexp in Hcount.
    cbn [andb] in Hcount. rewrite orb_false_r in Hcount.
    destruct (SWTimer_expired (now e) (data_step_timer (app s))),
      (new_value_flag (app s)); cbn in Hcount; split; intros; try lia;
      try (by left); try (by right); by destruct H.
Qed.

(** ** The line buffer *)

Lemma c_str_full l : nul_free l -> c_str l = Fault BufferOverrun.
Proof.
  induction 1 as [|c l Hc _ IH]; cbn; [done|]. by rewrite Hc, IH.
Qed.

Lemma checkSerialRX_keeps_buffer e s b s1 :
  (CMD_CHAR_LEN cfg <= 255)%nat -> rx_wf cfg s ->
  checkSerialRX cfg e s = Ok (b, s1) -> rx_wf cfg s1.
Proof.
  intros Hcap (body & [Hi Hbuf] & Hlen).
  assert (Hclear : forall s0, rx_wf cfg
            (set_rx 0 (replicate (CMD_CHAR_LEN cfg) ASCII_NUL) s0)).
  { intros s0. exists []. split; [|cbn; lia]. split; [done|]. cbn.
    by rewrite Nat.sub_0_r. }
  unfold checkSerialRX. destruct (rx e) as [byte|]; cbn.
  - rewrite Hi. destruct (Nat.leb_spec (CMD_CHAR_LEN cfg) (length body)); [lia|].
    cbn. rewrite Hbuf.
    replace (CMD_CHAR_LEN cfg - length body)%nat
      with (S (CMD_CHAR_LEN cfg - S (length body))) by lia.
    rewrite insert_rx_buffer.
    set (ch := if Ascii.eqb byte ASCII_CR then ASCII_LF else byte).
    assert (nth (length body) ((body ++ [ch]) ++
              replicate (CMD_CHAR_LEN cfg - S (length body)) ASCII_NUL) ASCII_NUL
            = ch) as ->.
    { rewrite <- app_assoc. apply nth_middle_app. }
    destruct (Ascii.eqb ch ASCII_LF) eqn:Hch; cbn.
    + destruct (c_str _) as [line|]; [|done]. cbn. rewrite orb_true_r.
      destruct (ECHO_EN cfg); intros [= <- <-]; apply Hclear.
    + rewrite Nat.mod_small by lia.
      destruct (_ || _) eqn:Hreset; intros [= <- <-]; [apply Hclear|].
      apply orb_false_elim in Hreset as [Hreset _].
      apply orb_false_elim in Hreset as [_ Hroom].
      apply Nat.leb_gt in Hroom.
      exists (body ++ [ch]). rewrite length_app. cbn [length].
      split; [|lia]. split; cbn; [by rewrite length_app|].
      f_equal. f_equal. rewrite length_app. cbn. lia.
  - destruct (_ || _ || _); intros [= <- <-]; [apply Hclear|].
    exists body. by repeat split.
Qed.

Lemma rx_wf_same s s' :
  ser_i s' = ser_i s -> input s' = input s -> rx_wf cfg s -> rx_wf cfg s'.
Proof.
  intros Hi Hb (body & [Hi0 Hb0] & Hlen). exists body.
  split; [split; congruence|done].
Qed.

Lemma priority_phase_rx e s s' :
  priority_phase cfg e s = Ok s' -> ser_i s' = ser_i s /\ input s' = input s.
Proof.
  unfold priority_phase. destruct (cmd_high_priority (app s)).
  - destruct (executeCommand cfg (now e) (command (app s))
                (emit (OutChar S_HP_CHAR) s)) as [s2|] eqn:Hex; [|done].
    cbn. intros [= <-]. cbn.
    by destruct (executeCommand_frame _ _ _ _ Hex) as (-> & -> & _).
  - cbn. by intros [= <-].
Qed.

Lemma primaryFSM_rx e s s' :
  primaryFSM cfg e s = Ok s' ->
  exists b s1, checkSerialRX cfg e s = Ok (b, s1) /\
    ser_i s' = ser_i s1 /\ input s' = input s1.
Proof.
  unfold primaryFSM.
  destruct (checkSerialRX cfg e s) as [[b s1]|] eqn:Hrx; [|done]. cbn.
  intros H. exists b, s1. split; [done|]. revert H.
  destruct (appState (app s)).
  - destruct b.
    + destruct (executeCommand cfg (now e) (command (app s1))
                  (emit (OutChar S_R_CHAR) s1)) as [s2|] eqn:Hex; [|done].
      cbn. intros [= <-]. cbn.
      by destruct (executeCommand_frame _ _ _ _ Hex) as (-> & -> & _).
    + cbn. by intros [= <-].
  - destruct (negb (SWTimer_expired _ _)); cbn;
      [|destruct (negb (_ =? 0)); cbn]; by intros [= <-].
  - destruct (SWTimer_expired _ _); cbn; by intros [= <-].
  - destruct (SWTimer_expired _ _); cbn; destruct (_ =? 0); cbn; by intros [= <-].
Qed.

Lemma loop_keeps_buffer e s s' :
  (CMD_CHAR_LEN cfg <= 255)%nat -> rx_wf cfg s ->
  Application_loop cfg e s = Ok s' -> rx_wf cfg s'.
Proof.
  intros Hcap Hwf. rewrite Application_loop_phases.
  destruct (primaryFSM cfg e (report_phase cfg e s)) as [s2|] eqn:Hfsm; [|done].
  cbn. intros Hprio.
  destruct (report_phase_frame e s) as [_ _ _ _ _ Hri Hrb _ _].
  destruct (primaryFSM_rx _ _ _ Hfsm) as (b & s1 & Hrx & Hi2 & Hb2).
  destruct (priority_phase_rx _ _ _ Hprio) as [Hi3 Hb3].
  apply (rx_wf_same s2); [done..|]. apply (rx_wf_same s1); [done..|].
  apply (checkSerialRX_keeps_buffer e (report_phase cfg e s) b s1); [done| |done].
  by apply (rx_wf_same s).
Qed.

(** X8. The write index never leaves the line buffer. With a capacity
    between 1 and 255, every state that a run of poll cycles reaches from
    the state after start-up, whatever bytes arrive and whenever, has the
    index [ser_i] below [CMD_CHAR_LEN], the buffer of that length, and only
    NUL characters from the index on. *)
Theorem write_index_stays_in_buffer es s' :
  (0 < CMD_CHAR_LEN cfg <= 255)%nat ->
  run cfg es (setup cfg) = Ok s' ->
  (ser_i s' < CMD_CHAR_LEN cfg)%nat /\
  length (input s') = CMD_CHAR_LEN cfg /\
  drop (ser_i s') (input s')
  = replicate (CMD_CHAR_LEN cfg - ser_i s') ASCII_NUL.
Proof.
  intros [Hpos Hcap] Hrun.
  assert (Hwf : rx_wf cfg s').
  { assert (H0 : rx_wf cfg (setup cfg)).
    { exists []. split; [|cbn; lia]. split; [done|]. cbn. by rewrite Nat.sub_0_r. }
    revert Hrun H0. generalize (setup cfg). induction es as [|e es IH]; intros s Hrun Hs.
    - cbn in Hrun. by injection Hrun as <-.
    - cbn in Hrun. destruct (Application_loop cfg e s) as [s1|] eqn:Hloop; [|done].
      cbn in Hrun. apply (IH s1 Hrun). by apply (loop_keeps_buffer e s). }
  destruct Hwf as (body & [Hi Hb] & Hlen). rewrite Hi, Hb.
  split; [done|]. split.
  - rewrite length_app, length_replicate. lia.
  - by rewrite drop_app_length.
Qed.

(** X9. A line that fills the buffer to its last character is read past the
    end of the buffer. When the terminator of a line without NUL arrives
    with [CMD_CHAR_LEN - 1] characters buffered, no NUL is left in the
    buffer, and making the command string from it runs past the array:
    [checkSerialRX] faults, and so does the poll cycle, whatever the state
    of the machine. *)
Theorem line_filling_the_buffer_overruns e s body c :
  rx e = Some c -> terminator c = true ->
  rx_holds cfg body s -> nul_free body ->
  S (length body) = CMD_CHAR_LEN cfg ->
  checkSerialRX cfg e s = Fault BufferOverrun /\
  Application_loop cfg e s = Fault BufferOverrun.
Proof.
  intros Hrx Hc Hbuf Hnul Hlen.
  assert (Hchk : forall s0, rx_holds cfg body s0 ->
            checkSerialRX cfg e s0 = Fault BufferOverrun).
  { intros s0 [Hi Hb]. unfold checkSerialRX. rewrite Hrx. cbn.
    assert ((if Ascii.eqb c ASCII_CR then ASCII_LF else c) = ASCII_LF) as ->.
    { unfold terminator in Hc. destruct (Ascii.eqb c ASCII_CR); [done|].
      rewrite orb_false_r in Hc. by apply Ascii.eqb_eq. }
    rewrite Hi. destruct (Nat.leb_spec (CMD_CHAR_LEN cfg) (length body)); [lia|].
    cbn. rewrite Hb.
    replace (CMD_CHAR_LEN cfg - length body)%nat with 1%nat by lia.
    change (replicate 1 ASCII_NUL) with (replicate (S 0) ASCII_NUL).
    rewrite insert_rx_buffer. cbn [replicate]. rewrite app_nil_r.
    rewrite (nth_middle_app body ASCII_LF []).
    cbn [Ascii.eqb ASCII_LF Bool.eqb]. cbn match.
    rewrite c_str_full; [done|].
    apply nul_free_app; [done|by repeat constructor]. }
  split; [by apply Hchk|].
  rewrite Application_loop_phases. unfold primaryFSM.
  rewrite Hchk; [done|].
  destruct (report_phase_frame e s) as [_ _ _ _ _ Hri Hrb _ _].
  destruct Hbuf. split; congruence.
Qed.

(** X10. The inactivity timeout of the line assembler. After a byte that
    does not end a line was buffered at the clock value [now e0], a cycle
    without a byte keeps the buffer as long as its clock value is below
    [now e0] plus the timeout, and clears it from then on: a line that
    stalls is discarded, and exactly then. *)
Theorem stalled_line_is_discarded e0 e1 s body c :
  (CMD_CHAR_LEN cfg <= 255)%nat ->
  0 < duration (serial_timeout_timer (app s)) ->
  rx e0 = Some c -> terminator c = false -> quiet e1 ->
  rx_holds cfg body s -> (S (length body) < CMD_CHAR_LEN cfg)%nat ->
  exists s1 s2,
    checkSerialRX cfg e0 s = Ok (false, s1) /\
    checkSerialRX cfg e1 s1 = Ok (false, s2) /\
    (now e1 < now e0 + duration (serial_timeout_timer (app s)) ->
     s2 = s1 /\ rx_holds cfg (body ++ [c]) s2) /\
    (now e0 + duration (serial_timeout_timer (app s)) <= now e1 ->
     rx_holds cfg [] s2).
Proof.
  intros Hcap Hdur Hrx Hc Hq [Hi Hb] Hlen.
  destruct (checkSerialRX_byte e0 s body c) as (s1 & Hchk & Ha & _ & _ & _ & _ & Hbuf1);
    try done; [lia|].
  destruct (Nat.ltb_spec (S (length body)) (CMD_CHAR_LEN cfg)); [|lia].
  exists s1. unfold checkSerialRX at 2. rewrite Hq. cbn.
  rewrite Ha. cbn. destruct Hbuf1 as [Hi1 Hb1]. rewrite Hi1, length_app. cbn.
  destruct (Nat.leb_spec (CMD_CHAR_LEN cfg) (length body + 1)); [lia|].
  rewrite orb_false_r.
  destruct (Z.leb_spec (now e0 + duration (serial_timeout_timer (app s))) (now e1)).
  - eexists. split; [done|]. split; [done|]. split; [lia|]. intros _.
    split; [done|]. cbn. by rewrite Nat.sub_0_r.
  - exists s1. split; [done|]. split; [done|]. split; [|lia]. intros _.
    split; [done|]. by split.
Qed.

(** ** Rejections *)

Lemma tolower_facts c :
  is_separator (tolower c) = is_separator c /\
  (isdigit (tolower c) || Ascii.eqb (tolower c) "-")
  = (isdigit c || Ascii.eqb c "-") /\
  (is_separator c = true -> tolower c = c).
Proof.
  destruct c as [[] [] [] [] [] [] [] []]; vm_compute; repeat split; congruence.
Qed.

Lemma separators_lower l : separators l -> toLowerCase l = l.
Proof.
  unfold toLowerCase. induction 1 as [|c l Hc _ IH]; cbn; [done|].
  rewrite IH. f_equal. by apply tolower_facts.
Qed.

Lemma word_chars_lower w : word_chars w -> word_chars (toLowerCase w).
Proof.
  unfold word_chars, toLowerCase. induction 1 as [|c w Hc _ IH]; cbn; constructor;
    [|done]. destruct (tolower_facts c) as [-> _]. done.
Qed.

Lemma isNumeric_toLowerCase a : isNumeric (toLowerCase a) = isNumeric a.
Proof.
  unfold isNumeric, toLowerCase. induction a as [|c a IH]; cbn; [done|].
  destruct (tolower_facts c) as (_ & -> & _). by rewrite IH.
Qed.

(** X11. What is not a command is rejected and changes nothing. A line of
    separators only (the empty line among them), and a line whose first
    word starts with a letter other than t, s, w, r and q in either case,
    make [executeCommand] write "Unknown command type" and leave the
    application struct and the potentiometer as they are, whatever
    separators stand before the word and whatever follows it. *)
Theorem unknown_command_is_rejected now s seps :
  separators seps ->
  executeCommand cfg now seps s
  = Ok (emit (OutText "  Unknown command type") (set_cur 0 s)) /\
  forall l rest,
    is_separator l = false ->
    ~ In (tolower l) ["t"; "s"; "w"; "r"; "q"]%char ->
    exists c,
      executeCommand cfg now (seps ++ l :: rest ++ [ASCII_LF]) s
      = Ok (emit (OutText "  Unknown command type") (set_cur c s)).
Proof.
  intros Hs. split.
  - unfold executeCommand. rewrite separators_lower, nextWord_reset by done.
    pose proof (nextWord_unterminated [] seps [] Hs ltac:(constructor)) as H.
    rewrite app_nil_r in H. cbn [List.app length] in H. by rewrite H.
  - intros l rest Hl Hnot. unfold executeCommand.
    destruct (first_word_split (toLowerCase rest))
      as (w & sep & post & Heq & Hw & Hsep).
    assert (Hline : toLowerCase (seps ++ l :: rest ++ [ASCII_LF])
                    = [] ++ seps ++ (tolower l :: w) ++ sep :: post).
    { unfold toLowerCase in *. rewrite map_app. cbn [map List.app].
      rewrite map_app. cbn [map]. change (tolower ASCII_LF) with ASCII_LF.
      rewrite Heq. f_equal. by apply separators_lower. }
    rewrite Hline, nextWord_reset.
    assert (Hlw : word_chars (tolower l :: w)).
    { constructor; [|done]. by destruct (tolower_facts l) as [-> _]. }
    pose proof (nextWord_after_separators [] seps (tolower l) w sep post
                  Hs Hlw Hsep) as Hw1.
    cbn [length Nat.add] in Hw1. rewrite Hw1.
    cbn [charAt nth].
    assert (Hne : forall x, In x ["t"; "s"; "w"; "r"; "q"]%char ->
                     Ascii.eqb (tolower l) x = false).
    { intros x Hx. apply Ascii.eqb_neq. intros E. by rewrite <- E in Hx. }
    rewrite !Hne by (cbn; tauto). cbn. by eexists.
Qed.


Lemma toLowerCase_app a b : toLowerCase (a ++ b) = toLowerCase a ++ toLowerCase b.
Proof. apply map_app. Qed.

Lemma toLowerCase_length a : length (toLowerCase a) = length a.
Proof. apply length_map. Qed.

Lemma toLowerCase_nonempty a : a <> [] -> toLowerCase a <> [].
Proof. by destruct a. Qed.

(** The first two words of a lower-cased line [<l><w0><sep><seps><tail>]:
    the command word, and what the tokenizer finds from the cursor behind
    its separator. *)
Lemma command_head l w0 sep seps tail :
  is_separator l = false -> word_chars w0 -> is_separator sep = true ->
  toLowerCase (l :: w0 ++ sep :: seps ++ tail)
  = (tolower l :: toLowerCase w0 ++ [sep]) ++ toLowerCase seps ++ toLowerCase tail /\
  nextWord ((tolower l :: toLowerCase w0 ++ [sep])
              ++ toLowerCase seps ++ toLowerCase tail) false 0
  = (tolower l :: toLowerCase w0, length (tolower l :: toLowerCase w0 ++ [sep])).
Proof.
  intros Hl Hw Hsep. split.
  - change (l :: w0 ++ sep :: seps ++ tail) with ([l] ++ w0 ++ [sep] ++ seps ++ tail).
    rewrite !toLowerCase_app. cbn [toLowerCase map List.app].
    destruct (tolower_facts sep) as (_ & _ & Hlsep). rewrite (Hlsep Hsep).
    by rewrite <- !app_assoc.
  - assert (Hlw : word_chars (tolower l :: toLowerCase w0)).
    { constructor; [by destruct (tolower_facts l) as [-> _]|].
      by apply word_chars_lower. }
    pose proof (nextWord_after_separators [] [] (tolower l) (toLowerCase w0) sep
                  (toLowerCase seps ++ toLowerCase tail)
                  ltac:(constructor) Hlw Hsep) as H.
    cbn [List.app length Nat.add] in H.
    cbn [List.app length]. rewrite <- app_assoc. cbn [List.app].
    rewrite H. f_equal. rewrite length_app. cbn [length]. lia.
Qed.

Lemma command_letter l :
  In (tolower l) ["t"; "s"; "w"; "r"; "q"]%char -> is_separator l = false.
Proof.
  intros H. destruct (tolower_facts l) as [<- _].
  cbn in H. by destruct H as [<-|[<-|[<-|[<-|[<-|[]]]]]].
Qed.

(** X12. A first argument that is missing or not numeric is rejected. For
    a command word that starts with t, s or w in either case, a line that
    ends after the word and its separators, and a line whose next word has
    a character other than a digit or a minus sign, make [executeCommand]
    write "Bad argument for command '<letter>'" and leave the application
    struct and the potentiometer as they are, whatever follows that
    word. *)
Theorem bad_argument_is_rejected now s l w0 sep seps :
  In (tolower l) ["t"; "s"; "w"]%char ->
  word_chars w0 -> is_separator sep = true -> separators seps ->
  (exists c,
     executeCommand cfg now (l :: w0 ++ sep :: seps) s
     = Ok (emit (OutText (bad_argument (tolower l))) (set_cur c s))) /\
  forall a sep2 post,
    a <> [] -> word_chars a -> isNumeric a = false -> is_separator sep2 = true ->
    exists c,
      executeCommand cfg now (l :: w0 ++ sep :: seps ++ a ++ sep2 :: post) s
      = Ok (emit (OutText (bad_argument (tolower l))) (set_cur c s)).
Proof.
  intros Hin Hw0 Hsep Hs.
  assert (Hl : is_separator l = false).
  { apply command_letter. cbn in *. tauto. }
  split.
  - destruct (command_head l w0 sep seps [] Hl Hw0 Hsep) as [Hlow Hhead].
    change (toLowerCase []) with (@nil ascii) in Hlow, Hhead.
    rewrite app_nil_r in Hlow at 1. unfold executeCommand.
    rewrite Hlow, nextWord_reset, Hhead. cbn [charAt nth].
    pose proof (nextWord_unterminated (tolower l :: toLowerCase w0 ++ [sep])
                  (toLowerCase seps) [] ltac:(by rewrite separators_lower)
                  ltac:(constructor)) as Harg.
    cbn in Hin. destruct Hin as [E|[E|[E|[]]]]; rewrite <- E in *;
      cbn [Ascii.eqb Bool.eqb];
      unfold command_t, command_s, command_w; rewrite Harg, ?Harg;
      cbn; by eexists.
  - intros a sep2 post Hne Ha Hnum Hsep2.
    destruct (command_head l w0 sep seps (a ++ sep2 :: post) Hl Hw0 Hsep)
      as [Hlow Hhead].
    unfold executeCommand. rewrite Hlow, nextWord_reset, Hhead. cbn [charAt nth].
    rewrite toLowerCase_app.
    assert (Hla : exists c w, toLowerCase a = c :: w).
    { destruct a; [done|]. by eexists _, _. }
    destruct Hla as (c & w & Hla).
    pose proof (nextWord_after_separators (tolower l :: toLowerCase w0 ++ [sep])
                  (toLowerCase seps) c w sep2 (toLowerCase post)
                  ltac:(by rewrite separators_lower)
                  ltac:(rewrite <- Hla; by apply word_chars_lower) Hsep2) as Harg.
    assert (Hn : isNumeric (c :: w) = false).
    { by rewrite <- Hla, isNumeric_toLowerCase. }
    change (toLowerCase (sep2 :: post)) with (tolower sep2 :: toLowerCase post).
    destruct (tolower_facts sep2) as (_ & _ & Hlsep). rewrite (Hlsep Hsep2).
    rewrite Hla.
    cbn in Hin. destruct Hin as [E|[E|[E|[]]]]; rewrite <- E in *;
      cbn [Ascii.eqb Bool.eqb];
      unfold command_t, command_s, command_w; rewrite Harg;
      repeat match goal with
             | |- context [nextWord ?i ?r ?k] => destruct (nextWord i r k)
             end;
      rewrite Hn; cbn; by eexists.
Qed.


(** ** The wait command and the report command *)

Lemma executeCommand_w now s l a1 d :
  tolower l = "w"%char -> numeral a1 d ->
  executeCommand cfg now (line1 l a1) s
  = Ok (if 0 <? to_int cfg d
        then set_cur (3 + length a1) (on_app (wait_armed now (to_int cfg d)) s)
        else emit (OutText "  Time out of bounds") (set_cur (3 + length a1) s)) /\
  (16 <= int_bits cfg -> - 2 ^ 15 <= d < 2 ^ 15 -> to_int cfg d = d).
Proof.
  intros Hl (Hne1 & Hn1 & Hv1). split; [|apply to_int_small].
  unfold executeCommand.
  rewrite toLowerCase_line1, Hl, isNumeric_lower by done.
  rewrite nextWord_reset.
  change (line1 "w" a1) with ("w"%char :: ASCII_SPACE :: a1 ++ [ASCII_LF]) at 1.
  rewrite nextWord_letter by done.
  cbn [charAt nth]. cbn [Ascii.eqb Bool.eqb].
  unfold command_w.
  change (line1 "w" a1) with ("w"%char :: ASCII_SPACE :: a1 ++ [ASCII_LF]) at 1.
  rewrite nextWord_arg1 by (by auto using isNumeric_word).
  rewrite Hn1, Hv1, bind_Ok.
  by destruct (0 <? to_int cfg d).
Qed.

(** X13. The wait command [w <d>]. The duration is narrowed to an [int]:
    when the narrowed value is positive the wait timer is armed with it at
    the current clock value and nothing is written; otherwise the command
    is rejected with "Time out of bounds" and changes nothing. For a
    duration that fits 16 bits the narrowed value is the duration itself,
    so every duration of zero or less is rejected. *)
Theorem wait_command_validation now s l a1 d :
  tolower l = "w"%char -> numeral a1 d ->
  executeCommand cfg now (line1 l a1) s
  = Ok (if 0 <? to_int cfg d
        then set_cur (3 + length a1) (on_app (wait_armed now (to_int cfg d)) s)
        else emit (OutText "  Time out of bounds") (set_cur (3 + length a1) s)) /\
  (16 <= int_bits cfg -> - 2 ^ 15 <= d < 2 ^ 15 -> to_int cfg d = d).
Proof. apply executeCommand_w. Qed.

(** X14. A ramp of duration zero is rejected. For a target in [0,100) and
    a second argument that reads as 0, [executeCommand] writes "Time out
    of bounds" and leaves the application struct and the potentiometer as
    they are, also when the target is the current position: the test of
    the duration comes before the division by the number of steps. *)
Theorem zero_duration_ramp_is_rejected now s l a1 a2 target :
  tolower l = "t"%char -> numeral a1 target -> numeral a2 0 ->
  16 <= int_bits cfg -> 0 <= target < 100 ->
  executeCommand cfg now (line2 l a1 a2) s
  = Ok (emit (OutText "  Time out of bounds")
          (set_cur (4 + length a1 + length a2) s)).
Proof.
  intros Hl (Hne1 & Hn1 & Hv1) (Hne2 & Hn2 & Hv2) Hbits Ht.
  unfold executeCommand.
  rewrite toLowerCase_line2, Hl, !isNumeric_lower by done.
  rewrite nextWord_reset. unfold line2.
  rewrite nextWord_letter by done.
  cbn [charAt nth]. cbn [Ascii.eqb Bool.eqb].
  unfold command_t.
  rewrite nextWord_arg1 by (by auto using isNumeric_word).
  rewrite nextWord_arg2 by (by auto using isNumeric_word).
  rewrite Hn1, Hv1, bind_Ok, Hn2, Hv2, bind_Ok.
  rewrite (to_int_small target) by lia.
  destruct (Z.leb_spec 0 target); [|lia].
  destruct (Z.ltb_spec target 100); [|lia].
  reflexivity.
Qed.




(** ** Lines received while a command runs *)

(** X16. A command is not queued. A line whose first character is not the
    lower-case q, completed while the state machine is not Idle and with
    the priority flag down, is never interpreted: the cycle leaves the
    state it would leave without the byte, except that the line is stored
    in [command], the inactivity timer of the line assembler is started
    again, the line buffer is cleared and, with the echo enabled, the line
    is echoed. No message tells the operator that the line was dropped. *)
Theorem busy_line_is_dropped e s body c :
  (CMD_CHAR_LEN cfg <= 255)%nat ->
  rx e = Some c -> terminator c = true ->
  rx_holds cfg body s -> nul_free body ->
  (S (length body) < CMD_CHAR_LEN cfg)%nat ->
  charAt (body ++ [ASCII_LF]) 0 <> "q"%char ->
  appState (app s) <> Idle -> cmd_high_priority (app s) = false ->
  exists s' s'',
    Application_loop cfg e s = Ok s' /\
    Application_loop cfg (without_rx e) s = Ok s'' /\
    app s' = set_command (body ++ [ASCII_LF]) (rx_started e (app s'')) /\
    pot s' = pot s'' /\ old_pot_pos s' = old_pot_pos s'' /\
    serial_out s'
    = serial_out s'' ++ (if ECHO_EN cfg then [OutEcho (body ++ [ASCII_LF])] else []) /\
    rx_holds cfg [] s'.
Proof.
  intros Hcap Hrx Hc Hbuf Hnul Hlen Hq Hst Hhp.
  destruct (report_phase_frame e s) as [Hp Hpp Hhp0 _ _ Hri Hrb _ Hctl].
  assert (Hst1 : appState (app (report_phase cfg e s)) = appState (app s)).
  { change (c_state (control (report_phase cfg e s)) = c_state (control s)).
    rewrite Hctl. unfold consume_finished. by destruct (c_finished (control s)). }
  destruct (checkSerialRX_line e (report_phase cfg e s) body c)
    as (s1 & Hchk & Ha & Hp1 & Ho1 & _ & Hout1 & Hbuf1); try done.
  { destruct Hbuf. split; congruence. }
  destruct (checkSerialRX_quiet (without_rx e) (report_phase cfg e s))
    as (s0 & Hchk0 & Ha0 & Hp0 & Ho0 & _ & Hout0); [done|].
  assert (Hprio : checkPriority (body ++ [ASCII_LF])
                    (rx_started e (app (report_phase cfg e s)))
                  = rx_started e (app (report_phase cfg e s))).
  { unfold checkPriority. unfold charAt in Hq.
    by apply Ascii.eqb_neq in Hq as ->. }
  rewrite Hprio in Ha.
  rewrite !Application_loop_phases.
  change (report_phase cfg (without_rx e) s) with (report_phase cfg e s).
  unfold primaryFSM. rewrite Hchk, Hchk0. cbn [mbind result_bind].
  change (now (without_rx e)) with (now e).
  assert (Hh1 : cmd_high_priority (app s1) = false).
  { rewrite Ha. cbn. congruence. }
  assert (Hh0 : cmd_high_priority (app s0) = false) by congruence.
  rewrite Ha, Ha0, Hst1. unfold rx_started, priority_phase.
  destruct (appState (app s)) eqn:Est; [done|..];
    cbn -[to_uint32]; rewrite ?Ha, ?Ha0, ?Hp1, ?Hp0; cbn -[to_uint32];
    repeat match goal with
    | |- context [if ?b then _ else _] =>
        lazymatch b with
        | context [if _ then _ else _] => fail
        | cmd_high_priority _ => rewrite ?Hh1, ?Hh0, ?Hhp0, ?Hhp
        | _ => destruct b eqn:?
        end; cbn -[to_uint32]; rewrite ?Ha, ?Ha0, ?Hp1, ?Hp0; cbn -[to_uint32]
    end;
    (eexists _, _; split; [reflexivity|]; split; [reflexivity|]);
    cbn -[to_uint32]; rewrite ?Ha, ?Ha0, ?Hp1, ?Hp0, ?Ho1, ?Ho0, ?Hout1, ?Hout0;
    cbn -[to_uint32]; repeat split; try done; try apply Hbuf1.
Qed.


(** ** A reset line cut short by a NUL byte *)

Lemma c_str_nul pre post : nul_free pre -> c_str (pre ++ ASCII_NUL :: post) = Ok pre.
Proof.
  induction 1 as [|c pre Hc _ IH]; cbn; [done|]. by rewrite Hc, IH.
Qed.

Lemma count_hp_app out1 out2 :
  count_hp (out1 ++ out2) = (count_hp out1 + count_hp out2)%nat.
Proof.
  induction out1 as [|o out1 IH]; cbn; [done|].
  destruct o as [[]| | |]; cbn; by rewrite ?IH.
Qed.

(** A command that is one word without its separator is not recognised. *)
Lemma executeCommand_unterminated now s c w :
  word_chars (c :: w) ->
  executeCommand cfg now (c :: w) s
  = Ok (emit (OutText "  Unknown command type") (set_cur 0 s)).
Proof.
  intros Hw. unfold executeCommand. rewrite nextWord_reset.
  pose proof (nextWord_unterminated [] [] (toLowerCase (c :: w))
                ltac:(constructor) (word_chars_lower _ Hw)) as H.
  cbn [List.app length] in H. by rewrite H.
Qed.

(** The line assembler on a line with a NUL byte in it: the command is the
    part before the NUL, without a line feed. *)
Lemma checkSerialRX_truncated e s pre rest c :
  rx e = Some c -> terminator c = true ->
  rx_holds cfg (pre ++ ASCII_NUL :: rest) s -> nul_free pre -> pre <> [] ->
  (S (length (pre ++ ASCII_NUL :: rest)) < CMD_CHAR_LEN cfg)%nat ->
  (CMD_CHAR_LEN cfg <= 255)%nat ->
  exists s', checkSerialRX cfg e s = Ok (true, s') /\
    app s' = set_command pre (checkPriority pre (rx_started e (app s))) /\
    pot s' = pot s /\ old_pot_pos s' = old_pot_pos s /\
    serial_out s' = serial_out s ++ (if ECHO_EN cfg then [OutEcho pre] else []) /\
    rx_holds cfg [] s'.
Proof.
  intros Hrx Hc [Hi Hbuf] Hnul Hne Hlen Hcap.
  remember (pre ++ ASCII_NUL :: rest) as body eqn:Hbody.
  unfold checkSerialRX. rewrite Hrx. cbn.
  assert ((if Ascii.eqb c ASCII_CR then ASCII_LF else c) = ASCII_LF) as ->.
  { unfold terminator in Hc. destruct (Ascii.eqb c ASCII_CR); [done|].
    rewrite orb_false_r in Hc. by apply Ascii.eqb_eq. }
  rewrite Hi.
  destruct (Nat.leb_spec (CMD_CHAR_LEN cfg) (length body)); [lia|].
  cbn. rewrite Hbuf.
  replace (CMD_CHAR_LEN cfg - length body)%nat
    with (S (S (CMD_CHAR_LEN cfg - S (S (length body))))) by lia.
  rewrite insert_rx_buffer.
  assert (nth (length body) ((body ++ [ASCII_LF]) ++
       replicate (S (CMD_CHAR_LEN cfg - S (S (length body)))) ASCII_NUL) ASCII_NUL
     = ASCII_LF) as ->.
  { rewrite <- app_assoc. apply nth_middle_app. }
  cbn [Ascii.eqb ASCII_LF Bool.eqb]. cbn match.
  assert (Hstr : c_str ((body ++ [ASCII_LF]) ++
       replicate (S (CMD_CHAR_LEN cfg - S (S (length body)))) ASCII_NUL) = Ok pre).
  { rewrite Hbody, <- !app_assoc. cbn [List.app]. by apply c_str_nul. }
  rewrite Hstr. cbn. rewrite orb_true_r.
  assert (Hprio :
    checkPriority ((body ++ [ASCII_LF]) ++
       replicate (S (CMD_CHAR_LEN cfg - S (S (length body)))) ASCII_NUL)
    = checkPriority pre).
  { rewrite Hbody. by destruct pre. }
  change (ASCII_NUL :: replicate ?k ASCII_NUL) with (replicate (S k) ASCII_NUL).
  rewrite Hprio.
  destruct (ECHO_EN cfg); eexists; (split; [reflexivity|]); cbn;
    rewrite ?app_nil_r; unfold rx_holds; cbn; rewrite Nat.sub_0_r;
    by repeat split.
Qed.

(** A cycle without input, with the priority flag up and an unrecognised
    word in [command]. *)
Lemma loop_stuck e s w :
  quiet e -> word_chars w ->
  cmd_high_priority (app s) = true -> command (app s) = "q"%char :: w ->
  exists s', Application_loop cfg e s = Ok s' /\
    cmd_high_priority (app s') = true /\ command (app s') = "q"%char :: w /\
    count_hp (serial_out s') = S (count_hp (serial_out s)) /\
    last (serial_out s') = Some (OutText "  Unknown command type").
Proof.
  intros Hq Hw Hhp Hcmd.
  assert (Hqw : word_chars ("q"%char :: w)) by by constructor.
  destruct (report_phase_frame e s) as [_ _ Hhp0 Hcmd0 _ _ _ _ _].
  destruct (report_phase_out e s) as (Hout & _).
  destruct (checkSerialRX_quiet e (report_phase cfg e s) Hq)
    as (s1 & Hchk & Ha & _ & _ & _ & Hout1).
  rewrite Application_loop_phases. unfold primaryFSM, priority_phase.
  rewrite Hchk. cbn [mbind result_bind].
  assert (Hexec : forall s2,
            cmd_high_priority (app s2) = cmd_high_priority (app s1) ->
            command (app s2) = command (app s1) ->
            serial_out s2 = serial_out s1 ->
            exists s',
              (s3 ← (if cmd_high_priority (app s2)
                     then executeCommand cfg (now e) (command (app s2))
                            (emit (OutChar S_HP_CHAR) s2)
                     else Ok s2);
               Ok (set_old_pot_pos (to_uint32 (pot_pos (app s3))) s3)) = Ok s' /\
              cmd_high_priority (app s') = true /\ command (app s') = "q"%char :: w /\
              count_hp (serial_out s') = S (count_hp (serial_out s)) /\
              last (serial_out s') = Some (OutText "  Unknown command type")).
  { intros s2 Hs1 Hs2 Hso.
    rewrite Hs1, Hs2, Ha, Hhp0, Hhp, Hcmd0, Hcmd.
    rewrite executeCommand_unterminated by done. cbn -[to_uint32].
    eexists. split; [reflexivity|]. cbn -[to_uint32].
    rewrite Hs1, Hs2, Ha, Hhp0, Hhp, Hcmd0, Hcmd, Hso, Hout1, Hout.
    repeat split.
    - rewrite !count_hp_app. cbn.
      destruct (report_due e s), (cmd_finished_flag (app s)); cbn; lia.
    - by rewrite last_snoc. }
  destruct (appState (app (report_phase cfg e s)));
    repeat match goal with
    | |- context [if ?b then _ else _] =>
        lazymatch b with
        | context [if _ then _ else _] => fail
        | cmd_high_priority _ => fail
        | _ => destruct b eqn:?
        end
    end;
    cbn [mbind result_bind]; apply Hexec; reflexivity.
Qed.


Lemma priority_phase_unrecognised e s w :
  word_chars w ->
  cmd_high_priority (app s) = true -> command (app s) = "q"%char :: w ->
  exists s', priority_phase cfg e s = Ok s' /\
    cmd_high_priority (app s') = true /\ command (app s') = "q"%char :: w /\
    serial_out s'
    = serial_out s ++ [OutChar S_HP_CHAR; OutText "  Unknown command type"].
Proof.
  intros Hw Hhp Hcmd. unfold priority_phase. rewrite Hhp, Hcmd.
  rewrite executeCommand_unterminated by by constructor.
  eexists. split; [reflexivity|]. cbn -[to_uint32].
  rewrite <- app_assoc. by repeat split.
Qed.

(** X17. A reset line cut short by a NUL byte locks the priority path. When
    a line begins with q, continues with characters that are neither
    separators nor NUL, and then holds a NUL byte, the command stored at
    its terminator is the part before the NUL, without a line feed: the
    priority flag is raised for its first character, but the interpreter
    does not find a terminated word in it, so it neither resets nor takes
    the flag down. From then on every cycle without input returns, writes
    one more high-priority marker followed by "Unknown command type", and
    leaves the flag up. *)
Theorem truncated_reset_line_sticks e s w rest c :
  (CMD_CHAR_LEN cfg <= 255)%nat ->
  rx e = Some c -> terminator c = true ->
  rx_holds cfg ("q"%char :: w ++ ASCII_NUL :: rest) s ->
  word_chars w -> nul_free w ->
  (S (length ("q"%char :: w ++ ASCII_NUL :: rest)) < CMD_CHAR_LEN cfg)%nat ->
  exists s1,
    Application_loop cfg e s = Ok s1 /\
    cmd_high_priority (app s1) = true /\ command (app s1) = "q"%char :: w /\
    forall es, Forall quiet es ->
      exists s2, run cfg es s1 = Ok s2 /\
        cmd_high_priority (app s2) = true /\
        count_hp (serial_out s2) = (count_hp (serial_out s1) + length es)%nat /\
        (es <> [] ->
         last (serial_out s2) = Some (OutText "  Unknown command type")).
Proof.
  intros Hcap Hrx Hc Hbuf Hw Hnul Hlen.
  assert (Hqw : word_chars ("q"%char :: w)) by by constructor.
  assert (Hfirst : exists s1, Application_loop cfg e s = Ok s1 /\
            cmd_high_priority (app s1) = true /\ command (app s1) = "q"%char :: w).
  { destruct (report_phase_frame e s) as [_ _ _ _ _ Hri Hrb _ _].
    destruct (checkSerialRX_truncated e (report_phase cfg e s) ("q"%char :: w) rest c)
      as (s0 & Hchk & Ha & _); try done.
    { destruct Hbuf as [H1 H2]. split; [rewrite Hri; exact H1|rewrite Hrb; exact H2]. }
    { by constructor. }
    rewrite Application_loop_phases. unfold primaryFSM.
    rewrite Hchk. cbn [mbind result_bind].
    assert (Hexec : forall s2,
              cmd_high_priority (app s2) = cmd_high_priority (app s0) ->
              command (app s2) = command (app s0) ->
              exists s1, priority_phase cfg e s2 = Ok s1 /\
                cmd_high_priority (app s1) = true /\
                command (app s1) = "q"%char :: w).
    { intros s2 H1 H2.
      destruct (priority_phase_unrecognised e s2 w Hw) as (s1 & Hp & Hf & Hcm & _).
      - rewrite H1, Ha. reflexivity.
      - rewrite H2, Ha. reflexivity.
      - by exists s1. }
    destruct (appState (app (report_phase cfg e s))).
    - replace (command (app s0)) with ("q"%char :: w) by by rewrite Ha.
      rewrite executeCommand_unterminated by done.
      cbn [mbind result_bind]. apply Hexec; reflexivity.
    - repeat match goal with
      | |- context [if ?b then _ else _] =>
          lazymatch b with
          | context [if _ then _ else _] => fail
          | _ => destruct b eqn:?
          end
      end; cbn [mbind result_bind]; apply Hexec; reflexivity.
    - repeat match goal with
      | |- context [if ?b then _ else _] =>
          lazymatch b with
          | context [if _ then _ else _] => fail
          | _ => destruct b eqn:?
          end
      end; cbn [mbind result_bind]; apply Hexec; reflexivity.
    - repeat match goal with
      | |- context [if ?b then _ else _] =>
          lazymatch b with
          | context [if _ then _ else _] => fail
          | _ => destruct b eqn:?
          end
      end; cbn [mbind result_bind]; apply Hexec; reflexivity. }
  destruct Hfirst as (s1 & Hloop & Hhp1 & Hcmd1).
  exists s1. repeat (split; [done|]).
  intros es. clear Hloop. revert s1 Hhp1 Hcmd1.
  induction es as [|e1 es IH]; intros s1 Hhp1 Hcmd1 Hq.
  - exists s1. cbn. repeat split; [done|lia|done].
  - inversion Hq as [|? ? He Hes]; subst.
    destruct (loop_stuck e1 s1 w He Hw Hhp1 Hcmd1)
      as (s2 & Hl2 & Hhp2 & Hcmd2 & Hcount & Hlast).
    destruct (IH s2 Hhp2 Hcmd2 Hes) as (s3 & Hrun & Hhp3 & Hcount3 & Hlast3).
    exists s3. cbn [run]. rewrite Hl2. cbn [mbind result_bind].
    split; [done|]. split; [done|]. split; [cbn [length]; lia|].
    intros _. destruct es as [|e2 es]; [|by apply Hlast3].
    cbn in Hrun. by injection Hrun as <-.
Qed.


(** ** The wait command from dispatch to completion *)

Lemma wait_step ends T t t' p c :
  t <= t' -> c_steps c = 0 -> c_position c = p -> wait_phase ends T t c ->
  let c' := cycle_step t' c in
  c_steps c' = 0 /\ c_position c' = p /\ wait_phase ends T t' c' /\
  (T <= t' -> c_state c' = Idle) /\
  (c_state c = Idle ->
   c_state c' = Idle /\ c_finished c' = false /\ c_ends c' = S ends).
Proof.
  intros Ht Hs Hp Hph. unfold cycle_step, consume_finished, fsm_step.
  destruct Hph as [Hst Hf Hr Hd He|Hst Hf Hr Hd He|Hst Hf HT He|Hst Hf HT He];
    rewrite Hf; cbn; rewrite ?Hst.
  - unfold SWTimer_expired. rewrite Hr, Hd, Hs. cbn.
    destruct (Z.leb_spec T t'); cbn.
    + split; [done|]. split; [done|]. split; [by apply wphase_pending|].
      split; [done|congruence].
    + split; [done|]. split; [done|]. split; [by apply wphase_waiting|].
      split; [lia|congruence].
  - unfold SWTimer_expired. rewrite Hr, Hd. cbn.
    destruct (Z.leb_spec T t'); cbn.
    + split; [done|]. split; [done|]. split; [by apply wphase_pending|].
      split; [done|congruence].
    + split; [done|]. split; [done|]. split; [by apply wphase_waiting|].
      split; [lia|congruence].
  - split; [done|]. split; [done|].
    split; [apply wphase_finished; cbn; try done; try lia; by rewrite He|].
    split; [done|]. intros _. by rewrite He.
  - cbn. split; [done|]. split; [done|].
    split; [apply wphase_finished; try done; lia|]. done.
Qed.

Lemma times_S_r sched i n :
  times sched i (S n) = times sched i n ++ [now (sched (i + n)%nat)].
Proof. replace (S n) with (n + 1)%nat by lia. by rewrite times_add. Qed.

Lemma wait_steps sched ends T p c :
  (forall i j, (i <= j)%nat -> now (sched i) <= now (sched j)) ->
  c_steps c = 0 -> c_position c = p ->
  wait_phase ends T (now (sched 0%nat)) c ->
  forall n,
    let c' := cycle_steps (times sched 1 n) c in
    c_steps c' = 0 /\ c_position c' = p /\
    wait_phase ends T (now (sched n)) c' /\
    ((1 <= n)%nat -> T <= now (sched n) -> c_state c' = Idle) /\
    ((2 <= n)%nat -> T <= now (sched (n - 1)%nat) ->
     c_state c' = Idle /\ c_finished c' = false /\ c_ends c' = S ends).
Proof.
  intros Hmono Hs Hp Hph. induction n as [|n IH]; cbn zeta.
  - cbn. repeat split; try done; lia.
  - cbn zeta in IH. destruct IH as (Hs' & Hp' & Hph' & Hidle & _).
    rewrite times_S_r, cycle_steps_app. cbn [cycle_steps fold_left].
    replace (1 + n)%nat with (S n) by lia.
    destruct (wait_step ends T (now (sched n)) (now (sched (S n))) p
                (cycle_steps (times sched 1 n) c))
      as (Hs2 & Hp2 & Hph2 & Hid2 & Hfin2); try done.
    { apply Hmono. lia. }
    cbn zeta in Hs2, Hp2, Hph2, Hid2, Hfin2. unfold cycle_steps in *.
    split; [done|]. split; [done|]. split; [done|].
    split; [intros _; exact Hid2|].
    intros Hn HT. apply Hfin2. apply Hidle; [lia|].
    by replace (S n - 1)%nat with n in HT by lia.
Qed.

(** The cycle that dispatches an accepted wait command. *)
Lemma wait_dispatch e s a1 d c :
  16 <= int_bits cfg -> (CMD_CHAR_LEN cfg <= 255)%nat ->
  numeral a1 d -> 0 < d < 2 ^ 15 ->
  appState (app s) = Idle -> cmd_finished_flag (app s) = false ->
  cmd_high_priority (app s) = false -> steps (app s) = 0 ->
  rx_holds cfg (body1 "w" a1) s ->
  (S (length (body1 "w" a1)) < CMD_CHAR_LEN cfg)%nat ->
  rx e = Some c -> terminator c = true ->
  exists s', Application_loop cfg e s = Ok s' /\
    cmd_high_priority (app s') = false /\
    c_steps (control s') = 0 /\ c_position (control s') = position (pot s) /\
    wait_phase (count_end (serial_out s)) (now e + d) (now e) (control s').
Proof.
  intros Hbits Hcap Hn1 Hd Hst Hfin Hhp Hsteps Hbuf Hlen Hrx Hc.
  destruct (loop_dispatch e s (body1 "w" a1) c)
    as (s1 & Hloop & Hctl & Hp1 & Hpp1 & Hhp1 & _); try done.
  { destruct Hn1 as (_ & ? & _). by apply body1_nul_free. }
  rewrite line1_body in Hloop, Hhp1.
  assert (Hhp2 : cmd_high_priority (app s1) = false) by (rewrite Hhp1; exact Hhp).
  destruct (executeCommand_w (now e) s1 "w" a1 d eq_refl Hn1) as [Hexec Hint].
  rewrite Hint in Hexec by lia.
  destruct (Z.ltb_spec 0 d); [|lia].
  rewrite Hexec in Hloop.
  rewrite bind_Ok in Hloop. cbn beta in Hloop.
  rewrite priority_phase_skip in Hloop by (cbn; congruence).
  eexists. split; [exact Hloop|].
  assert (Hc0 : consume_finished (control s) = control s).
  { unfold consume_finished. cbn. by rewrite Hfin. }
  rewrite Hc0 in Hctl. unfold control in Hctl.
  injection Hctl as Hst1 Hsteps1 Htgt1 Hwait1 Hlin1 Hfin1 Hpos1 Hends1.
  split; [cbn; congruence|]. split; [cbn; congruence|].
  split; [cbn; congruence|].
  apply wphase_armed; cbn; congruence.
Qed.

(** X18. The wait command from dispatch to completion. A command [w <d>]
    with 0 < d < 2^15, on a platform whose [int] has 16 bits or more and
    with a line buffer of at most 255 characters that the line fits. The
    line is completed in a cycle that finds the machine Idle with the
    finished flag and the priority flag down and [steps] 0; the cycles that
    follow receive no serial input, and the clock does not run backwards.
    Then every cycle returns, the potentiometer is not moved, at most one
    end-of-command marker is written, and as long as the clock has not
    reached the time of the dispatch plus [d] the machine is not Idle and
    no marker is written; a cycle after the dispatch whose clock has reached
    that time leaves the machine Idle. When the clock passes every value,
    from some cycle on the machine is Idle with the finished flag down and
    exactly one end-of-command marker written since the dispatch. *)
Theorem wait_command_completes sched s0 a1 d c :
  16 <= int_bits cfg -> (CMD_CHAR_LEN cfg <= 255)%nat ->
  numeral a1 d -> 0 < d < 2 ^ 15 ->
  appState (app s0) = Idle -> cmd_finished_flag (app s0) = false ->
  cmd_high_priority (app s0) = false -> steps (app s0) = 0 ->
  rx_holds cfg (body1 "w" a1) s0 ->
  (S (length (body1 "w" a1)) < CMD_CHAR_LEN cfg)%nat ->
  rx (sched 0%nat) = Some c -> terminator c = true ->
  (forall i, quiet (sched (S i))) ->
  (forall i j, (i <= j)%nat -> now (sched i) <= now (sched j)) ->
  (forall k, exists s,
     run cfg (cycles sched 0 (S k)) s0 = Ok s /\
     position (pot s) = position (pot s0) /\
     (count_end (serial_out s) <= S (count_end (serial_out s0)))%nat /\
     (now (sched k) < now (sched 0%nat) + d ->
      appState (app s) <> Idle /\
      count_end (serial_out s) = count_end (serial_out s0)) /\
     ((1 <= k)%nat -> now (sched 0%nat) + d <= now (sched k) ->
      appState (app s) = Idle)) /\
  ((forall T, exists i, T <= now (sched i)) ->
   exists K, forall k, (K <= k)%nat ->
     exists s, run cfg (cycles sched 0 k) s0 = Ok s /\
       appState (app s) = Idle /\ cmd_finished_flag (app s) = false /\
       count_end (serial_out s) = S (count_end (serial_out s0))).
Proof.
  intros Hbits Hcap Hn1 Hd Hst Hfin Hhp Hsteps Hbuf Hlen Hrx Hc Hquiet Hmono.
  destruct (wait_dispatch (sched 0%nat) s0 a1 d c)
    as (s1 & Hloop & Hhp1 & Hs1 & Hp1 & Hph1); try done.
  assert (Hrun : forall n, exists s,
            run cfg (cycles sched 0 (S n)) s0 = Ok s /\
            control s = cycle_steps (times sched 1 n) (control s1)).
  { intros n. rewrite cycles_S. cbn. rewrite Hloop. cbn.
    destruct (run_quiet (cycles sched 1 n) s1) as (s & Hs & Hctl & _);
      [by apply cycles_quiet|done|].
    by exists s. }
  pose proof (wait_steps sched (count_end (serial_out s0))
                (now (sched 0%nat) + d) (position (pot s0)) (control s1)
                Hmono Hs1 Hp1 Hph1) as Hall.
  split.
  - intros k. destruct (Hrun k) as (s & Hs & Hctl). exists s. split; [done|].
    specialize (Hall k). cbn zeta in Hall. rewrite <- Hctl in Hall.
    destruct Hall as (_ & Hp & Hph & Hidle & _). cbn in Hp, Hidle.
    split; [done|].
    destruct Hph as [Hs' Hf' _ _ He'|Hs' Hf' _ _ He'|Hs' Hf' HT He'|Hs' Hf' HT He'];
      cbn in Hs', Hf', He';
      (split; [lia|]);
      (split; [intros Hlt; first [split; [congruence|lia] | exfalso; lia]
              |exact Hidle]).
  - intros Hunb. destruct (Hunb (now (sched 0%nat) + d)) as [i Hi].
    exists (S (S (S i))). intros k Hk.
    destruct k as [|n]; [lia|].
    destruct (Hrun n) as (s & Hs & Hctl). exists s. split; [done|].
    specialize (Hall n). cbn zeta in Hall. rewrite <- Hctl in Hall.
    destruct Hall as (_ & _ & _ & _ & Hfinal). cbn in Hfinal.
    apply Hfinal; [lia|]. etrans; [exact Hi|]. apply Hmono. lia.
Qed.


(** ** The pace of a ramp *)

Lemma paced_step target ends p0 q t0 t t' c :
  t <= t' -> on_course target c -> ramp_phase ends t0 c ->
  paced p0 q t0 t c -> paced p0 q t0 t' (cycle_step t' c).
Proof.
  intros Ht (Htgt & Hr & Hp & Hs) Hph (Hrun & Hdur & Hdl & Hel & Hbtw).
  unfold cycle_step, consume_finished, fsm_step.
  destruct Hph as [Hst Hf Hz Hw He|Hst Hf Hz He|Hst Hf Hz He|Hst Hf Hz He];
    rewrite Hf; cbn; rewrite ?Hst.
  - destruct (negb _); [|destruct (negb _)]; unfold paced; cbn;
      repeat split; try done; lia.
  - destruct (SWTimer_expired t' (c_linear c)) eqn:Hexp.
    + assert (Hd : deadline (c_linear c) <= t').
      { unfold SWTimer_expired in Hexp. rewrite Hrun in Hexp. cbn in Hexp. lia. }
      assert (Hpaced : paced p0 q t0 t' (ramp_step t' c)).
      { unfold paced, ramp_step, setPosition. cbn. rewrite Htgt in *.
        destruct (Z.ltb_spec (c_position c) target).
        - rewrite to_uint8_small by lia.
          destruct (Z.ltb_spec 99 (c_position c + 1)); [lia|].
          assert (Z.abs (c_position c + 1 - p0) = Z.abs (c_position c - p0) + 1)
            as -> by lia.
          repeat split; try done; lia.
        - rewrite to_uint8_small by lia.
          destruct (Z.ltb_spec 99 (c_position c + -1)); [lia|].
          assert (Z.abs (c_position c + -1 - p0) = Z.abs (c_position c - p0) + 1)
            as -> by lia.
          repeat split; try done; lia. }
      destruct (c_steps (ramp_step t' c) =? 0); [|done].
      exact Hpaced.
    + rewrite ?Hst. destruct (c_steps c =? 0); unfold paced; cbn;
        repeat split; try done; lia.
  - unfold paced; cbn; repeat split; try done; lia.
  - rewrite ?Hst. unfold paced; cbn; repeat split; try done; lia.
Qed.

Lemma paced_steps sched target ends p0 q c :
  (forall i j, (i <= j)%nat -> now (sched i) <= now (sched j)) ->
  on_course target c -> ramp_phase ends (now (sched 0%nat)) c ->
  paced p0 q (now (sched 0%nat)) (now (sched 0%nat)) c ->
  forall n,
    let c' := cycle_steps (times sched 1 n) c in
    on_course target c' /\ ramp_phase ends (now (sched 0%nat)) c' /\
    paced p0 q (now (sched 0%nat)) (now (sched n)) c'.
Proof.
  intros Hmono Hc Hph Hpa. induction n as [|n IH]; cbn zeta.
  - done.
  - cbn zeta in IH. destruct IH as (Hc' & Hph' & Hpa').
    rewrite times_S_r, cycle_steps_app. cbn [cycle_steps fold_left].
    replace (1 + n)%nat with (S n) by lia.
    destruct (cycle_step_safe target ends (now (sched 0%nat)) (now (sched (S n)))
                (cycle_steps (times sched 1 n) c)) as [Hc2 Hph2]; try done.
    { apply Hmono. lia. }
    split; [done|]. split; [done|].
    apply (paced_step target ends p0 q (now (sched 0%nat)) (now (sched n))
             (now (sched (S n)))); [apply Hmono; lia|done..].
Qed.

(** The cycle that dispatches an accepted ramp command starts the pace. *)
Lemma ramp_dispatch_paced e s a1 a2 target d c :
  16 <= int_bits cfg -> (CMD_CHAR_LEN cfg <= 255)%nat ->
  numeral a1 target -> numeral a2 d -> 0 <= target < 100 -> 0 < d ->
  appState (app s) = Idle -> cmd_finished_flag (app s) = false ->
  cmd_high_priority (app s) = false ->
  SWTimer_expired (now e) (wait_cmd_timer (app s)) = true ->
  0 <= position (pot s) <= 99 -> position (pot s) <> target ->
  rx_holds cfg (body2 "t" a1 a2) s ->
  (S (length (body2 "t" a1 a2)) < CMD_CHAR_LEN cfg)%nat ->
  rx e = Some c -> terminator c = true ->
  exists s', Application_loop cfg e s = Ok s' /\
    cmd_high_priority (app s') = false /\
    on_course target (control s') /\
    ramp_phase (count_end (serial_out s)) (now e) (control s') /\
    paced (position (pot s)) (d / Z.abs (target - position (pot s)))
      (now e) (now e) (control s').
Proof.
  intros Hbits Hcap Hn1 Hn2 Ht Hd Hst Hfin Hhp Hwait Hpos Hne Hbuf Hlen Hrx Hc.
  destruct (loop_dispatch e s (body2 "t" a1 a2) c)
    as (s1 & Hloop & Hctl & Hp1 & Hpp1 & Hhp1 & _); try done.
  { destruct Hn1 as (_ & ? & _), Hn2 as (_ & ? & _). by apply body2_nul_free. }
  rewrite line2_body in Hloop, Hhp1.
  assert (Hhp2 : cmd_high_priority (app s1) = false) by (rewrite Hhp1; exact Hhp).
  rewrite (executeCommand_t_ramp (now e) s1 "t" a1 a2 target d) in Hloop;
    try done; [|rewrite Hpp1; lia|rewrite Hpp1; congruence].
  rewrite bind_Ok in Hloop. cbn beta in Hloop.
  rewrite priority_phase_skip in Hloop by (cbn; congruence).
  eexists. split; [exact Hloop|].
  assert (Hc0 : consume_finished (control s) = control s).
  { unfold consume_finished. cbn. by rewrite Hfin. }
  rewrite Hc0 in Hctl. unfold control in Hctl.
  injection Hctl as Hst1 Hsteps1 Htgt1 Hwait1 Hlin1 Hfin1 Hpos1 Hends1.
  split; [cbn; congruence|]. split; [|split].
  - unfold on_course, control. cbn. rewrite Hpp1, Hp1. lia.
  - apply phase_armed; cbn; try congruence.
    rewrite Hpp1. lia.
  - unfold paced, control. cbn. rewrite Hpp1, Hp1.
    repeat split; try done; lia.
Qed.

(** X19. A ramp never runs ahead of its step time. A ramp command
    [t <target> <d>] with a target in [0,100) other than the current
    position and d > 0, on a platform whose [int] has 16 bits or more and
    with a line buffer of at most 255 characters that the line fits. The
    line is completed in a cycle that finds the machine Idle with the
    finished flag and the priority flag down, the wait timer expired and
    the potentiometer within 0..99; the cycles that follow receive no
    serial input, and the clock does not run backwards. Then every cycle
    returns with the potentiometer between its starting position and the
    target, and the number of positions it has moved by, multiplied by the
    step time d / |target - start|, is at most the time that has passed
    since the dispatch. *)
Theorem ramp_is_paced sched s0 a1 a2 target d c :
  16 <= int_bits cfg -> (CMD_CHAR_LEN cfg <= 255)%nat ->
  numeral a1 target -> numeral a2 d -> 0 <= target < 100 -> 0 < d ->
  appState (app s0) = Idle -> cmd_finished_flag (app s0) = false ->
  cmd_high_priority (app s0) = false ->
  SWTimer_expired (now (sched 0%nat)) (wait_cmd_timer (app s0)) = true ->
  0 <= position (pot s0) <= 99 -> position (pot s0) <> target ->
  rx_holds cfg (body2 "t" a1 a2) s0 ->
  (S (length (body2 "t" a1 a2)) < CMD_CHAR_LEN cfg)%nat ->
  rx (sched 0%nat) = Some c -> terminator c = true ->
  (forall i, quiet (sched (S i))) ->
  (forall i j, (i <= j)%nat -> now (sched i) <= now (sched j)) ->
  forall k, exists s,
    run cfg (cycles sched 0 (S k)) s0 = Ok s /\
    Z.abs (position (pot s) - position (pot s0))
    + Z.abs (target - position (pot s))
    = Z.abs (target - position (pot s0)) /\
    Z.abs (position (pot s) - position (pot s0))
    * (d / Z.abs (target - position (pot s0)))
    <= now (sched k) - now (sched 0%nat).
Proof.
  intros Hbits Hcap Hn1 Hn2 Ht Hd Hst Hfin Hhp Hwait Hpos Hne Hbuf Hlen Hrx Hc
    Hquiet Hmono k.
  destruct (ramp_dispatch_paced (sched 0%nat) s0 a1 a2 target d c)
    as (s1 & Hloop & Hhp1 & Hcourse & Hphase & Hpaced); try done.
  destruct (run_quiet (cycles sched 1 k) s1) as (s & Hs & Hctl & _);
    [by apply cycles_quiet|done|].
  exists s. split.
  { rewrite cycles_S. cbn. rewrite Hloop. cbn. exact Hs. }
  destruct (paced_steps sched target (count_end (serial_out s0))
              (position (pot s0)) (d / Z.abs (target - position (pot s0)))
              (control s1) Hmono Hcourse Hphase Hpaced k)
    as ((Htgt & _) & _ & (_ & _ & _ & Hel & Hbtw)).
  change (map now (cycles sched 1 k)) with (times sched 1 k) in Hctl.
  rewrite <- Hctl in Htgt, Hel, Hbtw. cbn in Htgt, Hel, Hbtw.
  rewrite Htgt in Hbtw. by split.
Qed.


(** ** The heartbeat *)

Lemma primaryFSM_watchdog e s s' :
  primaryFSM cfg e s = Ok s' ->
  watchdog_timer (app s') = watchdog_timer (app s) \/
  (rx e <> None /\
   watchdog_timer (app s') = SWTimer_construct (MS_IN_SECONDS cfg)).
Proof.
  unfold primaryFSM.
  destruct (checkSerialRX cfg e s) as [[b s1]|] eqn:Hrx; [|done]. cbn.
  destruct (checkSerialRX_plain _ _ _ _ Hrx) as [_ Hwd].
  destruct (appState (app s)) eqn:Est.
  - destruct b.
    + destruct (executeCommand cfg (now e) (command (app s1))
                  (emit (OutChar S_R_CHAR) s1)) as [s2|] eqn:Hex; [|done].
      cbn. intros [= <-]. cbn.
      destruct (executeCommand_frame _ _ _ _ Hex) as (_ & _ & _ & _ & Happ).
      destruct Happ as [-> | (_ & _ & _ & ->)]; [right|left; exact Hwd].
      split; [|done]. intros Hnone.
      destruct (checkSerialRX_quiet e s Hnone) as (s3 & Hq & _). congruence.
    + cbn. intros [= <-]. by left.
  - destruct (negb (SWTimer_expired _ _)); cbn;
      [|destruct (negb (_ =? 0)); cbn]; intros [= <-]; by left.
  - destruct (SWTimer_expired _ _); cbn; intros [= <-]; by left.
  - destruct (SWTimer_expired _ _); cbn;
      destruct (_ =? 0); cbn; intros [= <-]; by left.
Qed.

Lemma loop_watchdog e s s' :
  Application_loop cfg e s = Ok s' ->
  watchdog_timer (app s') = watchdog_timer (app s) \/
  watchdog_timer (app s') = SWTimer_construct (MS_IN_SECONDS cfg).
Proof.
  rewrite Application_loop_phases.
  destruct (primaryFSM cfg e (report_phase cfg e s)) as [s1|] eqn:Hfsm; [|done].
  cbn. unfold priority_phase.
  destruct (report_phase_out e s) as (_ & _ & _ & Hwd0).
  assert (Hwd1 : watchdog_timer (app s1) = watchdog_timer (app s) \/
                 watchdog_timer (app s1) = SWTimer_construct (MS_IN_SECONDS cfg)).
  { destruct (primaryFSM_watchdog _ _ _ Hfsm) as [->|[_ ->]]; [left|right]; done. }
  destruct (cmd_high_priority (app s1)).
  - destruct (executeCommand cfg (now e) (command (app s1))
                (emit (OutChar S_HP_CHAR) s1)) as [s2|] eqn:Hex; [|done].
    cbn. intros [= <-]. cbn.
    destruct (executeCommand_frame _ _ _ _ Hex) as (_ & _ & _ & _ & Happ).
    destruct Happ as [-> | (_ & _ & _ & ->)]; [by right|exact Hwd1].
  - cbn. intros [= <-]. exact Hwd1.
Qed.

Lemma loop_quiet_watchdog e s :
  quiet e -> cmd_high_priority (app s) = false ->
  exists s', Application_loop cfg e s = Ok s' /\
    watchdog_timer (app s') = watchdog_timer (app s) /\
    cmd_high_priority (app s') = false.
Proof.
  intros Hq Hhp.
  destruct (loop_quiet e s Hq Hhp) as (s' & Hloop & _ & Hhp').
  exists s'. split; [done|]. split; [|done].
  pose proof Hloop as Hl. rewrite Application_loop_phases in Hl.
  destruct (primaryFSM cfg e (report_phase cfg e s)) as [s1|] eqn:Hfsm; [|done].
  cbn in Hl.
  destruct (report_phase_out e s) as (_ & _ & _ & Hwd0).
  destruct (report_phase_frame e s) as [Hp0 Hpp0 Hhp0 _ _ _ _ _ _].
  destruct (primaryFSM_watchdog _ _ _ Hfsm) as [Hwd1|[Hrx _]]; [|done].
  destruct (checkSerialRX_quiet e (report_phase cfg e s) Hq)
    as (s0 & Hchk & Ha & _).
  destruct (primaryFSM_no_dispatch e (report_phase cfg e s) false s0 Hchk)
    as (s2 & Hfsm2 & _ & Hhp2 & _); [done|congruence|].
  assert (s2 = s1) as -> by congruence.
  rewrite priority_phase_skip in Hl by congruence.
  injection Hl as <-. cbn. congruence.
Qed.

Lemma run_loop_app es1 es2 b :
  run_loop cfg (es1 ++ es2) b = (b1 ← run_loop cfg es1 b; run_loop cfg es2 b1).
Proof.
  revert b. induction es1 as [|e es1 IH]; intros b; cbn; [done|].
  destruct (loop cfg e b); cbn; [apply IH|done].
Qed.

Lemma blink_S n : blink (S n) = blink n ++ [Nat.even n].
Proof. unfold blink. by rewrite seq_S, map_app. Qed.

(** One call of [loop] keeps the heartbeat in step. *)
Lemma loop_heartbeat e b b' :
  loop cfg e b = Ok b' ->
  duration (watchdog_timer (app (sys b))) = MS_IN_SECONDS cfg ->
  led_out b = blink (length (led_out b)) ->
  led_state b = Nat.even (length (led_out b)) ->
  duration (watchdog_timer (app (sys b'))) = MS_IN_SECONDS cfg /\
  led_out b' = blink (length (led_out b')) /\
  led_state b' = Nat.even (length (led_out b')) /\
  led_out b'
  = led_out b ++ (if SWTimer_expired (now e) (watchdog_timer (app (sys b)))
                  then [led_state b] else []).
Proof.
  unfold loop, WatchdogLED. intros Hloop Hdur Hout Hst.
  destruct (SWTimer_expired (now e) (watchdog_timer (app (sys b)))) eqn:Hexp;
    cbn in Hloop;
    match type of Hloop with
    | context [Application_loop cfg e ?s0] =>
        destruct (Application_loop cfg e s0) as [s1|] eqn:Hl; [|done]
    end;
    cbn in Hloop; injection Hloop as <-; cbn -[blink Nat.even];
    destruct (loop_watchdog _ _ _ Hl) as [Hwd|Hwd]; rewrite Hwd;
    cbn -[blink Nat.even];
    rewrite ?length_app, ?app_nil_r; cbn -[blink Nat.even];
    rewrite ?Nat.add_1_r, ?blink_S;
    rewrite <- ?Hout, <- ?Hst, ?Nat.even_succ, <- ?Nat.negb_even, <- ?Hst;
    done.
Qed.

(** X20. The heartbeat keeps its rhythm whatever is received. In every run
    of the main loop from start-up that returns, whatever bytes arrive and
    whatever commands they make, reset included, the levels written to the
    LED pin alternate, beginning with HIGH; the first call of [loop] writes
    one, since the watchdog timer has never been started; the level to be
    written next is the opposite of the last one; and the watchdog timer
    keeps the duration [MS_IN_SECONDS]. *)
Theorem heartbeat_alternates es b :
  run_loop cfg es (power_on cfg) = Ok b ->
  led_out b = blink (length (led_out b)) /\
  led_state b = Nat.even (length (led_out b)) /\
  (es <> [] -> led_out b <> []) /\
  duration (watchdog_timer (app (sys b))) = MS_IN_SECONDS cfg.
Proof.
  revert b. induction es as [|e es IH] using rev_ind; intros b.
  - cbn. intros [= <-]. by cbn.
  - rewrite run_loop_app.
    destruct (run_loop cfg es (power_on cfg)) as [b1|] eqn:Hrun; [|done].
    cbn. destruct (loop cfg e b1) as [b2|] eqn:Hloop; [|done].
    cbn. intros [= <-].
    destruct (IH b1 eq_refl) as (Hout & Hst & Hne & Hdur).
    destruct (loop_heartbeat e b1 b2 Hloop Hdur Hout Hst)
      as (Hdur2 & Hout2 & Hst2 & Hgrow).
    repeat split; try done.
    intros _. rewrite Hgrow.
    destruct es as [|e0 es].
    + cbn in Hrun. injection Hrun as <-. by cbn.
    + intros Heq. apply app_eq_nil in Heq as [Heq _]. by apply Hne.
Qed.


(** A call of [loop] without input and with the priority flag down. *)
Lemma loop_quiet_board e b :
  quiet e -> cmd_high_priority (app (sys b)) = false ->
  exists b', loop cfg e b = Ok b' /\
    cmd_high_priority (app (sys b')) = false /\
    if SWTimer_expired (now e) (watchdog_timer (app (sys b))) then
      watchdog_timer (app (sys b'))
      = SWTimer_start (now e) (watchdog_timer (app (sys b))) /\
      led_state b' = negb (led_state b) /\
      led_out b' = led_out b ++ [led_state b]
    else
      watchdog_timer (app (sys b')) = watchdog_timer (app (sys b)) /\
      led_state b' = led_state b /\ led_out b' = led_out b.
Proof.
  intros Hq Hhp. unfold loop, WatchdogLED.
  destruct (SWTimer_expired (now e) (watchdog_timer (app (sys b)))) eqn:Hexp; cbn.
  - destruct (loop_quiet_watchdog e
                (on_app (fun a => set_watchdog_timer
                           (SWTimer_start (now e) (watchdog_timer a)) a) (sys b)))
      as (s' & Hl & Hwd & Hhp'); [done|exact Hhp|].
    rewrite Hl. cbn. eexists. split; [reflexivity|]. cbn.
    split; [done|]. split; [exact Hwd|done].
  - destruct (loop_quiet_watchdog e (sys b)) as (s' & Hl & Hwd & Hhp'); [done..|].
    rewrite Hl. cbn. eexists. split; [reflexivity|]. cbn. done.
Qed.

(** X21. The period of the heartbeat. In operation without serial input and
    with the priority flag down, a call of [loop] that finds the watchdog
    timer expired writes the current level to the LED pin; after it no
    level is written as long as the clock stays below the time of that
    call plus [MS_IN_SECONDS], and the first call at or after that time
    writes the opposite level. *)
Theorem heartbeat_period e b :
  duration (watchdog_timer (app (sys b))) = MS_IN_SECONDS cfg ->
  quiet e -> cmd_high_priority (app (sys b)) = false ->
  SWTimer_expired (now e) (watchdog_timer (app (sys b))) = true ->
  exists b1,
    loop cfg e b = Ok b1 /\
    led_out b1 = led_out b ++ [led_state b] /\
    forall es,
      Forall (fun e' => quiet e' /\ now e' < now e + MS_IN_SECONDS cfg) es ->
      exists b2,
        run_loop cfg es b1 = Ok b2 /\
        led_out b2 = led_out b1 /\
        forall e', quiet e' -> now e + MS_IN_SECONDS cfg <= now e' ->
          exists b3, loop cfg e' b2 = Ok b3 /\
            led_out b3 = led_out b1 ++ [negb (led_state b)].
Proof.
  intros Hdur Hq Hhp Hexp.
  destruct (loop_quiet_board e b Hq Hhp) as (b1 & Hloop & Hhp1 & Hb1).
  rewrite Hexp in Hb1. destruct Hb1 as (Hwd1 & Hst1 & Hout1).
  exists b1. split; [done|]. split; [done|].
  assert (Hinv : forall es b1',
            cmd_high_priority (app (sys b1')) = false ->
            watchdog_timer (app (sys b1'))
            = SWTimer_start (now e) (watchdog_timer (app (sys b))) ->
            Forall (fun e' => quiet e' /\ now e' < now e + MS_IN_SECONDS cfg) es ->
            exists b2, run_loop cfg es b1' = Ok b2 /\
              cmd_high_priority (app (sys b2)) = false /\
              watchdog_timer (app (sys b2))
              = SWTimer_start (now e) (watchdog_timer (app (sys b))) /\
              led_state b2 = led_state b1' /\ led_out b2 = led_out b1').
  { induction es as [|e1 es IH]; intros b1' Hf Hw Hes.
    - by exists b1'.
    - inversion Hes as [|? ? [Hq1 Ht1] Hes']; subst.
      destruct (loop_quiet_board e1 b1' Hq1 Hf) as (b2 & Hl2 & Hf2 & Hb2).
      assert (Hrun : SWTimer_expired (now e1) (watchdog_timer (app (sys b1')))
                     = false).
      { rewrite Hw. unfold SWTimer_expired, SWTimer_start. cbn. lia. }
      rewrite Hrun in Hb2. destruct Hb2 as (Hw2 & Hs2 & Ho2).
      destruct (IH b2 Hf2 ltac:(congruence) Hes') as (b3 & Hr3 & Hf3 & Hw3 & Hs3 & Ho3).
      exists b3. cbn [run_loop]. rewrite Hl2. cbn [mbind result_bind].
      repeat split; try done; congruence. }
  intros es Hes.
  destruct (Hinv es b1 Hhp1 Hwd1 Hes) as (b2 & Hrun & Hf2 & Hw2 & Hs2 & Ho2).
  exists b2. split; [done|]. split; [done|].
  intros e' Hq' Ht'.
  destruct (loop_quiet_board e' b2 Hq' Hf2) as (b3 & Hl3 & _ & Hb3).
  assert (Hexp3 : SWTimer_expired (now e') (watchdog_timer (app (sys b2))) = true).
  { rewrite Hw2. unfold SWTimer_expired, SWTimer_start. cbn. lia. }
  rewrite Hexp3 in Hb3. destruct Hb3 as (_ & _ & Ho3).
  exists b3. split; [done|]. rewrite Ho3, Ho2, Hs2, Hst1. done.
Qed.

End Properties.

(** * Evaluations on the concrete configuration *)

(** C2. The ramp command [t 0 1000], received after start-up with the
    potentiometer at position 0, makes [steps] 0 and divides the ramp time
    by it: [executeCommand] computes the step interval without a test for
    [steps > 0]. *)
Theorem ramp_to_current_position_divides_by_zero :
  observe (run demo_cfg (feed 0 (text_line "t 0 1000")) (setup demo_cfg))
  = Fault DivByZero.
Proof. vm_compute. reflexivity. Qed.

(** C3, counterexample. [t 99] is accepted: the potentiometer goes to
    position 99 and no rejection is written; so is [s 99] from position 0. *)
Lemma position_99_is_accepted :
  observe (run demo_cfg (feed 0 (text_line "t 99")) (setup demo_cfg))
  = Ok (Executing, 99, 0, 0, ["Throttle Mapper Ver. 0.72"%string]) /\
  observe (run demo_cfg (feed 0 (text_line "s 99")) (setup demo_cfg))
  = Ok (Executing, 99, 0, 0, ["Throttle Mapper Ver. 0.72"%string]).
Proof. split; vm_compute; reflexivity. Qed.

(** C4, counterexample. The line [t 50 NULL] as typed is lower-cased before
    it is tokenized, the word null is neither numeric nor the NULL of the
    tokenizer, and the position stays 0; no message is written. *)
Lemma typed_NULL_is_ignored :
  observe (run demo_cfg (feed 0 (text_line "t 50 NULL") ++ rest_cycles 20 10 3)
             (setup demo_cfg))
  = Ok (Idle, 0, 0, 0, ["Throttle Mapper Ver. 0.72"%string]).
Proof. vm_compute. reflexivity. Qed.

(** C5, counterexample. A line of 32 letters x followed by [s 7] exceeds the
    buffer of 32 characters, and still delivers a command: its last four
    bytes are executed as the step command [s 7]. *)
Lemma overlong_line_delivers_its_tail :
  observe (run demo_cfg
             (feed 0 (replicate 32 "x"%char ++ text_line "s 7"))
             (setup demo_cfg))
  = Ok (Executing, 7, 0, 0, ["Throttle Mapper Ver. 0.72"%string]).
Proof. vm_compute. reflexivity. Qed.

(** C6. The ramp command [t 50 -5] has a duration that is numeric and out of
    range. It is accepted: the [long] -5 becomes the [uint64_t]
    2^64 - 5, which passes [time > 0]; the target, the steps and the ramp
    timer are written, no rejection is printed and the machine enters
    Linear. *)
Theorem negative_ramp_time_is_accepted :
  observe (run demo_cfg (feed 0 (text_line "t 50 -5") ++ rest_cycles 20 10 1)
             (setup demo_cfg))
  = Ok (Linear, 0, 50, 50, ["Throttle Mapper Ver. 0.72"%string]) /\
  exists s,
    executeCommand demo_cfg 8 (text_line "t 50 -5") (setup demo_cfg) = Ok s /\
    ramping_time (app s) = 2 ^ 64 - 5 /\
    linear_cmd_timer (app s)
    = SWTimer_start 8 (SWTimer_construct ((2 ^ 64 - 5) / 50)) /\
    serial_out s = serial_out (setup demo_cfg).
Proof.
  split; [vm_compute; reflexivity|].
  eexists. split; [vm_compute; reflexivity|]. by vm_compute.
Qed.

(** C1. A ramp command received while the priority flag is up. The bytes
    q, x, NUL and line feed leave the flag up: the command stored is the
    word qx without a terminator, which [executeCommand] does not
    recognise, and only its case q takes the flag down. The ramp command
    [t 50 1000] that follows is dispatched in Idle and then executed again
    at the end of every cycle, which computes [steps] and the step timer
    anew from the position polled at the start of the cycle. Polled every
    10 ms, the ramp has not taken a step after 3 seconds. Polled once a
    second, with one cycle 10 ms after the step to position 49, the machine
    returns to Idle at position 50 with [steps] 1. Polled once a second
    throughout, it stands at position 50 still in Linear after 51 cycles,
    and the 52nd cycle divides by zero. With no byte before it, the ramp
    command [t 0 1000] at position 0 divides by zero in the cycle of its
    dispatch. *)
Theorem ramp_with_priority_flag_up :
  outcome (run demo_cfg
             (feed 0 ["q"; "x"; ASCII_NUL; ASCII_LF]%char
                ++ feed 10 (text_line "t 50 1000") ++ rest_cycles 20 10 300)
             (setup demo_cfg))
  = Ok (Linear, 0, 50, true) /\
  outcome (run demo_cfg
             (feed 0 ["q"; "x"; ASCII_NUL; ASCII_LF]%char
                ++ feed 10 (text_line "t 50 1000")
                ++ rest_cycles 1000 1000 50 ++ rest_cycles 50010 1000 2)
             (setup demo_cfg))
  = Ok (Idle, 50, 1, true) /\
  outcome (run demo_cfg
             (feed 0 ["q"; "x"; ASCII_NUL; ASCII_LF]%char
                ++ feed 10 (text_line "t 50 1000") ++ rest_cycles 1000 1000 51)
             (setup demo_cfg))
  = Ok (Linear, 50, 1, true) /\
  outcome (run demo_cfg
             (feed 0 ["q"; "x"; ASCII_NUL; ASCII_LF]%char
                ++ feed 10 (text_line "t 50 1000") ++ rest_cycles 1000 1000 52)
             (setup demo_cfg))
  = Fault DivByZero /\
  outcome (run demo_cfg (feed 0 (text_line "t 0 1000")) (setup demo_cfg))
  = Fault DivByZero.
Proof. repeat split; vm_compute; reflexivity. Qed.

(** C7. The bytes q, NUL and line feed, received in the middle of the ramp
    [t 50 1000] and in the middle of the wait [w 500]. [checkPriority]
    looks at the first byte of the buffer and raises the flag; the command
    made of the buffer ends at the NUL, so it is the word q without a
    terminator, which [executeCommand] answers with "Unknown command
    type". The application is not reset: the machine stays in Linear, and
    in Waiting, with the flag up, and the ramp runs on to position 50 with
    the flag still up. The same line without the NUL resets the
    application in the cycle of its line feed. *)
Theorem reset_line_with_NUL_does_not_reset :
  outcome (run demo_cfg
             (feed 0 (text_line "t 50 1000") ++ rest_cycles 20 10 5
                ++ feed 70 ["q"; ASCII_NUL; ASCII_LF]%char)
             (setup demo_cfg))
  = Ok (Linear, 3, 47, true) /\
  outcome (run demo_cfg
             (feed 0 (text_line "w 500") ++ rest_cycles 20 10 5
                ++ feed 70 ["q"; ASCII_NUL; ASCII_LF]%char)
             (setup demo_cfg))
  = Ok (Waiting, 0, 0, true) /\
  outcome (run demo_cfg
             (feed 0 (text_line "t 50 1000") ++ rest_cycles 20 10 5
                ++ feed 70 ["q"; ASCII_NUL; ASCII_LF]%char
                ++ rest_cycles 80 10 200)
             (setup demo_cfg))
  = Ok (Idle, 50, 0, true) /\
  outcome (run demo_cfg
             (feed 0 (text_line "t 50 1000") ++ rest_cycles 20 10 5
                ++ feed 70 ["q"; ASCII_LF]%char)
             (setup demo_cfg))
  = Ok (Idle, 0, 0, false).
Proof. repeat split; vm_compute; reflexivity. Qed.

(** C9. The line [Q] received in the middle of the ramp [t 50 1000]. After
    a line q, NUL, line feed has left the priority flag up, the line [Q]
    is executed through the priority path in the cycle of its line feed:
    the application struct is constructed anew, the potentiometer is
    driven to 0 and the high-priority marker is the last thing written,
    with the ramp at position 3 and 47 steps to go. Without the earlier
    line the same [Q] leaves the ramp as it is. *)
Theorem uppercase_Q_preempts_with_flag_up :
  outcome (run demo_cfg
             (feed 0 (text_line "t 50 1000") ++ rest_cycles 20 10 5
                ++ feed 70 ["q"; ASCII_NUL; ASCII_LF]%char
                ++ feed 80 (text_line "Q"))
             (setup demo_cfg))
  = Ok (Idle, 0, 0, false) /\
  (exists s,
     run demo_cfg
       (feed 0 (text_line "t 50 1000") ++ rest_cycles 20 10 5
          ++ feed 70 ["q"; ASCII_NUL; ASCII_LF]%char
          ++ feed 80 (text_line "Q"))
       (setup demo_cfg) = Ok s /\
     app s = Application_construct demo_cfg /\
     last (serial_out s) = Some (OutChar S_HP_CHAR)) /\
  outcome (run demo_cfg
             (feed 0 (text_line "t 50 1000") ++ rest_cycles 20 10 5
                ++ feed 70 ["q"; ASCII_NUL; ASCII_LF]%char)
             (setup demo_cfg))
  = Ok (Linear, 3, 47, true) /\
  outcome (run demo_cfg
             (feed 0 (text_line "t 50 1000") ++ rest_cycles 20 10 5
                ++ feed 80 (text_line "Q"))
             (setup demo_cfg))
  = Ok (Linear, 3, 47, false).
Proof.
  split; [vm_compute; reflexivity|]. split.
  - eexists. split; [vm_compute; reflexivity|]. split; vm_compute; reflexivity.
  - split; vm_compute; reflexivity.
Qed.

(** * The theorems at concrete inputs *)

Lemma demo_sched_advances c : clock_advances (demo_sched c).
Proof.
  split.
  - intros i j Hij. cbn. lia.
  - intros T. exists (Z.to_nat T). cbn. lia.
Defined.

Lemma demo_numeral_50 : numeral (chars "50") 50.
Proof. split; [discriminate|]. split; vm_compute; reflexivity. Defined.

Lemma demo_numeral_1000 : numeral (chars "1000") 1000.
Proof. split; [discriminate|]. split; vm_compute; reflexivity. Defined.

Lemma demo_numeral_99 : numeral (chars "99") 99.
Proof. split; [discriminate|]. split; vm_compute; reflexivity. Defined.

Lemma demo_numeral_120 : numeral (chars "120") 120.
Proof. split; [discriminate|]. split; vm_compute; reflexivity. Defined.

(** The ramp [t 50 1000] from position 0. *)
Lemma ramp_command_completes_witness :
  (forall k s, (1 <= k)%nat ->
     run demo_cfg (cycles (demo_sched ASCII_LF) 0 k) (demo_pending "t 50 1000")
     = Ok s ->
     (count_end (serial_out s)
      <= S (count_end (serial_out (demo_pending "t 50 1000"))))%nat /\
     (appState (app s) = Idle ->
        position (pot s) = 50 /\ steps (app s) = 0 /\
        (count_end (serial_out s)
         + (if cmd_finished_flag (app s) then 1 else 0))%nat
        = S (count_end (serial_out (demo_pending "t 50 1000"))))) /\
  (forall k, exists s,
     run demo_cfg (cycles (demo_sched ASCII_LF) 0 k) (demo_pending "t 50 1000")
     = Ok s) /\
  (exists K, forall k, (K <= k)%nat ->
     exists s, run demo_cfg (cycles (demo_sched ASCII_LF) 0 k)
                 (demo_pending "t 50 1000") = Ok s /\
       appState (app s) = Idle /\ position (pot s) = 50 /\
       steps (app s) = 0 /\ cmd_finished_flag (app s) = false /\
       count_end (serial_out s)
       = S (count_end (serial_out (demo_pending "t 50 1000")))).
Proof.
  destruct (ramp_command_completes demo_cfg (demo_sched ASCII_LF)
              (demo_pending "t 50 1000") (chars "50") (chars "1000") 50 1000
              ASCII_LF) as [Hsafe Hlive].
  - cbn. lia.
  - cbn. lia.
  - exact demo_numeral_50.
  - exact demo_numeral_1000.
  - lia.
  - lia.
  - reflexivity.
  - reflexivity.
  - reflexivity.
  - reflexivity.
  - cbn. lia.
  - split; reflexivity.
  - cbn. lia.
  - reflexivity.
  - reflexivity.
  - intros i. reflexivity.
  - apply demo_sched_advances.
  - split; [exact Hsafe|]. apply Hlive.
    + cbn. lia.
    + apply demo_sched_advances.
Defined.

(** The tokenizer after the two words of [t 50]. *)
Lemma nextWord_exhausted_forever_witness :
  nextWord (text_line "t 50") false 5 = (NULL, 5%nat) /\
  nextWord_iter (text_line "t 50") 3 5 = (replicate 3 NULL, 5%nat) /\
  nextWord (text_line "t 50") true 5 = nextWord (text_line "t 50") false 0.
Proof.
  apply (nextWord_exhausted_forever (text_line "t 50") 5 3). cbn. lia.
Defined.

(** An idle cycle right after start-up. *)
Lemma primaryFSM_idle_quiet_witness :
  exists s', primaryFSM demo_cfg {| now := 5; rx := None; adc := 0 |} (setup demo_cfg)
             = Ok s' /\
    app s' = app (setup demo_cfg) /\ pot s' = pot (setup demo_cfg) /\
    serial_out s' = serial_out (setup demo_cfg) /\
    cur s' = cur (setup demo_cfg) /\
    old_pot_pos s' = old_pot_pos (setup demo_cfg).
Proof.
  apply (primaryFSM_idle_quiet demo_cfg {| now := 5; rx := None; adc := 0 |}
           (setup demo_cfg)); reflexivity.
Defined.

(** The commands [t 120], [t 120 1000], [t 99], [s 99] and [s 120] from
    position 0. *)
Lemma positions_0_to_99_accepted_witness :
  (exists s', executeCommand demo_cfg 0 (line1 "t" (chars "120")) (setup demo_cfg)
              = Ok s' /\
     app s' = app (setup demo_cfg) /\ pot s' = pot (setup demo_cfg) /\
     serial_out s'
     = serial_out (setup demo_cfg) ++ [OutText "  Throttle out of bounds"]) /\
  (exists s', executeCommand demo_cfg 0 (line2 "t" (chars "120") (chars "1000"))
                (setup demo_cfg) = Ok s' /\
     app s' = app (setup demo_cfg) /\ pot s' = pot (setup demo_cfg) /\
     serial_out s'
     = serial_out (setup demo_cfg) ++ [OutText "  Throttle out of bounds"]) /\
  (exists s', executeCommand demo_cfg 0 (line1 "t" (chars "99")) (setup demo_cfg)
              = Ok s' /\
     app s' = app (setup demo_cfg) /\ position (pot s') = 99 /\
     serial_out s' = serial_out (setup demo_cfg)) /\
  (exists s', executeCommand demo_cfg 0 (line1 "s" (chars "99")) (setup demo_cfg)
              = Ok s' /\
     app s' = app (setup demo_cfg) /\
     position (pot s') = position (pot (setup demo_cfg)) + 99 /\
     serial_out s' = serial_out (setup demo_cfg)) /\
  (exists s', executeCommand demo_cfg 0 (line1 "s" (chars "120")) (setup demo_cfg)
              = Ok s' /\
     app s' = app (setup demo_cfg) /\ pot s' = pot (setup demo_cfg) /\
     serial_out s'
     = serial_out (setup demo_cfg) ++ [OutText "  Throttle out of bounds"]).
Proof.
  assert (Hbits : 16 <= int_bits demo_cfg) by (cbn; lia).
  assert (Hpp : pot_pos (app (setup demo_cfg)) = position (pot (setup demo_cfg)))
    by reflexivity.
  assert (Hpos : 0 <= position (pot (setup demo_cfg)) <= 99) by (cbn; lia).
  destruct (positions_0_to_99_accepted demo_cfg 0 (setup demo_cfg) (chars "120") 120
              Hbits demo_numeral_120 ltac:(lia) Hpp Hpos)
    as (Ht_out & _ & _ & Hs_out).
  destruct (positions_0_to_99_accepted demo_cfg 0 (setup demo_cfg) (chars "99") 99
              Hbits demo_numeral_99 ltac:(lia) Hpp Hpos)
    as (_ & Ht_in & Hs_in & _).
  destruct (Ht_out ltac:(lia)) as [Ht1 Ht2].
  split; [exact Ht1|].
  split; [apply Ht2; [discriminate|by apply isNumeric_word]|].
  split; [apply Ht_in; lia|].
  split; [apply Hs_in; cbn; lia|].
  apply Hs_out. cbn. lia.
Defined.

(** The line [t 50], its duration left out, from position 0: after the
    cycle of the dispatch, and four cycles later. *)
Lemma immediate_move_witness :
  (exists s, run demo_cfg (cycles (demo_sched ASCII_LF) 0 1) (demo_pending "t 50")
             = Ok s /\
     position (pot s) = 50 /\ appState (app s) <> Linear) /\
  (exists s, run demo_cfg (cycles (demo_sched ASCII_LF) 0 5) (demo_pending "t 50")
             = Ok s /\
     position (pot s) = 50 /\ appState (app s) <> Linear).
Proof.
  assert (H : forall k, (1 <= k)%nat ->
            exists s, run demo_cfg (cycles (demo_sched ASCII_LF) 0 k)
                        (demo_pending "t 50") = Ok s /\
              position (pot s) = 50 /\ appState (app s) <> Linear).
  { apply (immediate_move demo_cfg (demo_sched ASCII_LF) (demo_pending "t 50")
             (chars "50") 50 ASCII_LF).
    - cbn. lia.
    - cbn. lia.
    - exact demo_numeral_50.
    - lia.
    - reflexivity.
    - reflexivity.
    - reflexivity.
    - reflexivity.
    - split; reflexivity.
    - cbn. lia.
    - reflexivity.
    - reflexivity.
    - intros i. reflexivity.
    - intros i j Hij. cbn. lia. }
  split; apply H; lia.
Defined.

(** Thirty-two letters x, then the line [s 7]. *)
Lemma overflow_clears_and_next_line_delivers_witness :
  exists s', assemble demo_cfg
               (feed 0 (replicate 32 "x"%char ++ chars "s 7" ++ [ASCII_LF]))
               (setup demo_cfg)
             = Ok (replicate (CMD_CHAR_LEN demo_cfg) false
                   ++ replicate (length (chars "s 7")) false ++ [true], s') /\
    command (app s') = chars "s 7" ++ [ASCII_LF] /\
    rx_holds demo_cfg [] s'.
Proof.
  apply (overflow_clears_and_next_line_delivers demo_cfg
           (feed 0 (replicate 32 "x"%char ++ chars "s 7" ++ [ASCII_LF]))
           (setup demo_cfg) (replicate 32 "x"%char) (chars "s 7") ASCII_LF).
  - cbn. lia.
  - reflexivity.
  - split; reflexivity.
  - reflexivity.
  - repeat constructor.
  - repeat constructor.
  - repeat constructor.
  - cbn. lia.
  - reflexivity.
  - reflexivity.
Defined.

(** The line [q] arriving in the middle of a ramp. *)
Lemma priority_reset_preempts_witness :
  (exists s1, checkSerialRX demo_cfg (demo_lf 80)
                (report_phase demo_cfg (demo_lf 80)
                   (with_rx demo_cfg (chars "q") demo_ramping))
              = Ok (true, s1) /\
     cmd_high_priority (app s1) = true) /\
  (exists s', Application_loop demo_cfg (demo_lf 80)
                (with_rx demo_cfg (chars "q") demo_ramping) = Ok s' /\
     app s' = Application_construct demo_cfg /\ position (pot s') = 0 /\
     appState (app s') = Idle /\ cmd_high_priority (app s') = false /\
     steps (app s') = 0 /\
     last (serial_out s') = Some (OutChar S_HP_CHAR)).
Proof.
  apply (priority_reset_preempts demo_cfg (demo_lf 80)
           (with_rx demo_cfg (chars "q") demo_ramping) [] ASCII_LF).
  - cbn. lia.
  - reflexivity.
  - reflexivity.
  - split; reflexivity.
  - constructor.
  - cbn. lia.
  - left. vm_compute. reflexivity.
Defined.

(** The line [Q] arriving in the middle of a ramp, and after start-up. *)
Lemma uppercase_Q_cannot_preempt_witness :
  (exists s' s'',
     Application_loop demo_cfg (demo_lf 80)
       (with_rx demo_cfg (chars "Q") demo_ramping) = Ok s' /\
     Application_loop demo_cfg (without_rx (demo_lf 80))
       (with_rx demo_cfg (chars "Q") demo_ramping) = Ok s'' /\
     control s' = control s'' /\
     control s'
     = cycle_step (now (demo_lf 80))
         (control (with_rx demo_cfg (chars "Q") demo_ramping)) /\
     cmd_high_priority (app s') = false) /\
  (exists s', Application_loop demo_cfg (demo_lf 80) (demo_pending "Q") = Ok s' /\
     app s' = set_appState Executing (Application_construct demo_cfg) /\
     position (pot s') = 0 /\
     last (serial_out s') = Some (OutChar S_R_CHAR)).
Proof.
  split.
  - apply (uppercase_Q_cannot_preempt demo_cfg (demo_lf 80)
             (with_rx demo_cfg (chars "Q") demo_ramping) [] ASCII_LF).
    + cbn. lia.
    + reflexivity.
    + reflexivity.
    + split; reflexivity.
    + constructor.
    + cbn. lia.
    + vm_compute. reflexivity.
    + vm_compute. discriminate.
  - apply (uppercase_Q_cannot_preempt demo_cfg (demo_lf 80) (demo_pending "Q")
             [] ASCII_LF).
    + cbn. lia.
    + reflexivity.
    + reflexivity.
    + split; reflexivity.
    + constructor.
    + cbn. lia.
    + reflexivity.
    + reflexivity.
Defined.

(** ** The further properties at concrete inputs *)

(** The second word of [t  50], behind two spaces. *)
Lemma nextWord_skips_separators_witness :
  nextWord (chars "t " ++ [ASCII_SPACE] ++ chars "50" ++ ASCII_LF :: []) false
    (length (chars "t "))
  = (chars "50",
     (length (chars "t ") + length [ASCII_SPACE] + length (chars "50") + 1)%nat).
Proof.
  apply (nextWord_skips_separators (chars "t ") [ASCII_SPACE] "5" ["0"%char]
           ASCII_LF []).
  - repeat constructor.
  - repeat constructor.
  - reflexivity.
Defined.

(** The line [t 50] without its line feed. *)
Lemma nextWord_unterminated_word_is_lost_witness :
  nextWord (chars "t " ++ [] ++ chars "50") false (length (chars "t "))
  = (NULL, 2%nat) /\
  nextWord (chars "t " ++ [] ++ chars "50") false 2 = (NULL, 2%nat).
Proof.
  apply (nextWord_unterminated_word_is_lost (chars "t ") [] (chars "50")).
  - constructor.
  - repeat constructor.
Defined.

(** The words t, 50 and 1000 on one line. *)
Lemma nextWord_unwords_witness :
  nextWord (unwords [chars "t"; chars "50"; chars "1000"]) true 7
  = (chars "t", 2%nat) /\
  nextWord_iter (unwords [chars "t"; chars "50"; chars "1000"]) 2 2
  = ([chars "50"; chars "1000"],
     length (unwords [chars "t"; chars "50"; chars "1000"])) /\
  nextWord (unwords [chars "t"; chars "50"; chars "1000"]) false
    (length (unwords [chars "t"; chars "50"; chars "1000"]))
  = (NULL, length (unwords [chars "t"; chars "50"; chars "1000"])).
Proof.
  apply (nextWord_unwords (chars "t") [chars "50"; chars "1000"] 7).
  repeat constructor; discriminate.
Defined.

(** The arguments [12-3], [-12-3], [-] and [--3]. *)
Lemma numerals_with_embedded_minus_witness :
  0 <= atol (chars "12") /\
  numeral (chars "12" ++ "-"%char :: chars "3") (atol (chars "12")) /\
  numeral ("-"%char :: chars "12" ++ "-"%char :: chars "3") (- atol (chars "12")) /\
  numeral ["-"%char] 0 /\
  numeral ("-"%char :: "-"%char :: chars "3") 0.
Proof.
  apply (numerals_with_embedded_minus "1" ["2"%char] (chars "3")).
  - repeat constructor.
  - reflexivity.
  - vm_compute. discriminate.
Defined.

(** The cycle after an immediate move has finished: the flag is up. *)
Lemma end_marker_follows_the_flag_witness :
  count_end (serial_out
    (returned (setup demo_cfg)
       (run demo_cfg (cycles (demo_sched ASCII_LF) 0 3) (demo_pending "t 50"))))
  = (count_end (serial_out
       (returned (setup demo_cfg)
          (run demo_cfg (cycles (demo_sched ASCII_LF) 0 2) (demo_pending "t 50"))))
     + (if cmd_finished_flag (app
             (returned (setup demo_cfg)
                (run demo_cfg (cycles (demo_sched ASCII_LF) 0 2)
                   (demo_pending "t 50"))))
        then 1 else 0))%nat /\
  (cmd_finished_flag (app
     (returned (setup demo_cfg)
        (run demo_cfg (cycles (demo_sched ASCII_LF) 0 3) (demo_pending "t 50"))))
   = true ->
   appState (app
     (returned (setup demo_cfg)
        (run demo_cfg (cycles (demo_sched ASCII_LF) 0 3) (demo_pending "t 50"))))
   = Idle).
Proof.
  apply (end_marker_follows_the_flag demo_cfg (demo_sched ASCII_LF 2)).
  vm_compute. reflexivity.
Defined.

(** The two cycles after the dispatch of an immediate move. *)
Lemma finished_flag_lasts_one_cycle_witness :
  cmd_finished_flag (app
    (returned (setup demo_cfg)
       (run demo_cfg (cycles (demo_sched ASCII_LF) 0 3) (demo_pending "t 50"))))
  = false /\
  count_end (serial_out
    (returned (setup demo_cfg)
       (run demo_cfg (cycles (demo_sched ASCII_LF) 0 3) (demo_pending "t 50"))))
  = S (count_end (serial_out
         (returned (setup demo_cfg)
            (run demo_cfg (cycles (demo_sched ASCII_LF) 0 2)
               (demo_pending "t 50"))))).
Proof.
  apply (finished_flag_lasts_one_cycle demo_cfg
           (demo_sched ASCII_LF 1) (demo_sched ASCII_LF 2)
           (returned (setup demo_cfg)
              (run demo_cfg (cycles (demo_sched ASCII_LF) 0 1)
                 (demo_pending "t 50")))).
  - vm_compute. reflexivity.
  - vm_compute. reflexivity.
  - vm_compute. reflexivity.
Defined.

(** The first cycle after start-up. *)
Lemma telemetry_gate_witness :
  (count_data (serial_out
     (returned (setup demo_cfg)
        (Application_loop demo_cfg (demo_idle 5) (setup demo_cfg))))
   = count_data (serial_out (setup demo_cfg)) \/
   (count_data (serial_out
      (returned (setup demo_cfg)
         (Application_loop demo_cfg (demo_idle 5) (setup demo_cfg))))
    = S (count_data (serial_out (setup demo_cfg))) /\
    In (OutData (adc (demo_idle 5)) (position (pot (setup demo_cfg)))
          (getOhm demo_cfg (position (pot (setup demo_cfg)))) (now (demo_idle 5)))
       (serial_out
          (returned (setup demo_cfg)
             (Application_loop demo_cfg (demo_idle 5) (setup demo_cfg)))))) /\
  (position (pot (setup demo_cfg)) <> old_pot_pos (setup demo_cfg) ->
   count_data (serial_out
     (returned (setup demo_cfg)
        (Application_loop demo_cfg (demo_idle 5) (setup demo_cfg))))
   = count_data (serial_out (setup demo_cfg))) /\
  (position (pot (setup demo_cfg)) = old_pot_pos (setup demo_cfg) ->
   SWTimer_expired (now (demo_idle 5)) (adc_settling_timer (app (setup demo_cfg)))
   = false ->
   count_data (serial_out
     (returned (setup demo_cfg)
        (Application_loop demo_cfg (demo_idle 5) (setup demo_cfg))))
   = count_data (serial_out (setup demo_cfg))) /\
  (position (pot (setup demo_cfg)) = old_pot_pos (setup demo_cfg) ->
   SWTimer_expired (now (demo_idle 5)) (adc_settling_timer (app (setup demo_cfg)))
   = true ->
   (count_data (serial_out
      (returned (setup demo_cfg)
         (Application_loop demo_cfg (demo_idle 5) (setup demo_cfg))))
    = S (count_data (serial_out (setup demo_cfg))) <->
    new_value_flag (app (setup demo_cfg)) = true \/
    SWTimer_expired (now (demo_idle 5)) (data_step_timer (app (setup demo_cfg)))
    = true)).
Proof.
  apply (telemetry_gate demo_cfg (demo_idle 5) (setup demo_cfg)).
  - vm_compute. reflexivity.
  - cbn. lia.
Defined.

(** The bytes of [t 50 1000] and its line feed, received after start-up. *)
Lemma write_index_stays_in_buffer_witness :
  (ser_i (returned (setup demo_cfg)
            (run demo_cfg (feed 0 (text_line "t 50 1000")) (setup demo_cfg)))
   < CMD_CHAR_LEN demo_cfg)%nat /\
  length (input (returned (setup demo_cfg)
            (run demo_cfg (feed 0 (text_line "t 50 1000")) (setup demo_cfg))))
  = CMD_CHAR_LEN demo_cfg /\
  drop (ser_i (returned (setup demo_cfg)
            (run demo_cfg (feed 0 (text_line "t 50 1000")) (setup demo_cfg))))
    (input (returned (setup demo_cfg)
            (run demo_cfg (feed 0 (text_line "t 50 1000")) (setup demo_cfg))))
  = replicate
      (CMD_CHAR_LEN demo_cfg
       - ser_i (returned (setup demo_cfg)
            (run demo_cfg (feed 0 (text_line "t 50 1000")) (setup demo_cfg))))
      ASCII_NUL.
Proof.
  apply (write_index_stays_in_buffer demo_cfg (feed 0 (text_line "t 50 1000"))).
  - cbn. lia.
  - vm_compute. reflexivity.
Defined.

(** Thirty-one letters x, then the line feed. *)
Lemma line_filling_the_buffer_overruns_witness :
  checkSerialRX demo_cfg (demo_lf 0)
    (with_rx demo_cfg (replicate 31 "x"%char) (setup demo_cfg))
  = Fault BufferOverrun /\
  Application_loop demo_cfg (demo_lf 0)
    (with_rx demo_cfg (replicate 31 "x"%char) (setup demo_cfg))
  = Fault BufferOverrun.
Proof.
  apply (line_filling_the_buffer_overruns demo_cfg (demo_lf 0)
           (with_rx demo_cfg (replicate 31 "x"%char) (setup demo_cfg))
           (replicate 31 "x"%char) ASCII_LF).
  - reflexivity.
  - reflexivity.
  - split; reflexivity.
  - repeat constructor.
  - reflexivity.
Defined.

(** The letter t, then silence. *)
Lemma stalled_line_is_discarded_witness :
  exists s1 s2,
    checkSerialRX demo_cfg {| now := 0; rx := Some "t"%char; adc := 0 |}
      (setup demo_cfg) = Ok (false, s1) /\
    checkSerialRX demo_cfg (demo_idle 50) s1 = Ok (false, s2) /\
    (now (demo_idle 50)
     < now {| now := 0; rx := Some "t"%char; adc := 0 |}
       + duration (serial_timeout_timer (app (setup demo_cfg))) ->
     s2 = s1 /\ rx_holds demo_cfg ([] ++ ["t"%char]) s2) /\
    (now {| now := 0; rx := Some "t"%char; adc := 0 |}
     + duration (serial_timeout_timer (app (setup demo_cfg)))
     <= now (demo_idle 50) ->
     rx_holds demo_cfg [] s2).
Proof.
  apply (stalled_line_is_discarded demo_cfg
           {| now := 0; rx := Some "t"%char; adc := 0 |} (demo_idle 50)
           (setup demo_cfg) [] "t").
  - cbn. lia.
  - cbn. lia.
  - reflexivity.
  - reflexivity.
  - reflexivity.
  - split; reflexivity.
  - cbn. lia.
Defined.

(** A blank line, and lines that begin with x behind a space. *)
Lemma unknown_command_is_rejected_witness :
  executeCommand demo_cfg 0 [ASCII_SPACE] (setup demo_cfg)
  = Ok (emit (OutText "  Unknown command type") (set_cur 0 (setup demo_cfg))) /\
  exists c,
    executeCommand demo_cfg 0 ([ASCII_SPACE] ++ "x"%char :: chars " 50" ++ [ASCII_LF])
      (setup demo_cfg)
    = Ok (emit (OutText "  Unknown command type") (set_cur c (setup demo_cfg))).
Proof.
  destruct (unknown_command_is_rejected demo_cfg 0 (setup demo_cfg) [ASCII_SPACE])
    as [Hblank Hword].
  - repeat constructor.
  - split; [exact Hblank|]. apply Hword; [reflexivity|].
    cbn. intros [H|[H|[H|[H|[H|[]]]]]]; discriminate.
Defined.

(** The lines [t], [t abc] and [t 5x 100]. *)
Lemma bad_argument_is_rejected_witness :
  (exists c,
     executeCommand demo_cfg 0 ("t"%char :: [] ++ ASCII_LF :: []) (setup demo_cfg)
     = Ok (emit (OutText "  Bad argument for command 't'")
             (set_cur c (setup demo_cfg)))) /\
  (exists c,
     executeCommand demo_cfg 0
       ("t"%char :: [] ++ ASCII_SPACE :: [] ++ chars "abc" ++ ASCII_LF :: [])
       (setup demo_cfg)
     = Ok (emit (OutText "  Bad argument for command 't'")
             (set_cur c (setup demo_cfg)))) /\
  (exists c,
     executeCommand demo_cfg 0
       ("t"%char :: [] ++ ASCII_SPACE :: [] ++ chars "5x" ++ ASCII_SPACE
          :: text_line "100")
       (setup demo_cfg)
     = Ok (emit (OutText "  Bad argument for command 't'")
             (set_cur c (setup demo_cfg)))).
Proof.
  destruct (bad_argument_is_rejected demo_cfg 0 (setup demo_cfg) "t" [] ASCII_LF [])
    as [Hmissing _].
  { left. reflexivity. }
  { constructor. }
  { reflexivity. }
  { constructor. }
  destruct (bad_argument_is_rejected demo_cfg 0 (setup demo_cfg) "t" [] ASCII_SPACE [])
    as [_ Hword].
  { left. reflexivity. }
  { constructor. }
  { reflexivity. }
  { constructor. }
  split; [exact Hmissing|]. split.
  - apply (Hword (chars "abc") ASCII_LF []);
      [discriminate|repeat constructor|reflexivity|reflexivity].
  - apply (Hword (chars "5x") ASCII_SPACE (text_line "100"));
      [discriminate|repeat constructor|reflexivity|reflexivity].
Defined.

Lemma demo_numeral_0 : numeral (chars "0") 0.
Proof. split; [discriminate|]. split; vm_compute; reflexivity. Defined.

Lemma demo_numeral_minus_5 : numeral (chars "-5") (-5).
Proof. split; [discriminate|]. split; vm_compute; reflexivity. Defined.

(** The lines [w 50] and [w -5]. *)
Lemma wait_command_validation_witness :
  (executeCommand demo_cfg 7 (line1 "w" (chars "50")) (setup demo_cfg)
   = Ok (if 0 <? to_int demo_cfg 50
         then set_cur (3 + length (chars "50"))
                (on_app (wait_armed 7 (to_int demo_cfg 50)) (setup demo_cfg))
         else emit (OutText "  Time out of bounds")
                (set_cur (3 + length (chars "50")) (setup demo_cfg))) /\
   (16 <= int_bits demo_cfg -> - 2 ^ 15 <= 50 < 2 ^ 15 -> to_int demo_cfg 50 = 50)) /\
  (executeCommand demo_cfg 7 (line1 "w" (chars "-5")) (setup demo_cfg)
   = Ok (if 0 <? to_int demo_cfg (-5)
         then set_cur (3 + length (chars "-5"))
                (on_app (wait_armed 7 (to_int demo_cfg (-5))) (setup demo_cfg))
         else emit (OutText "  Time out of bounds")
                (set_cur (3 + length (chars "-5")) (setup demo_cfg))) /\
   (16 <= int_bits demo_cfg -> - 2 ^ 15 <= -5 < 2 ^ 15
    -> to_int demo_cfg (-5) = -5)).
Proof.
  split.
  - apply (wait_command_validation demo_cfg 7 (setup demo_cfg) "w" (chars "50") 50);
      [reflexivity|exact demo_numeral_50].
  - apply (wait_command_validation demo_cfg 7 (setup demo_cfg) "w" (chars "-5") (-5));
      [reflexivity|exact demo_numeral_minus_5].
Defined.

(** The line [t 50 0]. *)
Lemma zero_duration_ramp_is_rejected_witness :
  executeCommand demo_cfg 7 (line2 "t" (chars "50") (chars "0")) (setup demo_cfg)
  = Ok (emit (OutText "  Time out of bounds")
          (set_cur (4 + length (chars "50") + length (chars "0")) (setup demo_cfg))).
Proof.
  apply (zero_duration_ramp_is_rejected demo_cfg 7 (setup demo_cfg) "t"
           (chars "50") (chars "0") 50).
  - reflexivity.
  - exact demo_numeral_50.
  - exact demo_numeral_0.
  - cbn. lia.
  - lia.
Defined.


(** The line [s 5] arriving in the middle of a ramp. *)
Lemma busy_line_is_dropped_witness :
  exists s' s'',
    Application_loop demo_cfg (demo_lf 80)
      (with_rx demo_cfg (chars "s 5") demo_ramping) = Ok s' /\
    Application_loop demo_cfg (without_rx (demo_lf 80))
      (with_rx demo_cfg (chars "s 5") demo_ramping) = Ok s'' /\
    app s' = set_command (chars "s 5" ++ [ASCII_LF])
               (rx_started (demo_lf 80) (app s'')) /\
    pot s' = pot s'' /\ old_pot_pos s' = old_pot_pos s'' /\
    serial_out s'
    = serial_out s''
      ++ (if ECHO_EN demo_cfg then [OutEcho (chars "s 5" ++ [ASCII_LF])] else []) /\
    rx_holds demo_cfg [] s'.
Proof.
  apply (busy_line_is_dropped demo_cfg (demo_lf 80)
           (with_rx demo_cfg (chars "s 5") demo_ramping) (chars "s 5") ASCII_LF).
  - cbn. lia.
  - reflexivity.
  - reflexivity.
  - split; reflexivity.
  - repeat constructor.
  - cbn. lia.
  - discriminate.
  - vm_compute. discriminate.
  - vm_compute. reflexivity.
Defined.

(** The bytes q, x and NUL, then the line feed, after start-up. *)
Lemma truncated_reset_line_sticks_witness :
  exists s1,
    Application_loop demo_cfg (demo_lf 0)
      (with_rx demo_cfg ("q"%char :: ["x"%char] ++ ASCII_NUL :: []) (setup demo_cfg))
    = Ok s1 /\
    cmd_high_priority (app s1) = true /\ command (app s1) = "q"%char :: ["x"%char] /\
    forall es, Forall quiet es ->
      exists s2, run demo_cfg es s1 = Ok s2 /\
        cmd_high_priority (app s2) = true /\
        count_hp (serial_out s2) = (count_hp (serial_out s1) + length es)%nat /\
        (es <> [] ->
         last (serial_out s2) = Some (OutText "  Unknown command type")).
Proof.
  apply (truncated_reset_line_sticks demo_cfg (demo_lf 0)
           (with_rx demo_cfg ("q"%char :: ["x"%char] ++ ASCII_NUL :: [])
              (setup demo_cfg))
           ["x"%char] [] ASCII_LF).
  - cbn. lia.
  - reflexivity.
  - reflexivity.
  - split; reflexivity.
  - repeat constructor.
  - repeat constructor.
  - cbn. lia.
Defined.

(** The wait [w 50] after start-up, 10 ms per cycle. *)
Lemma wait_command_completes_witness :
  (forall k, exists s,
     run demo_cfg (cycles (demo_sched ASCII_LF) 0 (S k)) (demo_pending "w 50")
     = Ok s /\
     position (pot s) = position (pot (demo_pending "w 50")) /\
     (count_end (serial_out s)
      <= S (count_end (serial_out (demo_pending "w 50"))))%nat /\
     (now (demo_sched ASCII_LF k) < now (demo_sched ASCII_LF 0) + 50 ->
      appState (app s) <> Idle /\
      count_end (serial_out s) = count_end (serial_out (demo_pending "w 50"))) /\
     ((1 <= k)%nat ->
      now (demo_sched ASCII_LF 0) + 50 <= now (demo_sched ASCII_LF k) ->
      appState (app s) = Idle)) /\
  (exists K, forall k, (K <= k)%nat ->
     exists s, run demo_cfg (cycles (demo_sched ASCII_LF) 0 k) (demo_pending "w 50")
               = Ok s /\
       appState (app s) = Idle /\ cmd_finished_flag (app s) = false /\
       count_end (serial_out s)
       = S (count_end (serial_out (demo_pending "w 50")))).
Proof.
  destruct (wait_command_completes demo_cfg (demo_sched ASCII_LF)
              (demo_pending "w 50") (chars "50") 50 ASCII_LF) as [Hsafe Hlive].
  - cbn. lia.
  - cbn. lia.
  - exact demo_numeral_50.
  - lia.
  - reflexivity.
  - reflexivity.
  - reflexivity.
  - reflexivity.
  - split; reflexivity.
  - cbn. lia.
  - reflexivity.
  - reflexivity.
  - intros i. reflexivity.
  - apply demo_sched_advances.
  - split; [exact Hsafe|]. apply Hlive. apply demo_sched_advances.
Defined.

(** The ramp [t 50 1000] from position 0, after the dispatch and thirty
    cycles later. *)
Lemma ramp_is_paced_witness :
  (exists s,
     run demo_cfg (cycles (demo_sched ASCII_LF) 0 1) (demo_pending "t 50 1000")
     = Ok s /\
     Z.abs (position (pot s) - position (pot (demo_pending "t 50 1000")))
     + Z.abs (50 - position (pot s))
     = Z.abs (50 - position (pot (demo_pending "t 50 1000"))) /\
     Z.abs (position (pot s) - position (pot (demo_pending "t 50 1000")))
     * (1000 / Z.abs (50 - position (pot (demo_pending "t 50 1000"))))
     <= now (demo_sched ASCII_LF 0) - now (demo_sched ASCII_LF 0)) /\
  (exists s,
     run demo_cfg (cycles (demo_sched ASCII_LF) 0 31) (demo_pending "t 50 1000")
     = Ok s /\
     Z.abs (position (pot s) - position (pot (demo_pending "t 50 1000")))
     + Z.abs (50 - position (pot s))
     = Z.abs (50 - position (pot (demo_pending "t 50 1000"))) /\
     Z.abs (position (pot s) - position (pot (demo_pending "t 50 1000")))
     * (1000 / Z.abs (50 - position (pot (demo_pending "t 50 1000"))))
     <= now (demo_sched ASCII_LF 30) - now (demo_sched ASCII_LF 0)).
Proof.
  assert (H : forall k, exists s,
    run demo_cfg (cycles (demo_sched ASCII_LF) 0 (S k)) (demo_pending "t 50 1000")
    = Ok s /\
    Z.abs (position (pot s) - position (pot (demo_pending "t 50 1000")))
    + Z.abs (50 - position (pot s))
    = Z.abs (50 - position (pot (demo_pending "t 50 1000"))) /\
    Z.abs (position (pot s) - position (pot (demo_pending "t 50 1000")))
    * (1000 / Z.abs (50 - position (pot (demo_pending "t 50 1000"))))
    <= now (demo_sched ASCII_LF k) - now (demo_sched ASCII_LF 0)).
  { apply (ramp_is_paced demo_cfg (demo_sched ASCII_LF)
             (demo_pending "t 50 1000") (chars "50") (chars "1000") 50 1000
             ASCII_LF).
    - cbn. lia.
    - cbn. lia.
    - exact demo_numeral_50.
    - exact demo_numeral_1000.
    - lia.
    - lia.
    - reflexivity.
    - reflexivity.
    - reflexivity.
    - reflexivity.
    - cbn. lia.
    - cbn. lia.
    - split; reflexivity.
    - cbn. lia.
    - reflexivity.
    - reflexivity.
    - intros i. reflexivity.
    - apply demo_sched_advances. }
  split; [exact (H 0%nat)|exact (H 30%nat)].
Defined.

(** Three calls of [loop] after start-up, 600 ms apart. *)
Lemma heartbeat_alternates_witness :
  led_out (returned (power_on demo_cfg)
     (run_loop demo_cfg [demo_idle 0; demo_idle 600; demo_idle 1200]
        (power_on demo_cfg)))
  = blink (length (led_out (returned (power_on demo_cfg)
     (run_loop demo_cfg [demo_idle 0; demo_idle 600; demo_idle 1200]
        (power_on demo_cfg))))) /\
  led_state (returned (power_on demo_cfg)
     (run_loop demo_cfg [demo_idle 0; demo_idle 600; demo_idle 1200]
        (power_on demo_cfg)))
  = Nat.even (length (led_out (returned (power_on demo_cfg)
     (run_loop demo_cfg [demo_idle 0; demo_idle 600; demo_idle 1200]
        (power_on demo_cfg))))) /\
  ([demo_idle 0; demo_idle 600; demo_idle 1200] <> [] ->
   led_out (returned (power_on demo_cfg)
     (run_loop demo_cfg [demo_idle 0; demo_idle 600; demo_idle 1200]
        (power_on demo_cfg))) <> []) /\
  duration (watchdog_timer (app (sys (returned (power_on demo_cfg)
     (run_loop demo_cfg [demo_idle 0; demo_idle 600; demo_idle 1200]
        (power_on demo_cfg))))))
  = MS_IN_SECONDS demo_cfg.
Proof.
  apply (heartbeat_alternates demo_cfg
           [demo_idle 0; demo_idle 600; demo_idle 1200]).
  vm_compute. reflexivity.
Defined.

(** The first call of [loop] after start-up. *)
Lemma heartbeat_period_witness :
  exists b1,
    loop demo_cfg (demo_idle 0) (power_on demo_cfg) = Ok b1 /\
    led_out b1 = led_out (power_on demo_cfg) ++ [led_state (power_on demo_cfg)] /\
    forall es,
      Forall (fun e' => quiet e' /\ now e' < now (demo_idle 0) + MS_IN_SECONDS demo_cfg)
        es ->
      exists b2,
        run_loop demo_cfg es b1 = Ok b2 /\
        led_out b2 = led_out b1 /\
        forall e', quiet e' -> now (demo_idle 0) + MS_IN_SECONDS demo_cfg <= now e' ->
          exists b3, loop demo_cfg e' b2 = Ok b3 /\
            led_out b3 = led_out b1 ++ [negb (led_state (power_on demo_cfg))].
Proof.
  apply (heartbeat_period demo_cfg (demo_idle 0) (power_on demo_cfg));
    reflexivity.
Defined.
